(** * Jetson Ollama Control Panel: stream decoding, telemetry parsing, admission guard

    A shallow embedding of the data-handling code of the repository:
    - [frontend/src/App.js]: [handlePullModel], [handleChatSubmit],
      [hasSufficientMemory], the React state they update, and the page as a
      transition system over its events; [buildApiUrl], [ResourceGauge],
      [ChatMessage], [fetchStats], [fetchModels], [handleDeleteModel], the
      handlers of the saved chats and the two effects that store and load
      them;
    - [stats_server.py]: [parse_tegrastats] and [get_system_stats].

    Conventions.
    - A JavaScript string is the list of its UTF-16 code units ([jsstring]).
      The handlers are modelled from the text chunk that
      [decoder.decode(value)] returns.
    - A JavaScript number and a Python float are IEEE-754 binary64 values,
      [spec_float] of the Standard Library, with its correctly rounded
      operations at precision 53 and maximal exponent 1024.
    - [JSON.parse], [JSON.stringify], Number::toString, ToString, ToNumber,
      [Math.round], [trim] and [split] follow ECMAScript; a thrown exception
      is a result of its own, the TypeError of a conversion included.
    - A callback that React creates in one render reads the state of that
      render: such a cell is a parameter of the callback, named [_seen].
    - What the environment answers (a [fetch], a dialog, the clock) is an
      argument of the handler.
    - A Python [str] is a Rocq [string]: code points below 256, on which
      [\d] is exactly the ten ASCII digits. Python integers are unbounded;
      [int(str)] raises ValueError past 4300 digits and [int / int] raises
      OverflowError past the range of a float.
    - The regular expressions are written in a fragment of [re] with the
      backtracking order of [re].

    Contents: the definitions, sample inputs, then the properties. *)

From Stdlib Require Import ZArith NArith List Bool String Ascii Lia.
From Stdlib Require Import DecimalString.
From Stdlib Require Import Floats.SpecFloat.
Import ListNotations.

Local Open Scope Z_scope.

(** ** JavaScript strings *)

Module JsStr.

Definition jsstring := list N.

(** A literal: the code units of an ASCII Rocq string. *)
Definition js (s : string) : jsstring :=
  map N_of_ascii (list_ascii_of_string s).

(** A literal in which an apostrophe stands for the double quote of JSON text. *)
Definition jsq (s : string) : jsstring :=
  map (fun c => if N.eqb c 39 then 34%N else c) (js s).

Definition LF : N := 10%N.

(** [s.split(sep)] for a one-character separator: never empty, [''.split(sep)]
    is [['']]. *)
Fixpoint split (sep : N) (s : jsstring) : list jsstring :=
  match s with
  | [] => [[]]
  | c :: s' =>
      if N.eqb c sep then [] :: split sep s'
      else match split sep s' with
           | l :: ls => (c :: l) :: ls
           | [] => [[c]]
           end
  end.

(** WhiteSpace and LineTerminator code units of ECMAScript (what [trim] strips
    and what [StringToNumber] skips). *)
Definition is_whitespace (c : N) : bool :=
  (N.eqb c 9 || N.eqb c 10 || N.eqb c 11 || N.eqb c 12 || N.eqb c 13
   || N.eqb c 32 || N.eqb c 160 || N.eqb c 5760
   || (N.leb 8192 c && N.leb c 8202)
   || N.eqb c 8232 || N.eqb c 8233 || N.eqb c 8239 || N.eqb c 8287
   || N.eqb c 12288 || N.eqb c 65279)%bool%N.

Fixpoint trimStart (s : jsstring) : jsstring :=
  match s with
  | [] => []
  | c :: s' => if is_whitespace c then trimStart s' else s
  end.

Definition trimEnd (s : jsstring) : jsstring := rev (trimStart (rev s)).

Definition trim (s : jsstring) : jsstring := trimEnd (trimStart s).

(** [s.startsWith(c)] for a one-character argument. *)
Definition startsWith (c : N) (s : jsstring) : bool :=
  match s with
  | d :: _ => N.eqb d c
  | [] => false
  end.

Fixpoint eqb (a b : jsstring) : bool :=
  match a, b with
  | [], [] => true
  | x :: a', y :: b' => N.eqb x y && eqb a' b'
  | _, _ => false
  end.

End JsStr.
Export JsStr.

(** ** IEEE-754 binary64 *)

Module F64.

Definition prec : Z := 53.
Definition emax : Z := 1024.

Definition number := spec_float.

Definition NaN : number := S754_nan.

Definition sub : number -> number -> number := SFsub prec emax.
Definition mul : number -> number -> number := SFmul prec emax.
Definition div : number -> number -> number := SFdiv prec emax.

Definition is_zero (x : number) : bool :=
  match x with
  | S754_zero _ => true
  | _ => false
  end.

Definition is_nan (x : number) : bool :=
  match x with
  | S754_nan => true
  | _ => false
  end.

(** [x > y] *)
Definition gt (x y : number) : bool := SFltb y x.

(** The double nearest to an integer (ties to even; infinite past the range). *)
Definition of_Z (z : Z) : number := binary_normalize prec emax z 0 false.

(** The double nearest to [m * 10^e] for [0 <= m], with the sign [neg]: what a
    decimal literal denotes. A negative exponent divides two integers, rounded
    once. *)
Definition of_decimal (neg : bool) (m : Z) (e : Z) : number :=
  match m with
  | Zpos p =>
      match e with
      | Zneg q => div (S754_finite neg p 0) (S754_finite false (Pos.pow 10 q) 0)
      | _ => binary_normalize prec emax (if neg then - (m * 10 ^ e) else m * 10 ^ e) 0 neg
      end
  | _ => S754_zero neg
  end.

(** [Math.round]: the nearest integer, a tie going towards plus infinity; the
    sign of a zero result is the sign of the argument. *)
Definition Math_round (x : number) : number :=
  match x with
  | S754_finite s m (Zneg k) =>
      let d := Z.pow_pos 2 k in
      let r := if s then - ((2 * Zpos m + d - 1) / (2 * d))
               else (2 * Zpos m + d) / (2 * d) in
      binary_normalize prec emax r 0 s
  | _ => x
  end.

End F64.

(** ** Number to string and string to number (ECMAScript) *)

Module JsNum.
Import F64.

Definition is_digit (c : N) : bool := (N.leb 48 c && N.leb c 57)%bool.
Definition digit_value (c : N) : Z := Z.of_N c - 48.

(** Decimal digits of a nonnegative integer, most significant first. *)
Fixpoint digits_fuel (fuel : nat) (n : Z) (acc : jsstring) : jsstring :=
  match fuel with
  | O => acc
  | S f =>
      let acc' := Z.to_N (48 + n mod 10) :: acc in
      if n <? 10 then acc' else digits_fuel f (n / 10) acc'
  end.

Definition decimal_digits (n : Z) : jsstring :=
  digits_fuel (S (Z.to_nat (Z.log2 n))) n [].

(** [v = p / q < 10^n], for positive [p] and [q]. *)
Definition below_pow10 (p q n : Z) : bool :=
  if 0 <=? n then p <? q * 10 ^ n else p * 10 ^ (- n) <? q.

(** The least [n] from [start] on with [p / q < 10^n]. *)
Fixpoint first_pow10_above (fuel : nat) (p q start : Z) : Z :=
  match fuel with
  | O => start
  | S f => if below_pow10 p q start then start
           else first_pow10_above f p q (start + 1)
  end.

(** [n] with [10^(n-1) <= p / q < 10^n]: searched from a binary estimate that is
    at most two below it. *)
Definition decimal_exponent (p q : Z) : Z :=
  first_pow10_above 8 p q ((Z.log2 p - Z.log2 q) * 30103 / 100000 - 2).

(** The digits [s] (as an integer of [k] digits) and the exponent [n] of
    Number::toString for the positive double [x = p / q]: [k] as small as
    possible with [s * 10^(n-k)] rounding to [x], then [s] closest to [x], then
    [s] even. [k] runs from [k] up to [k + fuel]; 17 digits always suffice. *)
Fixpoint shortest_from (fuel : nat) (x : number) (p q n0 k : Z) : Z * Z * Z :=
  let sc := n0 - k in
  let pp := if 0 <=? sc then p else p * 10 ^ (- sc) in
  let qq := if 0 <=? sc then q * 10 ^ sc else q in
  let lo := pp / qq in
  let hi := lo + 1 in
  let lo_ok := SFeqb (of_decimal false lo sc) x in
  let hi_ok := SFeqb (of_decimal false hi sc) x in
  let pick (s : Z) := if s =? 10 ^ k then (10 ^ (k - 1), k, n0 + 1) else (s, k, n0) in
  let dlo := pp - lo * qq in
  let dhi := hi * qq - pp in
  match fuel with
  | O => pick (if dlo <=? dhi then lo else hi)
  | S f =>
      if lo_ok && hi_ok then
        pick (if dlo <? dhi then lo
              else if dhi <? dlo then hi
              else if Z.even lo then lo else hi)
      else if lo_ok then pick lo
      else if hi_ok then pick hi
      else shortest_from f x p q n0 (k + 1)
  end.

Definition zeros (n : Z) : jsstring := repeat 48%N (Z.to_nat n).

(** Number::toString(x) in radix 10. *)
Definition Number_toString (x : number) : jsstring :=
  match x with
  | S754_nan => js "NaN"
  | S754_zero _ => js "0"
  | S754_infinity s => (if s then js "-" else []) ++ js "Infinity"
  | S754_finite sg m e =>
      let p := if 0 <=? e then Zpos m * 2 ^ e else Zpos m in
      let q := if 0 <=? e then 1 else 2 ^ (- e) in
      let n0 := decimal_exponent p q in
      let '(s, k, n) := shortest_from 17 (S754_finite false m e) p q n0 1 in
      let ds := decimal_digits s in
      let body :=
        if (-5 <=? n) && (n <=? 21) then
          if k <=? n then ds ++ zeros (n - k)
          else if 0 <? n then
            firstn (Z.to_nat n) ds ++ js "." ++ skipn (Z.to_nat n) ds
          else js "0." ++ zeros (- n) ++ ds
        else
          let ex := (if 0 <=? n - 1 then js "+" else js "-")
                    ++ decimal_digits (Z.abs (n - 1)) in
          if k =? 1 then ds ++ js "e" ++ ex
          else firstn 1 ds ++ js "." ++ skipn 1 ds ++ js "e" ++ ex
      in
      (if sg then js "-" else []) ++ body
  end.

(** A run of decimal digits: its value on top of [acc], how many there were on
    top of [n], and what follows. *)
Fixpoint digits_run (s : jsstring) (acc n : Z) : Z * Z * jsstring :=
  match s with
  | c :: s' =>
      if is_digit c then digits_run s' (10 * acc + digit_value c) (n + 1)
      else (acc, n, s)
  | [] => (acc, n, [])
  end.

(** An optional exponent part [e|E] [+|-] digits: its value (0 when there is none)
    and what follows; [None] when an exponent starts and has no digit. *)
Definition exponent_part (s : jsstring) : option (Z * jsstring) :=
  match s with
  | c :: s' =>
      if N.eqb c 101 || N.eqb c 69 then
        let '(neg, s'') :=
          match s' with
          | d :: t => if N.eqb d 45 then (true, t)
                      else if N.eqb d 43 then (false, t) else (false, s')
          | [] => (false, s')
          end in
        let '(v, n, rest) := digits_run s'' 0 0 in
        if n =? 0 then None else Some (if neg then - v else v, rest)
      else Some (0, s)
  | [] => Some (0, s)
  end.

Fixpoint strip_prefix (p s : jsstring) : option jsstring :=
  match p, s with
  | [], _ => Some s
  | a :: p', b :: s' => if N.eqb a b then strip_prefix p' s' else None
  | _ :: _, [] => None
  end.

(** Digits of a radix 2, 8 or 16 literal. *)
Definition radix_digit (radix : Z) (c : N) : option Z :=
  let v :=
    if is_digit c then Z.of_N c - 48
    else if (N.leb 97 c && N.leb c 102)%bool then Z.of_N c - 87
    else if (N.leb 65 c && N.leb c 70)%bool then Z.of_N c - 55
    else 99 in
  if v <? radix then Some v else None.

Fixpoint radix_run (radix : Z) (s : jsstring) (acc : Z) : option Z :=
  match s with
  | [] => Some acc
  | c :: s' =>
      match radix_digit radix c with
      | Some v => radix_run radix s' (radix * acc + v)
      | None => None
      end
  end.

(** StrUnsignedDecimalLiteral, the whole of [s]. *)
Definition unsigned_decimal (neg : bool) (s : jsstring) : number :=
  if JsStr.eqb s (js "Infinity") then S754_infinity neg
  else
    let '(ip, ni, r1) := digits_run s 0 0 in
    let '(m, nf, r2) :=
      match r1 with
      | c :: t => if N.eqb c 46 then
                    let '(m, nf, r2) := digits_run t ip 0 in (m, nf, r2)
                  else (ip, 0, r1)
      | [] => (ip, 0, r1)
      end in
    if (ni =? 0) && (nf =? 0) then NaN
    else match exponent_part r2 with
         | Some (ex, []) => of_decimal neg m (ex - nf)
         | _ => NaN
         end.

(** StringToNumber: ToNumber applied to a string. *)
Definition StringToNumber (str : jsstring) : number :=
  let s := trim str in
  match s with
  | [] => S754_zero false
  | c :: t =>
      if N.eqb c 43 then unsigned_decimal false t
      else if N.eqb c 45 then unsigned_decimal true t
      else
        let radix :=
          match s with
          | 48%N :: r :: d :: _ =>
              if N.eqb r 120 || N.eqb r 88 then Some 16
              else if N.eqb r 111 || N.eqb r 79 then Some 8
              else if N.eqb r 98 || N.eqb r 66 then Some 2
              else None
          | _ => None
          end in
        match radix with
        | Some rx => match radix_run rx (skipn 2 s) 0 with
                     | Some v => of_Z v
                     | None => NaN
                     end
        | None => unsigned_decimal false s
        end
  end.

End JsNum.

(** ** JSON values and [JSON.parse] *)

Module Json.
Import F64 JsNum.

#[local] Set Warnings "-register-all".

Inductive json :=
| JNull
| JBool (b : bool)
| JNum (x : number)
| JStr (s : jsstring)
| JArr (items : list json)
| JObj (members : list (jsstring * json)).

(** JSON white space: tab, line feed, carriage return, space. *)
Definition is_json_ws (c : N) : bool :=
  (N.eqb c 9 || N.eqb c 10 || N.eqb c 13 || N.eqb c 32)%bool.

Fixpoint skip_ws (s : jsstring) : jsstring :=
  match s with
  | c :: s' => if is_json_ws c then skip_ws s' else s
  | [] => []
  end.

Definition hex_value (c : N) : option N :=
  if is_digit c then Some (c - 48)%N
  else if (N.leb 97 c && N.leb c 102)%bool then Some (c - 87)%N
  else if (N.leb 65 c && N.leb c 70)%bool then Some (c - 55)%N
  else None.

Definition hex4 (a b c d : N) : option N :=
  match hex_value a, hex_value b, hex_value c, hex_value d with
  | Some x, Some y, Some z, Some w => Some (((x * 16 + y) * 16 + z) * 16 + w)%N
  | _, _, _, _ => None
  end.

(** The characters of a string literal after its opening quote: the code units
    (in reverse on top of [acc]) and what follows the closing quote. *)
Fixpoint parse_string (s : jsstring) (acc : jsstring) : option (jsstring * jsstring) :=
  match s with
  | [] => None
  | c :: s' =>
      if N.eqb c 34 then Some (rev acc, s')
      else if N.eqb c 92 then
        match s' with
        | [] => None
        | e :: s'' =>
            if N.eqb e 34 then parse_string s'' (34%N :: acc)
            else if N.eqb e 92 then parse_string s'' (92%N :: acc)
            else if N.eqb e 47 then parse_string s'' (47%N :: acc)
            else if N.eqb e 98 then parse_string s'' (8%N :: acc)
            else if N.eqb e 102 then parse_string s'' (12%N :: acc)
            else if N.eqb e 110 then parse_string s'' (10%N :: acc)
            else if N.eqb e 114 then parse_string s'' (13%N :: acc)
            else if N.eqb e 116 then parse_string s'' (9%N :: acc)
            else if N.eqb e 117 then
              match s'' with
              | h1 :: h2 :: h3 :: h4 :: s3 =>
                  match hex4 h1 h2 h3 h4 with
                  | Some u => parse_string s3 (u :: acc)
                  | None => None
                  end
              | _ => None
              end
            else None
        end
      else if N.ltb c 32 then None
      else parse_string s' (c :: acc)
  end.

(** A number: an optional minus, an integer part with no leading zero, an
    optional fraction with at least one digit, an optional exponent. *)
Definition parse_number (s : jsstring) : option (number * jsstring) :=
  let '(neg, s1) :=
    match s with
    | c :: t => if N.eqb c 45 then (true, t) else (false, s)
    | [] => (false, s)
    end in
  let '(ip, ni, r1) := digits_run s1 0 0 in
  if (ni =? 0) || ((1 <? ni) && startsWith 48 s1) then None
  else
    let frac :=
      match r1 with
      | c :: t =>
          if N.eqb c 46 then
            let '(m, nf, r2) := digits_run t ip 0 in
            if nf =? 0 then None else Some (m, nf, r2)
          else Some (ip, 0, r1)
      | [] => Some (ip, 0, r1)
      end in
    match frac with
    | None => None
    | Some (m, nf, r2) =>
        match exponent_part r2 with
        | Some (ex, r3) => Some (of_decimal neg m (ex - nf), r3)
        | None => None
        end
    end.

(** The three mutually recursive parsers, each as one step over the parsers it
    calls. A value at the head of [s] (no leading white space), and what follows
    it. *)
Definition value_step
  (elements : jsstring -> list json -> option (json * jsstring))
  (members : jsstring -> list (jsstring * json) -> option (json * jsstring))
  (s : jsstring) : option (json * jsstring) :=
  match s with
  | [] => None
  | c :: r =>
      if N.eqb c 34 then
        match parse_string r [] with
        | Some (str, r') => Some (JStr str, r')
        | None => None
        end
      else if N.eqb c 91 then
        match skip_ws r with
        | d :: r' => if N.eqb d 93 then Some (JArr [], r')
                     else elements (d :: r') []
        | [] => None
        end
      else if N.eqb c 123 then
        match skip_ws r with
        | d :: r' => if N.eqb d 125 then Some (JObj [], r')
                     else members (d :: r') []
        | [] => None
        end
      else if N.eqb c 110 then
        match strip_prefix (js "null") s with
        | Some r' => Some (JNull, r')
        | None => None
        end
      else if N.eqb c 116 then
        match strip_prefix (js "true") s with
        | Some r' => Some (JBool true, r')
        | None => None
        end
      else if N.eqb c 102 then
        match strip_prefix (js "false") s with
        | Some r' => Some (JBool false, r')
        | None => None
        end
      else
        match parse_number s with
        | Some (x, r') => Some (JNum x, r')
        | None => None
        end
  end.

(** The elements of an array after its opening bracket, up to and with the
    closing one; [acc] holds the elements before, last first. *)
Definition elements_step
  (value : jsstring -> option (json * jsstring))
  (elements : jsstring -> list json -> option (json * jsstring))
  (s : jsstring) (acc : list json) : option (json * jsstring) :=
  match value s with
  | Some (v, r) =>
      match skip_ws r with
      | d :: r' =>
          if N.eqb d 44 then elements (skip_ws r') (v :: acc)
          else if N.eqb d 93 then Some (JArr (rev (v :: acc)), r')
          else None
      | [] => None
      end
  | None => None
  end.

(** The members of an object after its opening brace, up to and with the
    closing one. *)
Definition members_step
  (value : jsstring -> option (json * jsstring))
  (members : jsstring -> list (jsstring * json) -> option (json * jsstring))
  (s : jsstring) (acc : list (jsstring * json)) : option (json * jsstring) :=
  match s with
  | q :: r0 =>
      if N.eqb q 34 then
        match parse_string r0 [] with
        | Some (key, r1) =>
            match skip_ws r1 with
            | c :: r2 =>
                if N.eqb c 58 then
                  match value (skip_ws r2) with
                  | Some (v, r3) =>
                      match skip_ws r3 with
                      | d :: r4 =>
                          if N.eqb d 44 then
                            members (skip_ws r4) ((key, v) :: acc)
                          else if N.eqb d 125 then
                            Some (JObj (rev ((key, v) :: acc)), r4)
                          else None
                      | [] => None
                      end
                  | None => None
                  end
                else None
            | [] => None
            end
        | None => None
        end
      else None
  | [] => None
  end.

(** The recursion is on [fuel]; twice the length of the text and two is enough
    for any text (a parser that is out of fuel answers [None]). *)
Fixpoint parse_value (fuel : nat) (s : jsstring) : option (json * jsstring) :=
  match fuel with
  | O => None
  | S f =>
      value_step (fun s' acc => parse_elements f s' acc)
                 (fun s' acc => parse_members f s' acc) s
  end

with parse_elements (fuel : nat) (s : jsstring) (acc : list json)
  : option (json * jsstring) :=
  match fuel with
  | O => None
  | S f =>
      elements_step (fun s' => parse_value f s')
                    (fun s' acc' => parse_elements f s' acc') s acc
  end

with parse_members (fuel : nat) (s : jsstring) (acc : list (jsstring * json))
  : option (json * jsstring) :=
  match fuel with
  | O => None
  | S f =>
      members_step (fun s' => parse_value f s')
                   (fun s' acc' => parse_members f s' acc') s acc
  end.

(** [JSON.parse(text)]: [None] stands for the SyntaxError it throws. Members of
    an object are kept in source order, duplicates included. *)
Definition JSON_parse (text : jsstring) : option json :=
  match parse_value (2 * List.length text + 2) (skip_ws text) with
  | Some (v, r) => match skip_ws r with [] => Some v | _ :: _ => None end
  | None => None
  end.

End Json.

(** ** JavaScript values: property reads, truthiness, coercions *)

Module JsVal.
Import F64 JsNum Json.
Export Json.

(** A value read from parsed JSON: [None] is [undefined]. *)
Definition value := option json.

Fixpoint lookup (key : jsstring) (members : list (jsstring * json)) : value :=
  match members with
  | [] => None
  | (k, v) :: rest =>
      match lookup key rest with
      | Some w => Some w
      | None => if JsStr.eqb k key then Some v else None
      end
  end.

(** [o.key] for [o] other than [null] and [undefined], and a [key] that no
    built-in prototype defines: the last member of that name of an object,
    [undefined] on a string, number, boolean or array. *)
Definition get (o : json) (key : jsstring) : value :=
  match o with
  | JObj members => lookup key members
  | _ => None
  end.

(** ToBoolean. *)
Definition truthy (v : value) : bool :=
  match v with
  | None => false
  | Some JNull => false
  | Some (JBool b) => b
  | Some (JNum x) =>
      match x with
      | S754_zero _ => false
      | S754_nan => false
      | _ => true
      end
  | Some (JStr s) => match s with [] => false | _ :: _ => true end
  | Some (JArr _) => true
  | Some (JObj _) => true
  end.

Definition join (sep : jsstring) (parts : list jsstring) : jsstring :=
  match parts with
  | [] => []
  | p :: ps => p ++ flat_map (fun x => sep ++ x) ps
  end.

(** What an operation throws. *)
Inductive exn := SyntaxError | TypeError.

Inductive result (A : Type) :=
| Ok (a : A)
| Throw (e : exn).
Arguments Ok {A} a.
Arguments Throw {A} e.

Definition bind {A B} (r : result A) (k : A -> result B) : result B :=
  match r with
  | Ok a => k a
  | Throw e => Throw e
  end.

(** ToString. An array is its elements joined by commas, [null] elements
    left empty. An object goes through ToPrimitive, which calls its
    [toString] and [valueOf]: the members of an object of parsed JSON are
    data, so a member named [toString] hides [Object.prototype.toString] and
    cannot be called, [valueOf], its own or inherited, gives no primitive, and
    a TypeError is thrown; an object with no such member is
    [[object Object]]. *)
Fixpoint ToString (v : json) : result jsstring :=
  match v with
  | JNull => Ok (js "null")
  | JBool b => Ok (if b then js "true" else js "false")
  | JNum x => Ok (Number_toString x)
  | JStr s => Ok s
  | JArr items =>
      let fix each (l : list json) : result (list jsstring) :=
        match l with
        | [] => Ok []
        | e :: rest =>
            match match e with JNull => Ok [] | _ => ToString e end with
            | Ok part =>
                match each rest with
                | Ok parts => Ok (part :: parts)
                | Throw x => Throw x
                end
            | Throw x => Throw x
            end
        end in
      match each items with
      | Ok parts => Ok (join (js ",") parts)
      | Throw x => Throw x
      end
  | JObj members =>
      match lookup (js "toString") members with
      | Some _ => Throw TypeError
      | None => Ok (js "[object Object]")
      end
  end.

(** ToNumber: an array or an object goes through ToPrimitive, hence through
    its string or the TypeError of that. *)
Definition ToNumber (v : value) : result number :=
  match v with
  | None => Ok NaN
  | Some JNull => Ok (S754_zero false)
  | Some (JBool b) => Ok (if b then of_Z 1 else S754_zero false)
  | Some (JNum x) => Ok x
  | Some (JStr s) => Ok (StringToNumber s)
  | Some (JArr items) => bind (ToString (JArr items)) (fun s => Ok (StringToNumber s))
  | Some (JObj members) =>
      bind (ToString (JObj members)) (fun s => Ok (StringToNumber s))
  end.

(** [v || 0] *)
Definition or_zero (v : value) : value :=
  if truthy v then v else Some (JNum (S754_zero false)).

End JsVal.

(** ** frontend/src/App.js: stream decoding *)

Module Stream.
Import F64 JsNum JsVal.

Definition is_empty (s : jsstring) : bool :=
  match s with [] => true | _ :: _ => false end.

(** *** handleChatSubmit, the body of [lines.forEach] *)

(** The record a line decodes to, if any:
    [if (!trimmed || !trimmed.startsWith('{')) return;] and a [JSON.parse]
    whose failure is caught and ignored. *)
Definition chat_parse_line (line : jsstring) : option json :=
  let trimmed := trim line in
  if is_empty trimmed || negb (startsWith 123 trimmed) then None
  else JSON_parse trimmed.

(** [parsed.message && parsed.message.content], as the text that
    [assistantContent += parsed.message.content] appends. A TypeError of the
    conversion is thrown before anything is assigned, and is caught with the
    errors of [JSON.parse]: nothing is appended. *)
Definition chat_delta (parsed : json) : option jsstring :=
  match get parsed (js "message") with
  | Some message =>
      if truthy (Some message) then
        match get message (js "content") with
        | Some content =>
            if truthy (Some content) then
              match ToString content with
              | Ok text => Some text
              | Throw _ => None
              end
            else None
        | None => None
        end
      else None
  | None => None
  end.

(** One line: the pair is [(assistantContent, hasDelta)]. *)
Definition chat_line (acc : jsstring * bool) (line : jsstring) : jsstring * bool :=
  match chat_parse_line line with
  | Some parsed =>
      match chat_delta parsed with
      | Some text => (fst acc ++ text, true)
      | None => acc
      end
  | None => acc
  end.

(** One chunk: [chunk.split('\n')] and the [forEach] over it, [hasDelta]
    starting [false]. *)
Definition chat_chunk (assistantContent chunk : jsstring) : jsstring * bool :=
  fold_left chat_line (split LF chunk) (assistantContent, false).

(** The records the chat handler decodes from one chunk, in order. *)
Definition chat_records (chunk : jsstring) : list json :=
  flat_map (fun line => match chat_parse_line line with
                        | Some r => [r]
                        | None => []
                        end)
           (split LF chunk).

(** *** handlePullModel, the body of [lines.forEach] *)

(** [chunk.split('\n').filter(line => line.trim() !== '')] *)
Definition pull_lines (chunk : jsstring) : list jsstring :=
  filter (fun line => negb (is_empty (trim line))) (split LF chunk).

(** One decoded record against the current [pullStatus]: the new
    [pullStatus]. Reading [json.total] of [null] throws a TypeError, and so
    does the division when an operand has no primitive value. *)
Definition pull_record (json : Json.json) (pullStatus : Json.json) : result Json.json :=
  match json with
  | JNull => Throw TypeError
  | _ =>
      if truthy (get json (js "total")) && truthy (get json (js "completed")) then
        bind (ToNumber (get json (js "completed"))) (fun completed =>
        bind (ToNumber (get json (js "total"))) (fun total =>
        let percent := Math_round (mul (div completed total) (of_Z 100)) in
        Ok (JStr (js "Downloading... " ++ Number_toString percent ++ js "%"))))
      else
        match get json (js "status") with
        | Some status => if truthy (Some status) then Ok status else Ok pullStatus
        | None => Ok pullStatus
        end
  end.

(** One line: [JSON.parse(line)], uncaught, then the record. *)
Definition pull_line (pullStatus : Json.json) (line : jsstring) : result Json.json :=
  match JSON_parse line with
  | Some json => pull_record json pullStatus
  | None => Throw SyntaxError
  end.

Fixpoint pull_each (lines : list jsstring) (pullStatus : Json.json) : result Json.json :=
  match lines with
  | [] => Ok pullStatus
  | line :: rest => bind (pull_line pullStatus line) (pull_each rest)
  end.

(** The status line of a progress record: [`Downloading... ${percent}%`]. *)
Definition downloading (percent : number) : json :=
  JStr (js "Downloading... " ++ Number_toString percent ++ js "%").

(** [Math.round((json.completed / json.total) * 100)] on two numbers. *)
Definition percent_of (completed total : number) : number :=
  Math_round (mul (div completed total) (of_Z 100)).

(** The members of a record named [status]: the record as it would be with
    nothing else in it. *)
Definition status_only (members : list (jsstring * json)) : list (jsstring * json) :=
  filter (fun m => JsStr.eqb (fst m) (js "status")) members.

(** One chunk of the pull stream. *)
Definition pull_chunk (pullStatus : Json.json) (chunk : jsstring) : result Json.json :=
  pull_each (pull_lines chunk) pullStatus.

(** The records the pull handler decodes from one chunk, in order, up to and
    without the first line that fails to parse; the flag tells whether all
    lines parsed. *)
Fixpoint pull_decode (lines : list jsstring) : list json * bool :=
  match lines with
  | [] => ([], true)
  | line :: rest =>
      match JSON_parse line with
      | Some r => let '(rs, ok) := pull_decode rest in (r :: rs, ok)
      | None => ([], false)
      end
  end.

Definition pull_records (chunk : jsstring) : list json * bool :=
  pull_decode (pull_lines chunk).

End Stream.

(** ** frontend/src/App.js: the React state and its handlers *)

Module App.
Import F64 JsNum JsVal Stream.

Inductive Role := user | assistant.

Record ChatMessage := { role : Role; content : jsstring }.

(** The [useState] cells the handlers read and write. *)
Record AppState := {
  systemStats : value;
  selectedModel : jsstring;
  selectedModelInfo : value;
  chatHistory : list ChatMessage;
  prompt : jsstring;
  isStreaming : bool;
  pullModelName : jsstring;
  pullStatus : json
}.

Definition set_chatHistory (h : list ChatMessage) (st : AppState) : AppState :=
  {| systemStats := systemStats st; selectedModel := selectedModel st;
     selectedModelInfo := selectedModelInfo st; chatHistory := h;
     prompt := prompt st; isStreaming := isStreaming st;
     pullModelName := pullModelName st; pullStatus := pullStatus st |}.

Definition set_prompt (p : jsstring) (st : AppState) : AppState :=
  {| systemStats := systemStats st; selectedModel := selectedModel st;
     selectedModelInfo := selectedModelInfo st; chatHistory := chatHistory st;
     prompt := p; isStreaming := isStreaming st;
     pullModelName := pullModelName st; pullStatus := pullStatus st |}.

Definition set_isStreaming (b : bool) (st : AppState) : AppState :=
  {| systemStats := systemStats st; selectedModel := selectedModel st;
     selectedModelInfo := selectedModelInfo st; chatHistory := chatHistory st;
     prompt := prompt st; isStreaming := b;
     pullModelName := pullModelName st; pullStatus := pullStatus st |}.

Definition set_pullStatus (s : json) (st : AppState) : AppState :=
  {| systemStats := systemStats st; selectedModel := selectedModel st;
     selectedModelInfo := selectedModelInfo st; chatHistory := chatHistory st;
     prompt := prompt st; isStreaming := isStreaming st;
     pullModelName := pullModelName st; pullStatus := s |}.

Definition set_pullModelName (n : jsstring) (st : AppState) : AppState :=
  {| systemStats := systemStats st; selectedModel := selectedModel st;
     selectedModelInfo := selectedModelInfo st; chatHistory := chatHistory st;
     prompt := prompt st; isStreaming := isStreaming st;
     pullModelName := n; pullStatus := pullStatus st |}.

Definition set_systemStats (v : value) (st : AppState) : AppState :=
  {| systemStats := v; selectedModel := selectedModel st;
     selectedModelInfo := selectedModelInfo st; chatHistory := chatHistory st;
     prompt := prompt st; isStreaming := isStreaming st;
     pullModelName := pullModelName st; pullStatus := pullStatus st |}.

Definition set_selected (name : jsstring) (info : value) (st : AppState) : AppState :=
  {| systemStats := systemStats st; selectedModel := name;
     selectedModelInfo := info; chatHistory := chatHistory st;
     prompt := prompt st; isStreaming := isStreaming st;
     pullModelName := pullModelName st; pullStatus := pullStatus st |}.

(** The initial values of the [useState] calls. *)
Definition initial : AppState :=
  {| systemStats := Some JNull; selectedModel := []; selectedModelInfo := Some JNull;
     chatHistory := []; prompt := []; isStreaming := false;
     pullModelName := js "gemma:2b"; pullStatus := JStr [] |}.

(** *** hasSufficientMemory *)

(** A TypeError of a conversion is thrown while [App] renders. *)
Definition hasSufficientMemory (systemStats selectedModelInfo : value) : result bool :=
  if negb (truthy systemStats) || negb (truthy selectedModelInfo) then Ok true
  else
    match systemStats, selectedModelInfo with
    | Some stats, Some info =>
        bind (ToNumber (or_zero (get stats (js "ram_total_gb")))) (fun total =>
        bind (ToNumber (or_zero (get stats (js "ram_used_gb")))) (fun used =>
        let freeGb := sub total used in
        bind (ToNumber (or_zero (get info (js "size")))) (fun size =>
        let modelGb := div size (of_decimal false 1 9) in
        Ok (gt freeGb (mul modelGb (of_decimal false 15 (-1)))))))
    | _, _ => Ok true
    end.

Definition memOk (st : AppState) : result bool :=
  hasSufficientMemory (systemStats st) (selectedModelInfo st).

(** *** handleChatSubmit *)

(** The local variables of one call of [handleChatSubmit] that is past its
    guard: the body of the request, whether [fetch] has resolved (the reader is
    open and the assistant message was appended), and [assistantContent]. *)
Record ChatTask := {
  request_model : jsstring;
  request_messages : list ChatMessage;
  chat_reading : bool;
  assistantContent : jsstring
}.

(** Up to the first [await]: the guard, the user message, [setPrompt('')],
    [setIsStreaming(true)] and the [fetch] call. [None]: the call returned at the
    guard and issued no request. *)
Definition handleChatSubmit (st : AppState) : AppState * option ChatTask :=
  if is_empty (prompt st) || isStreaming st || is_empty (selectedModel st)
     || negb (truthy (selectedModelInfo st))
  then (st, None)
  else
    let newUserMessage := {| role := user; content := prompt st |} in
    let newChatHistory := chatHistory st ++ [newUserMessage] in
    (set_isStreaming true (set_prompt [] (set_chatHistory newChatHistory st)),
     Some {| request_model := selectedModel st;
             request_messages := newChatHistory;
             chat_reading := false;
             assistantContent := [] |}).

(** [fetch] resolved and the reader is open:
    [setChatHistory(prev => [...prev, assistantMessage])]. *)
Definition chat_response (st : AppState) (t : ChatTask) : AppState * ChatTask :=
  (set_chatHistory (chatHistory st ++ [{| role := assistant; content := [] |}]) st,
   {| request_model := request_model t; request_messages := request_messages t;
      chat_reading := true; assistantContent := assistantContent t |}).

(** [updated[updated.length - 1] = { ...updated[updated.length - 1], content }]:
    on an empty array the assignment adds no element. *)
Definition replace_last_content (c : jsstring) (h : list ChatMessage) : list ChatMessage :=
  match rev h with
  | [] => []
  | m :: before => rev before ++ [{| role := role m; content := c |}]
  end.

(** One [reader.read()] that returned a chunk. *)
Definition chat_read (st : AppState) (t : ChatTask) (chunk : jsstring)
  : AppState * ChatTask :=
  let '(content', hasDelta) := chat_chunk (assistantContent t) chunk in
  (if hasDelta
   then set_chatHistory (replace_last_content content' (chatHistory st)) st
   else st,
   {| request_model := request_model t; request_messages := request_messages t;
      chat_reading := chat_reading t; assistantContent := content' |}).

(** [done]: the loop is left and [finally] runs. *)
Definition chat_done (st : AppState) : AppState := set_isStreaming false st.

Definition chat_error_message : ChatMessage :=
  {| role := assistant; content := js "Sorry, I encountered an error." |}.

(** [fetch], [getReader] or [reader.read()] threw: [catch], then [finally]. *)
Definition chat_failed (st : AppState) : AppState :=
  set_isStreaming false
    (set_chatHistory (chatHistory st ++ [chat_error_message]) st).

(** *** handlePullModel *)

(** Up to the first [await]; [None]: returned at [if (!pullModelName)]. *)
Definition handlePullModel (st : AppState) : AppState * bool :=
  if is_empty (pullModelName st) then (st, false)
  else
    (set_pullStatus
       (JStr (js "Pulling model: " ++ pullModelName st ++ js "..."))
       (set_isStreaming true st),
     true).

(** [catch] and [finally] of the pull handler (the timer that clears the status
    is started by the caller). *)
Definition pull_failed (st : AppState) : AppState :=
  set_isStreaming false (set_pullStatus (JStr (js "Error pulling model.")) st).

(** One [reader.read()] that returned a chunk: the new state, and whether the
    handler is still running (a throw inside [forEach] ends it through [catch]
    and [finally]). *)
Definition pull_read (st : AppState) (chunk : jsstring) : AppState * bool :=
  match pull_chunk (pullStatus st) chunk with
  | Ok status => (set_pullStatus status st, true)
  | Throw _ => (pull_failed st, false)
  end.

(** [done]: the success status, then [finally]. *)
Definition pull_done (st : AppState) : AppState :=
  set_isStreaming false
    (set_pullStatus (JStr (js "Model pulled successfully!")) st).

(** The timer of [finally]: [setPullStatus('')]. *)
Definition pull_status_timeout (st : AppState) : AppState :=
  set_pullStatus (JStr []) st.

End App.

(** ** The page as a transition system

    The state of the page between two events: the React state, the calls of
    [handleChatSubmit] and [handlePullModel] that are suspended at an [await],
    and the pending status timers. One event runs one handler, or one handler
    from an [await] to its next. *)

Module Page.
Import JsVal Stream App.

Record Sys := {
  app : AppState;
  chats : list ChatTask;
  pulls : nat;
  timers : nat
}.

Definition start : Sys :=
  {| app := initial; chats := []; pulls := 0; timers := 0 |}.

Inductive event :=
| SubmitChat
| ChatResponse (i : nat)
| ChatChunk (i : nat) (chunk : jsstring)
| ChatDone (i : nat)
| ChatFail (i : nat)
| SubmitPull
| PullChunk (chunk : jsstring)
| PullDone
| PullFail
| StatusTimeout
| TypePrompt (p : jsstring)
| TypePullModelName (n : jsstring)
| SelectModel (name : jsstring) (info : value)
| StatsFetched (data : value)
| ClearChat
| LoadChat (history : list ChatMessage).

Definition with_app (a : AppState) (s : Sys) : Sys :=
  {| app := a; chats := chats s; pulls := pulls s; timers := timers s |}.

Fixpoint remove_nth {A} (i : nat) (l : list A) : list A :=
  match l, i with
  | [], _ => []
  | _ :: l', O => l'
  | x :: l', S j => x :: remove_nth j l'
  end.

Fixpoint replace_nth {A} (i : nat) (y : A) (l : list A) : list A :=
  match l, i with
  | [], _ => []
  | _ :: l', O => y :: l'
  | x :: l', S j => x :: replace_nth j y l'
  end.

(** One event; [None] when it cannot happen in this state. The Pull form is
    submitted through its button, which is [disabled={isStreaming}]; the chat
    form and the other controls are taken as always usable, the handlers guard
    themselves. *)
Definition step (s : Sys) (e : event) : option Sys :=
  match e with
  | SubmitChat =>
      match handleChatSubmit (app s) with
      | (a, Some t) =>
          Some {| app := a; chats := chats s ++ [t]; pulls := pulls s;
                  timers := timers s |}
      | (a, None) => Some (with_app a s)
      end
  | ChatResponse i =>
      match nth_error (chats s) i with
      | Some t =>
          if chat_reading t then None
          else let '(a, t') := chat_response (app s) t in
               Some {| app := a; chats := replace_nth i t' (chats s);
                       pulls := pulls s; timers := timers s |}
      | None => None
      end
  | ChatChunk i chunk =>
      match nth_error (chats s) i with
      | Some t =>
          if chat_reading t then
            let '(a, t') := chat_read (app s) t chunk in
            Some {| app := a; chats := replace_nth i t' (chats s);
                    pulls := pulls s; timers := timers s |}
          else None
      | None => None
      end
  | ChatDone i =>
      match nth_error (chats s) i with
      | Some t =>
          if chat_reading t then
            Some {| app := chat_done (app s); chats := remove_nth i (chats s);
                    pulls := pulls s; timers := timers s |}
          else None
      | None => None
      end
  | ChatFail i =>
      match nth_error (chats s) i with
      | Some t =>
          Some {| app := chat_failed (app s); chats := remove_nth i (chats s);
                  pulls := pulls s; timers := timers s |}
      | None => None
      end
  | SubmitPull =>
      if isStreaming (app s) then None
      else
        match handlePullModel (app s) with
        | (a, true) =>
            Some {| app := a; chats := chats s; pulls := S (pulls s);
                    timers := timers s |}
        | (a, false) => Some (with_app a s)
        end
  | PullChunk chunk =>
      match pulls s with
      | O => None
      | S n =>
          match pull_read (app s) chunk with
          | (a, true) => Some (with_app a s)
          | (a, false) =>
              Some {| app := a; chats := chats s; pulls := n;
                      timers := S (timers s) |}
          end
      end
  | PullDone =>
      match pulls s with
      | O => None
      | S n => Some {| app := pull_done (app s); chats := chats s; pulls := n;
                       timers := S (timers s) |}
      end
  | PullFail =>
      match pulls s with
      | O => None
      | S n => Some {| app := pull_failed (app s); chats := chats s; pulls := n;
                       timers := S (timers s) |}
      end
  | StatusTimeout =>
      match timers s with
      | O => None
      | S n => Some {| app := pull_status_timeout (app s); chats := chats s;
                       pulls := pulls s; timers := n |}
      end
  | TypePrompt p => Some (with_app (set_prompt p (app s)) s)
  | TypePullModelName n => Some (with_app (set_pullModelName n (app s)) s)
  | SelectModel name info => Some (with_app (set_selected name info (app s)) s)
  | StatsFetched data => Some (with_app (set_systemStats data (app s)) s)
  | ClearChat => Some (with_app (set_chatHistory [] (app s)) s)
  | LoadChat history => Some (with_app (set_chatHistory history (app s)) s)
  end.

Fixpoint run (s : Sys) (events : list event) : option Sys :=
  match events with
  | [] => Some s
  | e :: rest =>
      match step s e with
      | Some s' => run s' rest
      | None => None
      end
  end.

Definition reachable (s : Sys) : Prop := exists events, run start events = Some s.

(** One call of [handleChatSubmit] with no other event in between: the submit,
    the response, the chunks read, and the end of the stream ([failed] when
    [reader.read()] threw after them). [None] when the call returned at its
    guard. *)
Definition chat_session (st : AppState) (chunks : list jsstring) (failed : bool)
  : option AppState :=
  match handleChatSubmit st with
  | (st1, Some t) =>
      let '(st2, t2) := chat_response st1 t in
      let '(st3, _) :=
        fold_left (fun '(a, t) chunk => chat_read a t chunk) chunks (st2, t2) in
      Some (if failed then chat_failed st3 else chat_done st3)
  | (_, None) => None
  end.

(** One call of [handlePullModel] with no other event in between, up to its
    [finally]. [None] when the call returned at its guard. *)
Fixpoint pull_reads (st : AppState) (chunks : list jsstring) (failed : bool) : AppState :=
  match chunks with
  | [] => if failed then pull_failed st else pull_done st
  | chunk :: rest =>
      match pull_read st chunk with
      | (st', true) => pull_reads st' rest failed
      | (st', false) => st'
      end
  end.

Definition pull_session (st : AppState) (chunks : list jsstring) (failed : bool)
  : option AppState :=
  match handlePullModel st with
  | (st1, true) => Some (pull_reads st1 chunks failed)
  | (_, false) => None
  end.

End Page.

(** ** stats_server.py *)

Module Stats.
Import F64.

(** *** The fragment of Python's [re] that the patterns use

    Literal characters, [\d], [.], a greedy [+] and a lazy [*?] on one
    character class, and capture groups that are not nested. Matching
    backtracks in the order [re] tries alternatives: a greedy repeat takes the
    longest run first, a lazy one the shortest. *)

Inductive atom :=
| Chr (c : ascii)
| Digit
| AnyChar.

Inductive item :=
| One (a : atom)
| Plus (a : atom)
| LazyStar (a : atom)
| GroupOpen
| GroupClose.

Definition regex := list item.

Definition is_digit (c : ascii) : bool :=
  (48 <=? nat_of_ascii c)%nat && (nat_of_ascii c <=? 57)%nat.

(** [.] matches every character but the line feed. *)
Definition atom_matches (a : atom) (c : ascii) : bool :=
  match a with
  | Chr d => Ascii.eqb c d
  | Digit => is_digit c
  | AnyChar => negb (Ascii.eqb c "010"%char)
  end.

Fixpoint lit (s : string) : regex :=
  match s with
  | EmptyString => []
  | String c s' => One (Chr c) :: lit s'
  end.

(** The text of the open group, most recent character first. *)
Definition push (c : ascii) (cur : option (list ascii)) : option (list ascii) :=
  match cur with
  | Some l => Some (c :: l)
  | None => None
  end.

Definition group_text (cur : option (list ascii)) : string :=
  match cur with
  | Some l => string_of_list_ascii (rev l)
  | None => EmptyString
  end.

(** A match of [r] at the head of the text: the groups, in order, and the text
    after the match. *)
Fixpoint match_here (r : regex)
  : string -> option (list ascii) -> list string -> option (list string * string) :=
  match r with
  | [] => fun s _ caps => Some (rev caps, s)
  | One a :: r' =>
      fun s cur caps =>
        match s with
        | String c s' =>
            if atom_matches a c then match_here r' s' (push c cur) caps else None
        | EmptyString => None
        end
  | Plus a :: r' =>
      let k := match_here r' in
      fix more (s : string) (cur : option (list ascii)) (caps : list string) :=
        match s with
        | String c s' =>
            if atom_matches a c then
              match more s' (push c cur) caps with
              | Some res => Some res
              | None => k s' (push c cur) caps
              end
            else None
        | EmptyString => None
        end
  | LazyStar a :: r' =>
      let k := match_here r' in
      fix more (s : string) (cur : option (list ascii)) (caps : list string) :=
        match k s cur caps with
        | Some res => Some res
        | None =>
            match s with
            | String c s' =>
                if atom_matches a c then more s' (push c cur) caps else None
            | EmptyString => None
            end
        end
  | GroupOpen :: r' => fun s _ caps => match_here r' s (Some []) caps
  | GroupClose :: r' => fun s cur caps => match_here r' s None (group_text cur :: caps)
  end.

(** [re.search(r, s)]: the groups of the leftmost match. *)
Fixpoint search (r : regex) (s : string) : option (list string) :=
  match match_here r s None [] with
  | Some (groups, _) => Some groups
  | None =>
      match s with
      | String _ s' => search r s'
      | EmptyString => None
      end
  end.

(** [re.findall(r, s)] for a pattern that matches no empty text: the groups of
    the matches from left to right, each search starting where the previous
    match ended ([skip] characters are still inside the previous match). *)
Fixpoint findall_from (r : regex) (s : string) (skip : nat) : list (list string) :=
  match s with
  | EmptyString => []
  | String _ s' =>
      match skip with
      | S n => findall_from r s' n
      | O =>
          match match_here r s None [] with
          | Some (groups, rest) =>
              groups :: findall_from r s' (String.length s' - String.length rest)
          | None => findall_from r s' 0
          end
      end
  end.

Definition findall (r : regex) (s : string) : list (list string) :=
  findall_from r s 0.

(** [r"RAM (\d+)/(\d+)MB"] *)
Definition RAM_re : regex :=
  (lit "RAM " ++ [GroupOpen; Plus Digit; GroupClose; One (Chr "/");
                 GroupOpen; Plus Digit; GroupClose] ++ lit "MB")%list.

(** [r"CPU \[(.*?)\]"] *)
Definition CPU_re : regex :=
  (lit "CPU [" ++ [GroupOpen; LazyStar AnyChar; GroupClose; One (Chr "]")])%list.

(** [r"(\d+)%@\d+"] *)
Definition core_re : regex :=
  ([GroupOpen; Plus Digit; GroupClose] ++ lit "%@" ++ [Plus Digit])%list.

(** [r"GR3D_FREQ (\d+)%@\d+"] *)
Definition GPU_re : regex :=
  (lit "GR3D_FREQ " ++ [GroupOpen; Plus Digit; GroupClose] ++ lit "%@" ++ [Plus Digit])%list.

(** [r"SOC_TEMP (\d+\.\d+)C"] *)
Definition TEMP_re : regex :=
  (lit "SOC_TEMP " ++ [GroupOpen; Plus Digit; One (Chr "."); Plus Digit; GroupClose;
                      One (Chr "C")])%list.

(** *** Python values and arithmetic *)

Inductive pyexn :=
| OverflowError
| ZeroDivisionError
| ValueError (digits : nat).

Inductive pyresult (A : Type) :=
| Return (a : A)
| Raise (e : pyexn).
Arguments Return {A} a.
Arguments Raise {A} e.

Definition pybind {A B} (r : pyresult A) (k : A -> pyresult B) : pyresult B :=
  match r with
  | Return a => k a
  | Raise e => Raise e
  end.

Notation "x <- c ;; k" := (pybind c (fun x => k))
  (at level 61, c at next level, right associativity).

Inductive pyval :=
| PyInt (z : Z)
| PyFloat (x : number).

(** The integer that a run of decimal digits denotes. *)
Fixpoint int_digits (s : string) (acc : Z) : Z :=
  match s with
  | EmptyString => acc
  | String c s' => int_digits s' (10 * acc + (Z.of_nat (nat_of_ascii c) - 48))
  end.

Definition int_value (s : string) : Z := int_digits s 0.

(** [sys.get_int_max_str_digits()], as CPython 3.11 and later and the
    security releases of 3.7 to 3.10 set it. *)
Definition int_max_str_digits : nat := 4300.

(** The text has no more digits than [int] converts. *)
Definition int_accepts (s : string) : bool :=
  (String.length s <=? int_max_str_digits)%nat.

(** [int(s)] for [s] a run of decimal digits: a ValueError when the digits,
    leading zeros counted, are more than [int_max_str_digits]. (An interpreter
    from before that limit converts a run of any length; what is proved below
    of runs within the limit holds of it as well.) *)
Definition int (s : string) : pyresult Z :=
  if int_accepts s then Return (int_value s)
  else Raise (ValueError (String.length s)).

(** [sum(int(p) for p in l)], the sum so far in [acc]. *)
Fixpoint sum_int (l : list string) (acc : Z) : pyresult Z :=
  match l with
  | [] => Return acc
  | p :: rest => v <- int p ;; sum_int rest (acc + v)
  end.

(** [float(s)] for [s] of the form digits, point, digits. *)
Fixpoint float_digits (s : string) (acc : Z) (frac : Z) (seen_point : bool) : Z * Z :=
  match s with
  | EmptyString => (acc, frac)
  | String c s' =>
      if is_digit c then
        float_digits s' (10 * acc + (Z.of_nat (nat_of_ascii c) - 48))
                     (if seen_point then frac + 1 else frac) seen_point
      else float_digits s' acc frac true
  end.

Definition float (s : string) : number :=
  let '(m, nf) := float_digits s 0 0 false in of_decimal false m (- nf).

(** The least magnitude that rounds to an infinity: [2^1024 - 2^970]. *)
Definition overflow_threshold : Z := 2 ^ 1024 - 2 ^ 970.

(** The double nearest to [a / b] for [b] other than 0 (an infinity past the
    range). *)
Definition quotient (a b : Z) : number :=
  let neg := xorb (a <? 0) (b <? 0) in
  match Z.abs a, Z.abs b with
  | Zpos p, Zpos q => div (S754_finite neg p 0) (S754_finite false q 0)
  | _, _ => S754_zero neg
  end.

(** [a / b] rounds to a finite double. *)
Definition fits (a b : Z) : bool := Z.abs a <? overflow_threshold * Z.abs b.

(** [a / b] on two [int]: the quotient rounded once to the nearest double;
    OverflowError when that is out of range. *)
Definition truediv (a b : Z) : pyresult number :=
  if b =? 0 then Raise ZeroDivisionError
  else if fits a b then Return (quotient a b)
  else Raise OverflowError.

(** Nearest integer to [p / q] for [0 <= p], [0 < q], a tie going to the even
    one. *)
Definition round_half_even (p q : Z) : Z :=
  let f := p / q in
  let r := p mod q in
  if 2 * r <? q then f
  else if q <? 2 * r then f + 1
  else if Z.even f then f else f + 1.

(** [round(x, 2)]: the exact value of [x] rounded to two decimals, a tie going
    to the even hundredth, then the double nearest to that decimal. *)
Definition round2 (x : number) : number :=
  match x with
  | S754_finite s m e =>
      let h := if 0 <=? e then Zpos m * 2 ^ e * 100
               else round_half_even (Zpos m * 100) (2 ^ (- e)) in
      of_decimal s h (-2)
  | _ => x
  end.

(** A [dict] with string keys, in insertion order. *)
Definition dict := list (string * pyval).

Fixpoint dict_set (k : string) (v : pyval) (d : dict) : dict :=
  match d with
  | [] => [(k, v)]
  | (k', v') :: d' =>
      if String.eqb k' k then (k', v) :: d' else (k', v') :: dict_set k v d'
  end.

Fixpoint dict_get (k : string) (d : dict) : option pyval :=
  match d with
  | [] => None
  | (k', v') :: d' => if String.eqb k' k then Some v' else dict_get k d'
  end.

(** [m.group(i)] for [1 <= i]. *)
Definition group (m : list string) (i : nat) : string :=
  nth (i - 1) m EmptyString.

Definition sum (l : list Z) : Z := fold_left Z.add l 0.

(** *** parse_tegrastats *)

Definition parse_tegrastats (line : string) : pyresult dict :=
  let stats : dict := [] in
  stats <-
    match search RAM_re line with
    | Some ram_match =>
        used_mb <- int (group ram_match 1) ;;
        let stats := dict_set "ram_used_mb" (PyInt used_mb) stats in
        total_mb <- int (group ram_match 2) ;;
        let stats := dict_set "ram_total_mb" (PyInt total_mb) stats in
        used <- int (group ram_match 1) ;;
        used_gb <- truediv used 1024 ;;
        let stats := dict_set "ram_used_gb" (PyFloat (round2 used_gb)) stats in
        total <- int (group ram_match 2) ;;
        total_gb <- truediv total 1024 ;;
        Return (dict_set "ram_total_gb" (PyFloat (round2 total_gb)) stats)
    | None => Return stats
    end ;;
  stats <-
    match search CPU_re line with
    | Some cpu_match =>
        let cpu_cores :=
          map (fun m => group m 1) (findall core_re (group cpu_match 1)) in
        match cpu_cores with
        | [] => Return stats
        | _ :: _ =>
            total_percent <- sum_int cpu_cores 0 ;;
            average <- truediv total_percent (Z.of_nat (List.length cpu_cores)) ;;
            Return (dict_set "cpu_usage_percent" (PyFloat (round2 average)) stats)
        end
    | None => Return stats
    end ;;
  stats <-
    match search GPU_re line with
    | Some gpu_match =>
        percent <- int (group gpu_match 1) ;;
        Return (dict_set "gpu_usage_percent" (PyInt percent) stats)
    | None => Return stats
    end ;;
  let stats :=
    match search TEMP_re line with
    | Some temp_match =>
        dict_set "soc_temp_c" (PyFloat (float (group temp_match 1))) stats
    | None => stats
    end in
  Return stats.

(** The integers that the line prints as used and total RAM. *)
Definition ram_values (line : string) : option (Z * Z) :=
  match search RAM_re line with
  | Some ram_match =>
      Some (int_value (group ram_match 1), int_value (group ram_match 2))
  | None => None
  end.

(** The per-core percentages that the line prints. *)
Definition cpu_values (line : string) : list Z :=
  match search CPU_re line with
  | Some cpu_match =>
      map int_value (map (fun m => group m 1) (findall core_re (group cpu_match 1)))
  | None => []
  end.

(** The texts that [parse_tegrastats] gives to [int]. *)
Definition numerals (line : string) : list string :=
  (match search RAM_re line with
   | Some ram_match => [group ram_match 1; group ram_match 2]
   | None => []
   end
   ++ match search CPU_re line with
      | Some cpu_match => map (fun m => group m 1) (findall core_re (group cpu_match 1))
      | None => []
      end
   ++ match search GPU_re line with
      | Some gpu_match => [group gpu_match 1]
      | None => []
      end)%list.

Definition ram_fits (line : string) : bool :=
  match ram_values line with
  | Some (used, total) => fits used 1024 && fits total 1024
  | None => true
  end.

Definition cpu_fits (line : string) : bool :=
  match cpu_values line with
  | [] => true
  | values => fits (sum values) (Z.of_nat (List.length values))
  end.

(** No conversion of [parse_tegrastats] raises on the line: no text given to
    [int] has more digits than [int] converts, and every quotient is in the
    range of a float. *)
Definition converts (line : string) : bool :=
  forallb int_accepts (numerals line) && ram_fits line && cpu_fits line.

(** *** get_system_stats *)

(** Python's white space among the code points below 256 (what [str.strip]
    removes). *)
Definition is_space (c : ascii) : bool :=
  let n := nat_of_ascii c in
  ((9 <=? n) && (n <=? 13) || (28 <=? n) && (n <=? 32)
   || (n =? 133) || (n =? 160))%nat.

Fixpoint lstrip (s : string) : string :=
  match s with
  | EmptyString => EmptyString
  | String c s' => if is_space c then lstrip s' else s
  end.

Definition strip (s : string) : string :=
  string_of_list_ascii
    (rev (list_ascii_of_string
            (lstrip (string_of_list_ascii (rev (list_ascii_of_string (lstrip s))))))).

(** What [subprocess.run([... 'tegrastats' ...], capture_output=True, text=True,
    check=True)] does: the tool is missing, it exits with a non-zero status,
    something else is raised, or it completes with its standard output. *)
Inductive tegrastats_run :=
| FileNotFound
| CalledProcessError (message : string)
| OtherException (message : string)
| Completed (stdout : string).

(** The body that [jsonify] serialises. *)
Inductive body :=
| Sample (stats : dict)
| ParseFailure (raw : string)
| ToolNotFound
| RunFailed (details : string)
| Unexpected (details : string).

(** The value of the [error] member of an error body. *)
Definition error_text (b : body) : option string :=
  match b with
  | Sample _ => None
  | ParseFailure _ => Some "Failed to parse tegrastats output"%string
  | ToolNotFound =>
      Some "'tegrastats' command not found. Are you running this on a Jetson device?"%string
  | RunFailed _ => Some "Error running tegrastats"%string
  | Unexpected _ => Some "An unexpected error occurred"%string
  end.

Record response := { body_of : body; status_code : Z }.

(** [str(e)]; the text of the ValueError is that of CPython 3.12. *)
Definition str_of_exn (e : pyexn) : string :=
  match e with
  | OverflowError => "integer division result too large for a float"
  | ZeroDivisionError => "division by zero"
  | ValueError digits =>
      "Exceeds the limit ("
      ++ NilZero.string_of_uint (Nat.to_uint int_max_str_digits)
      ++ " digits) for integer string conversion: value has "
      ++ NilZero.string_of_uint (Nat.to_uint digits)
      ++ " digits; use sys.set_int_max_str_digits() to increase the limit"
  end.

Definition get_system_stats (run : tegrastats_run) : response :=
  match run with
  | Completed stdout =>
      let output_line := strip stdout in
      match parse_tegrastats output_line with
      | Return parsed_stats =>
          match parsed_stats with
          | [] => {| body_of := ParseFailure output_line; status_code := 500 |}
          | _ :: _ => {| body_of := Sample parsed_stats; status_code := 200 |}
          end
      | Raise e => {| body_of := Unexpected (str_of_exn e); status_code := 500 |}
      end
  | FileNotFound => {| body_of := ToolNotFound; status_code := 500 |}
  | CalledProcessError message => {| body_of := RunFailed message; status_code := 500 |}
  | OtherException message => {| body_of := Unexpected message; status_code := 500 |}
  end.

End Stats.

(** ** Chunk boundaries *)

Module Chunks.
Import JsVal Stream.

(** The boundary between two consecutive pieces of text is a line boundary: a
    newline stands right before it or right after it, or one side is empty. *)
Definition boundary_ok (a b : jsstring) : bool :=
  is_empty a || is_empty b || N.eqb (last a 0%N) LF || N.eqb (hd 0%N b) LF.

(** Every buffer boundary of the stream is a line boundary of the whole text. *)
Fixpoint line_aligned (chunks : list jsstring) : bool :=
  match chunks with
  | [] => true
  | c :: rest => boundary_ok c (List.concat rest) && line_aligned rest
  end.

(** The records of a chat stream: the handler decodes chunk after chunk. *)
Definition chat_stream_records (chunks : list jsstring) : list json :=
  flat_map chat_records chunks.

(** The records of a pull stream, up to the first line that fails to parse. *)
Definition pull_stream_records (chunks : list jsstring) : list json * bool :=
  pull_decode (flat_map pull_lines chunks).

(** [assistantContent] after the chunks of a chat stream. *)
Definition chat_stream_content (chunks : list jsstring) : jsstring :=
  fold_left (fun content chunk => fst (chat_chunk content chunk)) chunks [].

(** [pullStatus] after the chunks of a pull stream, or what was thrown. *)
Fixpoint pull_stream_status (chunks : list jsstring) (pullStatus : json) : result json :=
  match chunks with
  | [] => Ok pullStatus
  | chunk :: rest => bind (pull_chunk pullStatus chunk) (pull_stream_status rest)
  end.

End Chunks.


(** ** [JSON.stringify] *)

Module Stringify.
Import F64 JsNum JsVal.

Definition hex_digit (v : N) : N := if N.ltb v 10 then (48 + v)%N else (87 + v)%N.

(** UnicodeEscape: a backslash, [u] and four lowercase hexadecimal digits. *)
Definition unicode_escape (c : N) : jsstring :=
  [92; 117; hex_digit ((c / 4096) mod 16); hex_digit ((c / 256) mod 16);
   hex_digit ((c / 16) mod 16); hex_digit (c mod 16)]%N.

Definition is_leading_surrogate (c : N) : bool := (N.leb 55296 c && N.leb c 56319)%bool.
Definition is_trailing_surrogate (c : N) : bool := (N.leb 56320 c && N.leb c 57343)%bool.

(** A code point that is no surrogate: the two-character escapes of the table,
    UnicodeEscape below the space, itself otherwise. *)
Definition quote_unit (c : N) : jsstring :=
  if N.eqb c 8 then [92; 98]%N
  else if N.eqb c 9 then [92; 116]%N
  else if N.eqb c 10 then [92; 110]%N
  else if N.eqb c 12 then [92; 102]%N
  else if N.eqb c 13 then [92; 114]%N
  else if N.eqb c 34 then [92; 34]%N
  else if N.eqb c 92 then [92; 92]%N
  else if N.ltb c 32 then unicode_escape c
  else [c].

(** The code points of the string in turn: a surrogate pair is kept as it is,
    a surrogate that stands alone is escaped. *)
Fixpoint quote_units (s : jsstring) : jsstring :=
  match s with
  | [] => []
  | c :: s' =>
      if is_leading_surrogate c then
        match s' with
        | d :: s'' =>
            if is_trailing_surrogate d then c :: d :: quote_units s''
            else unicode_escape c ++ quote_units s'
        | [] => unicode_escape c
        end
      else if is_trailing_surrogate c then unicode_escape c ++ quote_units s'
      else quote_unit c ++ quote_units s'
  end.

(** QuoteJSONString *)
Definition quote (s : jsstring) : jsstring := [34%N] ++ quote_units s ++ [34%N].

Definition is_finite (x : number) : bool :=
  match x with
  | S754_zero _ => true
  | S754_finite _ _ _ => true
  | _ => false
  end.

(** [JSON.stringify(v)] with no replacer and no indentation, for [v] built from
    [null], booleans, numbers, strings, arrays and objects whose members are
    serialised in the order of the list (the order in which an object literal
    with names that are no array indices creates them). *)
Fixpoint JSON_stringify (v : json) : jsstring :=
  match v with
  | JNull => js "null"
  | JBool b => if b then js "true" else js "false"
  | JNum x => if is_finite x then Number_toString x else js "null"
  | JStr s => quote s
  | JArr items => js "[" ++ join (js ",") (map JSON_stringify items) ++ js "]"
  | JObj members =>
      js "{"
      ++ join (js ",")
           (map (fun m => let '(k, w) := m in quote k ++ js ":" ++ JSON_stringify w)
                members)
      ++ js "}"
  end.

End Stringify.

(** ** frontend/src/App.js: the base URLs *)

Module Config.
Import F64 JsNum Stream.

(** [buildApiUrl(envVar, defaultPort)]: [env] is [process.env[envVar]], [None]
    when the variable is not set; [protocol] and [hostname] are those of
    [window.location]. *)
Definition buildApiUrl (env : option jsstring) (protocol hostname : jsstring)
  (defaultPort : number) : jsstring :=
  let fallback :=
    protocol ++ js "//" ++ hostname ++ js ":" ++ Number_toString defaultPort in
  match env with
  | Some e =>
      if negb (is_empty e) && negb (is_empty (trim e)) then e else fallback
  | None => fallback
  end.

Definition OLLAMA_API_BASE_URL (env : option jsstring) (protocol hostname : jsstring)
  : jsstring :=
  buildApiUrl env protocol hostname (of_Z 11434).

Definition STATS_API_BASE_URL (env : option jsstring) (protocol hostname : jsstring)
  : jsstring :=
  buildApiUrl env protocol hostname (of_Z 5001).

End Config.

(** ** frontend/src/App.js: the gauge *)

Module ResourceGauge.
Import F64 JsNum JsVal.

(** [Math.PI], the double nearest to pi. *)
Definition Math_PI : number := S754_finite false 7074237752028440 (-51).

(** [max > 0 ? (value / max) * 100 : 0]; the properties are whatever the caller
    passes ([systemStats.x || 0] or a literal), coerced by the operators, which
    throw the TypeError of a conversion. *)
Definition percentage (value max : json) : result number :=
  bind (ToNumber (Some max)) (fun m =>
  if gt m (S754_zero false)
  then
    bind (ToNumber (Some value)) (fun v =>
    bind (ToNumber (Some max)) (fun m' => Ok (mul (div v m') (of_Z 100))))
  else Ok (S754_zero false)).

(** [2 * Math.PI * 45] *)
Definition circumference : number := mul (mul (of_Z 2) Math_PI) (of_Z 45).

(** [circumference - (percentage / 100) * circumference] *)
Definition strokeDashoffset (value max : json) : result number :=
  bind (percentage value max) (fun p =>
  Ok (sub circumference (mul (div p (of_Z 100)) circumference))).

(** [`${Math.round(value)}${unit}`] *)
Definition reading (value : json) (unit : jsstring) : result jsstring :=
  bind (ToNumber (Some value)) (fun v => Ok (Number_toString (Math_round v) ++ unit)).

(** [max > 0 && `/ ${max}${unit}`]: [None] when nothing is rendered. *)
Definition caption (max : json) (unit : jsstring) : result (option jsstring) :=
  bind (ToNumber (Some max)) (fun m =>
  if gt m (S754_zero false)
  then bind (ToString max) (fun text => Ok (Some (js "/ " ++ text ++ unit)))
  else Ok None).

End ResourceGauge.

(** ** frontend/src/App.js: the message bubble *)

Module ChatMessageView.
Import Stream App.

(** [message.role === 'user'] *)
Definition isUser (message : ChatMessage) : bool :=
  match role message with
  | user => true
  | assistant => false
  end.

(** [message.content.trim() === '' && message.role === 'assistant']: the bubble
    shows the pulsing placeholder instead of the content. *)
Definition thinking (message : ChatMessage) : bool :=
  is_empty (trim (content message)) && negb (isUser message).

End ChatMessageView.

(** ** frontend/src/App.js: the models, the saved chats and the stats error *)

Module Panel.
Import F64 JsNum JsVal Stream App Stringify.

(** An entry of [savedChats] as [handleSaveCurrentChat] builds it. *)
Record SavedChat := {
  id : jsstring;
  title : jsstring;
  history : list ChatMessage;
  model : jsstring;
  created : number
}.

(** The state of [App]: the cells of [AppState], and [statsError] ([None] is
    [null]), [models] and [savedChats]. *)
Record PanelState := {
  state : AppState;
  statsError : option jsstring;
  models : value;
  savedChats : list SavedChat
}.

Definition set_state (a : AppState) (p : PanelState) : PanelState :=
  {| state := a; statsError := statsError p; models := models p;
     savedChats := savedChats p |}.

Definition set_statsError (e : option jsstring) (p : PanelState) : PanelState :=
  {| state := state p; statsError := e; models := models p;
     savedChats := savedChats p |}.

Definition set_models (m : value) (p : PanelState) : PanelState :=
  {| state := state p; statsError := statsError p; models := m;
     savedChats := savedChats p |}.

Definition set_savedChats (l : list SavedChat) (p : PanelState) : PanelState :=
  {| state := state p; statsError := statsError p; models := models p;
     savedChats := l |}.

Definition initial_panel : PanelState :=
  {| state := initial; statsError := None; models := Some (JArr []);
     savedChats := [] |}.

(** What [await fetch(...)] gives: a rejection, or a response with its status
    and the text of its body. *)
Inductive fetched :=
| Rejected
| Responded (status : Z) (text : jsstring).

(** [response.ok] *)
Definition response_ok (status : Z) : bool := (200 <=? status) && (status <=? 299).

(** *** fetchStats *)

Definition stats_error_text : jsstring :=
  js "Could not connect to stats helper. Is it running?".

(** One call; [statsError_seen] is the [statsError] of the render that created
    the callback. *)
Definition fetchStats (statsError_seen : option jsstring) (r : fetched)
  (p : PanelState) : PanelState :=
  let failed := set_statsError (Some stats_error_text) p in
  match r with
  | Rejected => failed
  | Responded status text =>
      if response_ok status then
        match JSON_parse text with
        | Some data =>
            let p1 := set_state (set_systemStats (Some data) (state p)) p in
            match statsError_seen with
            | Some (_ :: _) => set_statsError None p1
            | _ => p1
            end
        | None => failed
        end
      else failed
  end.

(** *** fetchModels *)

(** [v.length] for [v] other than [null] and [undefined]. *)
Definition length_of (v : json) : value :=
  match v with
  | JArr items => Some (JNum (of_Z (Z.of_nat (List.length items))))
  | JStr s => Some (JNum (of_Z (Z.of_nat (List.length s))))
  | JObj members => lookup (js "length") members
  | _ => None
  end.

(** [v[0]] for [v] other than [null] and [undefined]. *)
Definition item0_of (v : json) : value :=
  match v with
  | JArr (first :: _) => Some first
  | JStr (c :: _) => Some (JStr [c])
  | JObj members => lookup (js "0") members
  | _ => None
  end.

(** The selection of the first model: [data.models[0].name] and
    [data.models[0]]. A TypeError when [data.models[0]] is [null] or
    [undefined]. *)
Definition first_model (listed : json) : result (value * json) :=
  match item0_of listed with
  | Some JNull => Throw TypeError
  | None => Throw TypeError
  | Some first => Ok (get first (js "name"), first)
  end.

(** One call; [selectedModel_seen] is the [selectedModel] of the render that
    created the callback. Whatever is thrown is caught and logged; the updates
    made before it stay. [None]: the name that would be selected is no string,
    a value that [selectedModel] of [AppState] does not hold. *)
Definition fetchModels (selectedModel_seen : jsstring) (r : fetched)
  (p : PanelState) : option PanelState :=
  match r with
  | Rejected => Some p
  | Responded _ text =>
      match JSON_parse text with
      | None => Some p
      | Some JNull => Some p
      | Some data =>
          let listed := get data (js "models") in
          let p1 := set_models listed p in
          if negb (is_empty selectedModel_seen) then Some p1
          else
            match listed with
            | None => Some p1
            | Some JNull => Some p1
            | Some l =>
                match ToNumber (length_of l) with
                | Throw _ => Some p1
                | Ok n =>
                    if gt n (S754_zero false) then
                      match first_model l with
                      | Throw _ => Some p1
                      | Ok (Some (JStr name), first) =>
                          Some (set_state (set_selected name (Some first) (state p1)) p1)
                      | Ok (_, _) => None
                      end
                    else Some p1
                end
            end
      end
  end.

(** *** The model list *)

(** [items.find(m => m.name === name)]: reading [name] of a [null] element
    throws. *)
Fixpoint find_named (name : jsstring) (items : list json) : result value :=
  match items with
  | [] => Ok None
  | m :: rest =>
      match m with
      | JNull => Throw TypeError
      | _ =>
          match get m (js "name") with
          | Some (JStr s) => if JsStr.eqb s name then Ok (Some m) else find_named name rest
          | _ => find_named name rest
          end
      end
  end.

(** [models.find(...)]: a TypeError when [models] is no array. *)
Definition models_find (name : jsstring) (models : value) : result value :=
  match models with
  | Some (JArr items) => find_named name items
  | _ => Throw TypeError
  end.

(** The [onChange] of the model [select]. *)
Definition select_changed (name : jsstring) (p : PanelState) : PanelState :=
  match models_find name (models p) with
  | Ok m => set_state (set_selected name m (state p)) p
  | Throw _ => p
  end.

(** *** handleDeleteModel *)

(** The handler after [window.confirm] and the DELETE request; the status of
    the response is not looked at. [selectedModel_seen] is the [selectedModel]
    of the render that created the handler. The refresh that follows is a call
    of [fetchModels] with the same [selectedModel_seen]. *)
Definition handleDeleteModel (confirmed : bool) (selectedModel_seen : jsstring)
  (r : fetched) (name : jsstring) (p : PanelState) : PanelState :=
  if confirmed then
    match r with
    | Rejected => p
    | Responded _ _ =>
        if JsStr.eqb selectedModel_seen name
        then set_state (set_selected [] (Some JNull) (state p)) p
        else p
    end
  else p.

(** [handleDeleteModel] with the refreshes it sets off. Its last statement
    calls [fetchModels], the callback of the render that created the handler,
    which saw [selectedModel_seen]. When the handler changed the selection
    (it cleared one that was not empty), the next render creates
    [fetchModels] anew, so the effect that depends on it runs again and calls
    the new callback, which sees no model selected. [r_own] and [r_effect]
    are the answers to the two requests in the order of the calls;
    [own_first] tells which of them arrives first. (A selection made by the
    second refresh sets off a third, which sees that selection and stores the
    list only.) *)
Definition delete_and_refresh (confirmed : bool) (selectedModel_seen : jsstring)
  (r : fetched) (name : jsstring) (r_own r_effect : fetched) (own_first : bool)
  (p : PanelState) : option PanelState :=
  let p1 := handleDeleteModel confirmed selectedModel_seen r name p in
  if confirmed then
    match r with
    | Rejected => Some p1
    | Responded _ _ =>
        if JsStr.eqb selectedModel_seen name
           && negb (is_empty (selectedModel (state p))) then
          if own_first then
            match fetchModels selectedModel_seen r_own p1 with
            | Some p2 => fetchModels [] r_effect p2
            | None => None
            end
          else
            match fetchModels [] r_effect p1 with
            | Some p2 => fetchModels selectedModel_seen r_own p2
            | None => None
            end
        else fetchModels selectedModel_seen r_own p1
    end
  else Some p1.

(** *** handleClearChat *)

Definition handleClearChat (p : PanelState) : PanelState :=
  set_state (set_chatHistory [] (state p)) p.

(** *** The saved chats *)

(** [title_reply] is what [window.prompt] returns ([None] is [null], the dialog
    was cancelled); [now_id] and [now_created] are the two readings of
    [Date.now()]. *)
Definition handleSaveCurrentChat (title_reply : option jsstring)
  (now_id now_created : number) (p : PanelState) : PanelState :=
  match chatHistory (state p) with
  | [] => p
  | _ :: _ =>
      match title_reply with
      | None => p
      | Some [] => p
      | Some title =>
          let entry :=
            {| id := Number_toString now_id;
               title := trim title;
               history := chatHistory (state p);
               model := selectedModel (state p);
               created := now_created |} in
          set_savedChats (entry :: savedChats p) p
      end
  end.

(** [savedChats.find(c => c.id === id)] *)
Definition find_saved (i : jsstring) (l : list SavedChat) : option SavedChat :=
  find (fun c => JsStr.eqb (id c) i) l.

(** A TypeError of [models.find] ends the handler after [setChatHistory]. *)
Definition handleLoadChat (i : jsstring) (p : PanelState) : PanelState :=
  match find_saved i (savedChats p) with
  | None => p
  | Some entry =>
      let p1 := set_state (set_chatHistory (history entry) (state p)) p in
      match model entry with
      | [] => p1
      | _ :: _ =>
          match models_find (model entry) (models p) with
          | Ok mInfo =>
              let info := if truthy mInfo then mInfo else Some JNull in
              set_state (set_selected (model entry) info (state p1)) p1
          | Throw _ => p1
          end
      end
  end.

(** [confirmed] is what [window.confirm] returns. *)
Definition handleDeleteSavedChat (confirmed : bool) (i : jsstring) (p : PanelState)
  : PanelState :=
  if confirmed
  then set_savedChats (filter (fun c => negb (JsStr.eqb (id c) i)) (savedChats p)) p
  else p.

(** *** The controls *)

(** [disabled] of the prompt input and of the send button; [memOk] is computed
    before they are rendered. *)
Definition input_disabled (st : AppState) : result bool :=
  bind (memOk st) (fun ok =>
  Ok (is_empty (selectedModel st) || isStreaming st || negb ok)).

Definition send_disabled (st : AppState) : result bool :=
  bind (memOk st) (fun ok =>
  Ok (is_empty (prompt st) || isStreaming st || is_empty (selectedModel st)
      || negb ok)).

(** *** What is sent and what is stored *)

Definition role_text (r : Role) : jsstring :=
  match r with
  | user => js "user"
  | assistant => js "assistant"
  end.

Definition message_json (m : ChatMessage) : json :=
  JObj [(js "role", JStr (role_text (role m))); (js "content", JStr (content m))].

Definition saved_json (c : SavedChat) : json :=
  JObj [(js "id", JStr (id c)); (js "title", JStr (title c));
        (js "history", JArr (map message_json (history c)));
        (js "model", JStr (model c)); (js "created", JNum (created c))].

(** The body of the pull request: [{ name: pullModelName, stream: true }]. *)
Definition pull_request (name : jsstring) : json :=
  JObj [(js "name", JStr name); (js "stream", JBool true)].

(** The body of the chat request. *)
Definition chat_request (t : ChatTask) : json :=
  JObj [(js "model", JStr (request_model t));
        (js "messages", JArr (map message_json (request_messages t)));
        (js "stream", JBool true)].

(** The body of the delete request: [{ model: name }]. *)
Definition delete_request (name : jsstring) : json :=
  JObj [(js "model", JStr name)].

(** The effect that persists: the text stored under [savedChats_v1]. *)
Definition persisted (chats : list SavedChat) : jsstring :=
  JSON_stringify (JArr (map saved_json chats)).

(** The effect that loads on mount: the value given to [setSavedChats], if it is
    called; [saved] is what [localStorage.getItem] returns. *)
Definition restored (saved : option jsstring) : option json :=
  match saved with
  | Some (c :: text) => JSON_parse (c :: text)
  | _ => None
  end.

End Panel.

(** ** Sample inputs *)

Module Samples.
Import F64 JsVal Stream App.

(** One line of a chat stream, and the same line cut in the middle of a field
    name. *)
Definition chat_line_text : jsstring := jsq "{'message':{'content':'Hi'}}" ++ [LF].
Definition chat_line_head : jsstring := jsq "{'message':{'con".
Definition chat_line_tail : jsstring := jsq "tent':'Hi'}}" ++ [LF].

Definition chat_line_record : json :=
  JObj [(js "message", JObj [(js "content", JStr (js "Hi"))])].

(** A pull stream in one chunk: a record, a line that is no JSON, a record. *)
Definition pull_malformed_chunk : jsstring :=
  jsq "{'status':'pulling manifest'}" ++ [LF] ++ js "not json" ++ [LF]
  ++ jsq "{'status':'success'}" ++ [LF].

(** A chat stream in one chunk with the same shape. *)
Definition chat_malformed_chunk : jsstring :=
  jsq "{'message':{'content':'a'}}" ++ [LF] ++ js "{not json" ++ [LF]
  ++ jsq "{'message':{'content':'b'}}" ++ [LF].

(** A state in which a pull of the default model can start. *)
Definition pull_ready : AppState := initial.

(** Pull records: progress, no progress yet, status only. *)
Definition pull_one_third : jsstring :=
  jsq "{'status':'pulling 8934d96d3f08','total':3,'completed':1}".
Definition pull_two_thirds : jsstring :=
  jsq "{'status':'pulling 8934d96d3f08','total':3,'completed':2}".
Definition pull_nothing_yet : jsstring :=
  jsq "{'status':'pulling 8934d96d3f08','total':100,'completed':0}".
Definition pull_status_only : jsstring := jsq "{'status':'verifying sha256 digest'}".
Definition pull_empty_status : jsstring :=
  jsq "{'status':'','total':100,'completed':0}".

(** A state in which a chat can be submitted: a prompt is typed and a model is
    selected. *)
Definition gemma : json :=
  JObj [(js "name", JStr (js "gemma:2b")); (js "size", JNum (of_Z 1678456656))].

Definition chat_ready : AppState :=
  set_selected (js "gemma:2b") (Some gemma) (set_prompt (js "hi") initial).

(** The first chunk of an answer. *)
Definition chat_partial_chunk : jsstring := jsq "{'message':{'content':'Hel'}}" ++ [LF].

(** A telemetry sample with 8 GB of RAM of which 2 GB are used, and models of
    4.0e9 and of 3.9e9 bytes. *)
Definition stats_8_2 : value :=
  JSON_parse (jsq "{'cpu_usage_percent':9.33,'ram_total_gb':8,'ram_used_gb':2}").
Definition model_4e9 : value :=
  JSON_parse (jsq "{'name':'llama3:8b','size':4000000000}").
Definition model_3_9e9 : value :=
  JSON_parse (jsq "{'name':'mistral:7b','size':3900000000}").

End Samples.

Module StatsSamples.
Import F64 Stats.

(** A line of tegrastats output. *)
Definition tegrastats_line : string :=
  "RAM 1683/7762MB (lfb 1x4MB) SWAP 0/3881MB (cached 0MB) CPU [11%@1113,8%@1113,9%@1113] EMC_FREQ 0% GR3D_FREQ 15%@114 SOC_TEMP 35.5C PMIC_TEMP 50C".

(** Lines on which only some patterns match. *)
Definition cores_off_line : string := "RAM 1683/7762MB CPU [off,off] GR3D_FREQ 0%@114".
Definition unrelated_line : string := "tegrastats: unknown option".

End StatsSamples.

Module PageSamples.
Import JsVal Stream App Page Samples.

(** A prompt is typed, a model is selected and the chat form is submitted: the
    page with one chat stream in flight. *)
Definition busy_events : list event :=
  [TypePrompt (js "hi"); SelectModel (js "gemma:2b") (Some gemma); SubmitChat;
   ChatResponse 0; ChatChunk 0 chat_partial_chunk; TypePrompt (js "again")].

Definition busy_page : Sys :=
  match run start busy_events with
  | Some s => s
  | None => start
  end.

End PageSamples.

(** ** Auxiliary notions of the properties *)

Module Aux.
Import F64 JsNum JsVal Stream App Page Stats.

(** The text a decoded chat record appends, if any. *)
Definition delta_of (r : json) : list jsstring :=
  match chat_delta r with
  | Some text => [text]
  | None => []
  end.

(** The streaming flag counts the handlers in flight: one when it is set, none
    when it is not. *)
Definition one_stream (s : Sys) : Prop :=
  (List.length (chats s) + pulls s)%nat = if isStreaming (app s) then 1%nat else 0%nat.

(** [x || 0] as a number: a zero of either sign, or NaN, becomes [+0]. *)
Definition zero_or (x : number) : number :=
  if is_zero x || is_nan x then S754_zero false else x.

(** Two numbers that compare alike: equal, or zeros of any sign. *)
Definition same_value (x y : number) : Prop :=
  x = y \/ (is_zero x = true /\ is_zero y = true).

(** The sample that [parse_tegrastats] returns when no conversion raises, in
    three parts: the RAM fields, the CPU field on top of them, the GPU and
    temperature fields on top of those. *)
Definition ram_fields (line : string) : dict :=
  match ram_values line with
  | Some (used, total) =>
      [("ram_used_mb"%string, PyInt used);
       ("ram_total_mb"%string, PyInt total);
       ("ram_used_gb"%string, PyFloat (round2 (quotient used 1024)));
       ("ram_total_gb"%string, PyFloat (round2 (quotient total 1024)))]
  | None => []
  end.

(** The value of [cpu_usage_percent] for a list of core percentages that is not
    empty. *)
Definition cpu_average (values : list Z) : number :=
  round2 (quotient (sum values) (Z.of_nat (List.length values))).

Definition cpu_field (line : string) (stats : dict) : dict :=
  match cpu_values line with
  | [] => stats
  | values => dict_set "cpu_usage_percent" (PyFloat (cpu_average values)) stats
  end.

Definition gpu_temp_part (line : string) (stats : dict) : dict :=
  let stats :=
    match search GPU_re line with
    | Some gpu_match =>
        dict_set "gpu_usage_percent" (PyInt (int_value (group gpu_match 1))) stats
    | None => stats
    end in
  match search TEMP_re line with
  | Some temp_match =>
      dict_set "soc_temp_c" (PyFloat (float (group temp_match 1))) stats
  | None => stats
  end.

Definition sample_of (line : string) : dict :=
  gpu_temp_part line (cpu_field line (ram_fields line)).

(** A text that [int] reads as a decimal numeral: one digit at least, digits
    only. *)
Fixpoint all_digits (s : string) : bool :=
  match s with
  | EmptyString => true
  | String c s' => is_digit c && all_digits s'
  end.

Definition digit_run (s : string) : bool :=
  match s with
  | EmptyString => false
  | String _ _ => all_digits s
  end.

(** No numeral that the parser reads on the line has more than 300 digits. *)
Definition short_numerals (line : string) : bool :=
  forallb (fun s => (String.length s <=? 300)%nat) (numerals line).

(** The open group after the characters of [l] were matched inside it. *)
Definition pushes (l : list ascii) (cur : option (list ascii)) : option (list ascii) :=
  fold_left (fun cur c => push c cur) l cur.

(** A field of the sample that [parse_tegrastats] returned, if it returned one
    and the field is in it. *)
Definition field (k : string) (r : pyresult dict) : option pyval :=
  match r with
  | Return stats => dict_get k stats
  | Raise _ => None
  end.

End Aux.

(** ** Shapes of inputs that the further properties speak about *)

Module Shapes.
Import F64 JsNum JsVal Stream App Page Stats Aux.

(** A text of white space only, for [str.strip]. *)
Fixpoint all_space (s : string) : bool :=
  match s with
  | EmptyString => true
  | String c s' => is_space c && all_space s'
  end.

(** The text read backwards. *)
Definition reverse (s : string) : string :=
  string_of_list_ascii (rev (list_ascii_of_string s)).

(** [s.startswith(key)] *)
Fixpoint begins (key s : string) : bool :=
  match key, s with
  | EmptyString, _ => true
  | String k key', String c s' => Ascii.eqb c k && begins key' s'
  | String _ _, EmptyString => false
  end.

(** [key] occurs somewhere in [s]. *)
Fixpoint occurs (key s : string) : bool :=
  begins key s
  || match s with
     | EmptyString => false
     | String _ s' => occurs key s'
     end.

(** In [pre] followed by [key], the first place where [key] stands is the end
    of [pre]. *)
Fixpoint first_at_end (key pre : string) : bool :=
  match pre with
  | EmptyString => true
  | String _ pre' => negb (begins key (pre ++ key)) && first_at_end key pre'
  end.

Definition starts_with_digit (s : string) : bool :=
  match s with
  | String c _ => is_digit c
  | EmptyString => false
  end.

(** The character [c] is nowhere in [s]. *)
Fixpoint lacks (c : ascii) (s : string) : bool :=
  match s with
  | EmptyString => true
  | String d s' => negb (Ascii.eqb d c) && lacks c s'
  end.

(** No decimal digit is in [s]. *)
Fixpoint no_digit (s : string) : bool :=
  match s with
  | EmptyString => true
  | String d s' => negb (is_digit d) && no_digit s'
  end.

(** One entry of the CPU field of tegrastats: a core that runs, with its load
    and its frequency as printed, or a core that is off. *)
Inductive core :=
| Running (percent frequency : string)
| Off.

Definition core_text (c : core) : string :=
  match c with
  | Running percent frequency => percent ++ "%@" ++ frequency
  | Off => "off"
  end.

Definition core_ok (c : core) : bool :=
  match c with
  | Running percent frequency => digit_run percent && digit_run frequency
  | Off => true
  end.

(** The entries separated by commas. *)
Fixpoint cores_text (l : list core) : string :=
  match l with
  | [] => EmptyString
  | c :: rest =>
      match rest with
      | [] => core_text c
      | _ :: _ => core_text c ++ "," ++ cores_text rest
      end
  end.

(** The loads of the cores that run, as texts. *)
Fixpoint running (l : list core) : list string :=
  match l with
  | [] => []
  | Running percent _ :: rest => percent :: running rest
  | Off :: rest => running rest
  end.

(** What may follow a value in JSON text that [JSON.stringify] wrote: nothing, a
    comma, or a closing bracket or brace. *)
Definition ender (rest : jsstring) : bool :=
  match rest with
  | [] => true
  | c :: _ => N.eqb c 44 || N.eqb c 93 || N.eqb c 125
  end.

(** A number that is an integer from 0 to 2^53 - 1, as a time value is. *)
Definition integral (x : number) : Prop :=
  exists n, 0 <= n < 2 ^ 53 /\ x = of_Z n.

(** How the text of a value starts: with no white space, and with no closing
    bracket or brace. *)
Definition opens (c : N) : Prop :=
  is_json_ws c = false /\ c <> 93%N /\ c <> 125%N.

(** The size of a value, for induction. *)
Fixpoint size (v : json) : nat :=
  match v with
  | JArr items => S (fold_right (fun w n => (size w + n)%nat) O items)
  | JObj members =>
      S (fold_right (fun m n => let '(_, w) := m in (size w + n)%nat) O members)
  | _ => 1%nat
  end.

(** A value all of whose numbers are integral: what the saved chats and the
    request bodies are made of. *)
Fixpoint plain (v : json) : Prop :=
  match v with
  | JNum x => integral x
  | JArr items => fold_right (fun w P => plain w /\ P) True items
  | JObj members =>
      fold_right (fun m P => let '(_, w) := m in plain w /\ P) True members
  | _ => True
  end.

End Shapes.
(** * Properties *)

(** Splits a conjunction into its parts, and nothing else. *)
Ltac splits := repeat match goal with |- _ /\ _ => split end.


(** ** What the patterns capture *)

Module RegexFacts.
Import F64 Stats Aux.

Lemma match_here_one (a : atom) (r : regex) (s : string) cur caps res :
  match_here (One a :: r) s cur caps = Some res ->
  exists c s', s = String c s' /\ atom_matches a c = true
               /\ match_here r s' (push c cur) caps = Some res.
Proof.
  destruct s as [|c s']; simpl; [discriminate|].
  destruct (atom_matches a c) eqn:E; [|discriminate].
  intros H. now exists c, s'.
Qed.

Lemma pushes_some (l acc : list ascii) : pushes l (Some acc) = Some (rev l ++ acc)%list.
Proof.
  revert acc. induction l as [|c l IH]; intros acc; [reflexivity|].
  unfold pushes in *. simpl. rewrite IH. now rewrite <- app_assoc.
Qed.

(** A greedy repeat matched a run of one character at least, all of the class,
    and the rest of the pattern matched after it. *)
Lemma match_here_plus (a : atom) (r : regex) (s : string) cur caps res :
  match_here (Plus a :: r) s cur caps = Some res ->
  exists run s',
    run <> [] /\ forallb (atom_matches a) run = true
    /\ s = (string_of_list_ascii run ++ s')%string
    /\ match_here r s' (pushes run cur) caps = Some res.
Proof.
  revert cur. induction s as [|c s IH]; intros cur; simpl; [discriminate|].
  destruct (atom_matches a c) eqn:E; [|discriminate].
  match goal with
  | |- match ?t with _ => _ end = _ -> _ => destruct t as [res'|] eqn:Em
  end.
  - intros [= <-]. destruct (IH _ Em) as (run & s' & Hne & Hall & Hs & Hm).
    exists (c :: run), s'. simpl. rewrite E, Hall, Hs. now splits.
  - intros H. exists [c], s. simpl. rewrite E. now splits.
Qed.

Lemma all_digits_of_list (l : list ascii) :
  forallb (atom_matches Digit) l = true -> all_digits (string_of_list_ascii l) = true.
Proof.
  induction l as [|c l IH]; simpl; [reflexivity|].
  intros H. apply andb_true_iff in H. destruct H as [-> H]. now apply IH.
Qed.

Lemma digit_run_of_list (l : list ascii) :
  l <> [] -> forallb (atom_matches Digit) l = true ->
  digit_run (string_of_list_ascii l) = true.
Proof.
  intros Hne H. destruct l as [|c l]; [now elim Hne|].
  now apply (all_digits_of_list (c :: l)).
Qed.

Lemma group_text_pushes (l : list ascii) :
  group_text (pushes l (Some [])) = string_of_list_ascii l.
Proof. rewrite pushes_some. simpl. now rewrite app_nil_r, rev_involutive. Qed.

Lemma search_match (r : regex) (s : string) (groups : list string) :
  search r s = Some groups ->
  exists s' rest, match_here r s' None [] = Some (groups, rest).
Proof.
  induction s as [|c s IH]; simpl.
  - destruct (match_here r EmptyString None []) as [[g rest]|] eqn:E; [|discriminate].
    intros [= <-]. now exists EmptyString, rest.
  - destruct (match_here r (String c s) None []) as [[g rest]|] eqn:E.
    + intros [= <-]. now exists (String c s), rest.
    + exact IH.
Qed.

Lemma findall_match (r : regex) (s : string) (skip : nat) (groups : list string) :
  In groups (findall_from r s skip) ->
  exists s' rest, match_here r s' None [] = Some (groups, rest).
Proof.
  revert skip. induction s as [|c s IH]; intros skip; simpl; [easy|].
  destruct skip as [|n]; [|apply IH].
  destruct (match_here r (String c s) None []) as [[g rest]|] eqn:E.
  - intros [<-|H]; [now exists (String c s), rest|now apply IH in H].
  - apply IH.
Qed.

(** Peels the literal characters at the head of a pattern that matched. *)
Ltac peel_one H :=
  let c := fresh "c" in
  let s := fresh "s" in
  let Hc := fresh "Hc" in
  apply match_here_one in H; destruct H as (c & s & _ & Hc & H);
  cbn [push] in H.

Ltac peel_plus H run Hne Hall :=
  let s := fresh "s" in
  apply match_here_plus in H; destruct H as (run & s & Hne & Hall & _ & H).

(** The groups of the RAM pattern are two decimal numerals. *)
Lemma RAM_groups (line : string) (m : list string) :
  search RAM_re line = Some m ->
  exists used total,
    m = [used; total] /\ digit_run used = true /\ digit_run total = true.
Proof.
  intros H. apply search_match in H. destruct H as (s & rest & H).
  unfold RAM_re in H. cbn [lit app] in H.
  do 4 peel_one H.
  change (match_here (GroupOpen :: ?r) ?s ?cur ?caps)
    with (match_here r s (Some []) caps) in H.
  peel_plus H run1 Hne1 Hall1.
  change (match_here (GroupClose :: ?r) ?s ?cur ?caps)
    with (match_here r s None (group_text cur :: caps)) in H.
  peel_one H.
  change (match_here (GroupOpen :: ?r) ?s ?cur ?caps)
    with (match_here r s (Some []) caps) in H.
  peel_plus H run2 Hne2 Hall2.
  change (match_here (GroupClose :: ?r) ?s ?cur ?caps)
    with (match_here r s None (group_text cur :: caps)) in H.
  do 2 peel_one H.
  simpl in H. injection H as <- _.
  rewrite !group_text_pushes.
  exists (string_of_list_ascii run1), (string_of_list_ascii run2).
  splits; [reflexivity| |]; now apply digit_run_of_list.
Qed.

Lemma match_core_group (s : string) (m : list string) (rest : string) :
  match_here core_re s None [] = Some (m, rest) ->
  exists percent, m = [percent] /\ digit_run percent = true.
Proof.
  intros H. unfold core_re in H. cbn [lit app] in H.
  change (match_here (GroupOpen :: ?r) ?s ?cur ?caps)
    with (match_here r s (Some []) caps) in H.
  peel_plus H run1 Hne1 Hall1.
  change (match_here (GroupClose :: ?r) ?s ?cur ?caps)
    with (match_here r s None (group_text cur :: caps)) in H.
  do 2 peel_one H.
  peel_plus H run2 Hne2 Hall2.
  simpl in H. injection H as <- _.
  rewrite group_text_pushes.
  exists (string_of_list_ascii run1). split; [reflexivity|].
  now apply digit_run_of_list.
Qed.

(** Every core entry that [findall] returns is a decimal numeral. *)
Lemma core_groups (text : string) (m : list string) :
  In m (findall core_re text) ->
  exists percent, m = [percent] /\ digit_run percent = true.
Proof.
  intros H. apply findall_match in H. destruct H as (s & rest & H).
  now apply match_core_group in H.
Qed.

(** The group of the GPU pattern is a decimal numeral. *)
Lemma GPU_group (line : string) (m : list string) :
  search GPU_re line = Some m ->
  exists percent, m = [percent] /\ digit_run percent = true.
Proof.
  intros H. apply search_match in H. destruct H as (s & rest & H).
  unfold GPU_re in H. cbn [lit app] in H.
  do 10 peel_one H.
  change (match_here (GroupOpen :: ?r) ?s ?cur ?caps)
    with (match_here r s (Some []) caps) in H.
  peel_plus H run1 Hne1 Hall1.
  change (match_here (GroupClose :: ?r) ?s ?cur ?caps)
    with (match_here r s None (group_text cur :: caps)) in H.
  do 2 peel_one H.
  peel_plus H run2 Hne2 Hall2.
  simpl in H. injection H as <- _.
  rewrite group_text_pushes.
  exists (string_of_list_ascii run1). split; [reflexivity|].
  now apply digit_run_of_list.
Qed.

Lemma pushes_app (l1 l2 : list ascii) cur :
  pushes (l1 ++ l2) cur = pushes l2 (pushes l1 cur).
Proof. unfold pushes. now rewrite fold_left_app. Qed.

(** The group of the temperature pattern is digits, a point, digits. *)
Lemma TEMP_group (line : string) (m : list string) :
  search TEMP_re line = Some m ->
  exists whole frac : list ascii,
    m = [string_of_list_ascii (whole ++ "."%char :: frac)]
    /\ whole <> [] /\ frac <> []
    /\ forallb is_digit whole = true /\ forallb is_digit frac = true.
Proof.
  intros H. apply search_match in H. destruct H as (s & rest & H).
  unfold TEMP_re in H. cbn [lit app] in H.
  do 9 peel_one H.
  change (match_here (GroupOpen :: ?r) ?s ?cur ?caps)
    with (match_here r s (Some []) caps) in H.
  peel_plus H run1 Hne1 Hall1.
  apply match_here_one in H. destruct H as (point & s' & _ & Hpoint & H).
  apply Ascii.eqb_eq in Hpoint. subst point.
  peel_plus H run2 Hne2 Hall2.
  change (match_here (GroupClose :: ?r) ?s ?cur ?caps)
    with (match_here r s None (group_text cur :: caps)) in H.
  peel_one H.
  simpl in H. injection H as <- _.
  change (push "."%char (pushes run1 (Some []))) with (pushes ["."%char] (pushes run1 (Some []))).
  rewrite <- !pushes_app, group_text_pushes.
  exists run1, run2. now splits.
Qed.

Lemma int_digits_app (l1 l2 : list ascii) (acc : Z) :
  int_digits (string_of_list_ascii (l1 ++ l2)) acc
  = int_digits (string_of_list_ascii l2) (int_digits (string_of_list_ascii l1) acc).
Proof. revert acc. induction l1 as [|c l1 IH]; intros acc; simpl; [reflexivity|apply IH]. Qed.

Lemma float_digits_fraction (l : list ascii) (acc frac : Z) :
  forallb is_digit l = true ->
  float_digits (string_of_list_ascii l) acc frac true
  = (int_digits (string_of_list_ascii l) acc, frac + Z.of_nat (List.length l)).
Proof.
  revert acc frac. induction l as [|c l IH]; intros acc frac H; simpl.
  - now rewrite Z.add_0_r.
  - simpl in H. apply andb_true_iff in H. destruct H as [Hc H].
    rewrite Hc, IH by exact H. f_equal. lia.
Qed.

Lemma float_digits_whole (l rest : list ascii) (acc : Z) :
  forallb is_digit l = true ->
  float_digits (string_of_list_ascii (l ++ "."%char :: rest)) acc 0 false
  = float_digits (string_of_list_ascii rest) (int_digits (string_of_list_ascii l) acc)
                 0 true.
Proof.
  revert acc. induction l as [|c l IH]; intros acc H; simpl; [reflexivity|].
  simpl in H. apply andb_true_iff in H. destruct H as [Hc H].
  rewrite Hc. now apply IH.
Qed.

(** On digits, a point, digits, [float] is the decimal with the digits as its
    mantissa and the number of fraction digits as its negated exponent. *)
Lemma float_of_decimal_text (whole frac : list ascii) :
  forallb is_digit whole = true -> forallb is_digit frac = true ->
  float (string_of_list_ascii (whole ++ "."%char :: frac))
  = of_decimal false (int_value (string_of_list_ascii (whole ++ frac)))
               (- Z.of_nat (List.length frac)).
Proof.
  intros Hw Hf. unfold float, int_value.
  rewrite float_digits_whole, float_digits_fraction by assumption.
  now rewrite int_digits_app.
Qed.

Lemma int_digits_nonneg (s : string) (acc : Z) :
  all_digits s = true -> 0 <= acc -> 0 <= int_digits s acc.
Proof.
  revert acc. induction s as [|c s IH]; intros acc H Hacc; cbn [int_digits];
    [exact Hacc|].
  cbn [all_digits] in H. apply andb_true_iff in H. destruct H as [Hc H].
  apply IH; [exact H|]. unfold is_digit in Hc.
  apply andb_true_iff in Hc. destruct Hc as [Hlo _].
  apply Nat.leb_le in Hlo. lia.
Qed.

(** The integers that [parse_tegrastats] reads for the RAM fields are the values
    of two decimal numerals. *)
Lemma ram_values_numerals (line : string) (used total : Z) :
  ram_values line = Some (used, total) ->
  exists u t, digit_run u = true /\ digit_run t = true
              /\ used = int_value u /\ total = int_value t /\ 0 <= used /\ 0 <= total.
Proof.
  unfold ram_values. destruct (search RAM_re line) as [m|] eqn:E; [|discriminate].
  destruct (RAM_groups _ _ E) as (u & t & -> & Hu & Ht).
  intros [= <- <-]. exists u, t. cbn [group Nat.sub nth].
  splits; try reflexivity; try assumption.
  - destruct u; [discriminate|]. now apply int_digits_nonneg.
  - destruct t; [discriminate|]. now apply int_digits_nonneg.
Qed.

End RegexFacts.

(** ** [JSON.parse] has fuel enough *)

Module JsonFacts.
Import F64 JsNum JsVal.

Local Open Scope nat_scope.

Local Abbreviation len := (@List.length N).

Lemma skip_ws_length (s : jsstring) : len (skip_ws s) <= len s.
Proof.
  induction s as [|c s IH]; simpl; [lia|].
  destruct (is_json_ws c); simpl; lia.
Qed.

Lemma digits_run_rest (s : jsstring) :
  forall (acc n v n' : Z) (r : jsstring),
    digits_run s acc n = (v, n', r) ->
    len r <= len s /\ (n <= n')%Z /\ ((n < n')%Z -> len r < len s).
Proof.
  induction s as [|c s IH]; intros acc n v n' r; simpl.
  - intros [= <- <- <-]. simpl. lia.
  - destruct (is_digit c).
    + intros H. apply IH in H. lia.
    + intros [= <- <- <-]. simpl. lia.
Qed.

Lemma exponent_part_rest (s r : jsstring) (e : Z) :
  exponent_part s = Some (e, r) -> len r <= len s.
Proof.
  unfold exponent_part. destruct s as [|c s']; [intros [= <- <-]; simpl; lia|].
  destruct (N.eqb c 101 || N.eqb c 69)%bool; [|intros [= <- <-]; lia].
  set (p := match s' with
            | d :: t => if N.eqb d 45 then (true, t)
                        else if N.eqb d 43 then (false, t) else (false, s')
            | [] => (false, s')
            end).
  assert (Hp : len (snd p) <= len s').
  { unfold p. destruct s' as [|d t]; simpl; [lia|].
    destruct (N.eqb d 45); simpl; [lia|]. destruct (N.eqb d 43); simpl; lia. }
  destruct p as [neg s'']. simpl in Hp.
  destruct (digits_run s'' 0 0) as [[v n] rest] eqn:E.
  apply digits_run_rest in E.
  destruct (n =? 0)%Z; [discriminate|]. intros [= <- <-]. simpl. lia.
Qed.

Lemma parse_number_rest (s r : jsstring) (x : number) :
  parse_number s = Some (x, r) -> len r < len s.
Proof.
  unfold parse_number.
  set (p := match s with
            | c :: t => if N.eqb c 45 then (true, t) else (false, s)
            | [] => (false, s)
            end).
  assert (Hp : len (snd p) <= len s).
  { unfold p. destruct s as [|c t]; simpl; [lia|]. destruct (N.eqb c 45); simpl; lia. }
  destruct p as [neg s1]. simpl in Hp.
  destruct (digits_run s1 0 0) as [[ip ni] r1] eqn:E.
  apply digits_run_rest in E. destruct E as (E1 & E2 & E3).
  destruct (ni =? 0)%Z eqn:Eni; [discriminate|]. apply Z.eqb_neq in Eni.
  assert (Hr1 : len r1 < len s1) by (apply E3; lia).
  destruct ((1 <? ni)%Z && startsWith 48 s1)%bool; [discriminate|]. cbn [orb].
  set (frac := match r1 with
               | c :: t =>
                   if N.eqb c 46 then
                     let '(m, nf, r2) := digits_run t ip 0 in
                     if (nf =? 0)%Z then None else Some (m, nf, r2)
                   else Some (ip, 0%Z, r1)
               | [] => Some (ip, 0%Z, r1)
               end).
  assert (Hf : forall m nf r2, frac = Some (m, nf, r2) -> len r2 <= len r1).
  { unfold frac. intros m nf r2. destruct r1 as [|c t]; [intros [= _ _ <-]; lia|].
    destruct (N.eqb c 46); [|intros [= _ _ <-]; lia].
    destruct (digits_run t ip 0) as [[m' nf'] r2'] eqn:E'.
    apply digits_run_rest in E'.
    destruct (nf' =? 0)%Z; [discriminate|]. intros [= _ _ <-]. simpl. lia. }
  destruct frac as [[[m nf] r2]|]; [|discriminate].
  specialize (Hf m nf r2 eq_refl).
  destruct (exponent_part r2) as [[ex r3]|] eqn:Ee; [|discriminate].
  apply exponent_part_rest in Ee. intros [= _ <-]. lia.
Qed.

Lemma parse_string_rest (n : nat) :
  forall (s acc str r : jsstring),
    len s <= n -> parse_string s acc = Some (str, r) -> len r < len s.
Proof.
  induction n as [|n IH]; intros s acc str r Hn.
  - destruct s; [discriminate|simpl in Hn; lia].
  - destruct s as [|c s']; [discriminate|]. simpl in Hn. cbn [parse_string].
    destruct (N.eqb c 34); [intros [= _ <-]; simpl; lia|].
    destruct (N.eqb c 92).
    + destruct s' as [|e s'']; [discriminate|]. simpl in Hn.
      assert (Hs : forall a, parse_string s'' a = Some (str, r) ->
                             len r < len (c :: e :: s'')).
      { intros a H. apply IH in H; simpl; lia. }
      repeat match goal with
             | |- (if ?b then _ else _) = _ -> _ => destruct b; [apply Hs|]
             end.
      destruct (N.eqb e 117); [|discriminate].
      destruct s'' as [|h1 [|h2 [|h3 [|h4 s3]]]]; try discriminate.
      destruct (hex4 h1 h2 h3 h4); [|discriminate].
      intros H. apply IH in H; simpl in *; lia.
    + destruct (N.ltb c 32); [discriminate|].
      intros H. apply IH in H; simpl; lia.
Qed.

Lemma strip_prefix_rest (p s r : jsstring) :
  strip_prefix p s = Some r -> len r + len p = len s.
Proof.
  revert s. induction p as [|a p IH]; intros s; simpl.
  - intros [= <-]. lia.
  - destruct s as [|b s']; [discriminate|].
    destruct (N.eqb a b); [|discriminate].
    intros H. apply IH in H. simpl. lia.
Qed.

(** A parser consumes: what follows its result is shorter than its input. *)
Definition consumes {A} (p : jsstring -> option (A * jsstring)) : Prop :=
  forall s v r, p s = Some (v, r) -> len r < len s.

Lemma value_step_consumes elements members :
  (forall acc, consumes (fun s => elements s acc)) ->
  (forall acc, consumes (fun s => members s acc)) ->
  consumes (value_step elements members).
Proof.
  intros He Hm s v r. unfold value_step.
  destruct s as [|c t]; [discriminate|].
  destruct (N.eqb c 34).
  { destruct (parse_string t []) as [[str r']|] eqn:E; [|discriminate].
    apply (parse_string_rest (len t)) in E; [|lia].
    intros [= _ <-]. simpl. lia. }
  destruct (N.eqb c 91).
  { pose proof (skip_ws_length t) as Hs.
    destruct (skip_ws t) as [|d r']; [discriminate|]. simpl in Hs.
    destruct (N.eqb d 93); [intros [= _ <-]; simpl; lia|].
    intros H. apply He in H. simpl in *. lia. }
  destruct (N.eqb c 123).
  { pose proof (skip_ws_length t) as Hs.
    destruct (skip_ws t) as [|d r']; [discriminate|]. simpl in Hs.
    destruct (N.eqb d 125); [intros [= _ <-]; simpl; lia|].
    intros H. apply Hm in H. simpl in *. lia. }
  destruct (N.eqb c 110).
  { destruct (strip_prefix (js "null") (c :: t)) as [r'|] eqn:E; [|discriminate].
    apply strip_prefix_rest in E. intros [= _ <-]. simpl in *. lia. }
  destruct (N.eqb c 116).
  { destruct (strip_prefix (js "true") (c :: t)) as [r'|] eqn:E; [|discriminate].
    apply strip_prefix_rest in E. intros [= _ <-]. simpl in *. lia. }
  destruct (N.eqb c 102).
  { destruct (strip_prefix (js "false") (c :: t)) as [r'|] eqn:E; [|discriminate].
    apply strip_prefix_rest in E. intros [= _ <-]. simpl in *. lia. }
  destruct (parse_number (c :: t)) as [[x r']|] eqn:E; [|discriminate].
  apply parse_number_rest in E. intros [= _ <-]. exact E.
Qed.

Lemma elements_step_consumes value elements :
  consumes value ->
  (forall acc, consumes (fun s => elements s acc)) ->
  forall acc, consumes (fun s => elements_step value elements s acc).
Proof.
  intros Hv He acc s v r. unfold elements_step.
  destruct (value s) as [[v0 r0]|] eqn:E; [|discriminate].
  apply Hv in E. pose proof (skip_ws_length r0) as Hs.
  destruct (skip_ws r0) as [|d r']; [discriminate|]. simpl in Hs.
  destruct (N.eqb d 44).
  { intros H. apply He in H. pose proof (skip_ws_length r'). lia. }
  destruct (N.eqb d 93); [|discriminate]. intros [= _ <-]. lia.
Qed.

Lemma members_step_consumes value members :
  consumes value ->
  (forall acc, consumes (fun s => members s acc)) ->
  forall acc, consumes (fun s => members_step value members s acc).
Proof.
  intros Hv Hm acc s v r. unfold members_step.
  destruct s as [|q r0]; [discriminate|].
  destruct (N.eqb q 34); [|discriminate].
  destruct (parse_string r0 []) as [[key r1]|] eqn:Ek; [|discriminate].
  apply (parse_string_rest (len r0)) in Ek; [|lia].
  pose proof (skip_ws_length r1) as H1.
  destruct (skip_ws r1) as [|c r2]; [discriminate|]. simpl in H1.
  destruct (N.eqb c 58); [|discriminate].
  pose proof (skip_ws_length r2) as H2.
  destruct (value (skip_ws r2)) as [[v0 r3]|] eqn:E; [|discriminate].
  apply Hv in E. pose proof (skip_ws_length r3) as H3.
  destruct (skip_ws r3) as [|d r4]; [discriminate|]. simpl in H3.
  destruct (N.eqb d 44).
  { intros H. apply Hm in H. pose proof (skip_ws_length r4). simpl. lia. }
  destruct (N.eqb d 125); [|discriminate]. intros [= _ <-]. simpl. lia.
Qed.

Lemma parsers_consume (fuel : nat) :
  consumes (parse_value fuel)
  /\ (forall acc, consumes (fun s => parse_elements fuel s acc))
  /\ (forall acc, consumes (fun s => parse_members fuel s acc)).
Proof.
  induction fuel as [|f (IHv & IHe & IHm)].
  - splits; intros; intros s v r; discriminate.
  - splits.
    + apply value_step_consumes; assumption.
    + apply (elements_step_consumes (fun s' => parse_value f s')
               (fun s' acc' => parse_elements f s' acc')); assumption.
    + apply (members_step_consumes (fun s' => parse_value f s')
               (fun s' acc' => parse_members f s' acc')); assumption.
Qed.

Lemma value_step_ext elements elements' members members' (s : jsstring) :
  (forall s' acc, len s' < len s -> elements s' acc = elements' s' acc) ->
  (forall s' acc, len s' < len s -> members s' acc = members' s' acc) ->
  value_step elements members s = value_step elements' members' s.
Proof.
  intros He Hm. unfold value_step. destruct s as [|c t]; [reflexivity|].
  destruct (N.eqb c 34); [reflexivity|].
  pose proof (skip_ws_length t) as Hs.
  destruct (N.eqb c 91).
  { destruct (skip_ws t) as [|d r']; [reflexivity|]. simpl in Hs.
    destruct (N.eqb d 93); [reflexivity|]. apply He. simpl. lia. }
  destruct (N.eqb c 123); [|reflexivity].
  destruct (skip_ws t) as [|d r']; [reflexivity|]. simpl in Hs.
  destruct (N.eqb d 125); [reflexivity|]. apply Hm. simpl. lia.
Qed.

Lemma elements_step_ext value value' elements elements' (s : jsstring) acc :
  value s = value' s ->
  consumes value ->
  (forall s' acc', len s' + 2 <= len s -> elements s' acc' = elements' s' acc') ->
  elements_step value elements s acc = elements_step value' elements' s acc.
Proof.
  intros Hv Hc He. unfold elements_step. rewrite <- Hv.
  destruct (value s) as [[v r]|] eqn:E; [|reflexivity].
  apply Hc in E. pose proof (skip_ws_length r) as Hs.
  destruct (skip_ws r) as [|d r']; [reflexivity|]. simpl in Hs.
  destruct (N.eqb d 44); [|reflexivity].
  apply He. pose proof (skip_ws_length r'). lia.
Qed.

Lemma members_step_ext value value' members members' (s : jsstring) acc :
  (forall s', len s' + 3 <= len s -> value s' = value' s') ->
  consumes value ->
  (forall s' acc', len s' + 5 <= len s -> members s' acc' = members' s' acc') ->
  members_step value members s acc = members_step value' members' s acc.
Proof.
  intros Hv Hc Hm. unfold members_step. destruct s as [|q r0]; [reflexivity|].
  destruct (N.eqb q 34); [|reflexivity].
  destruct (parse_string r0 []) as [[key r1]|] eqn:Ek; [|reflexivity].
  apply (parse_string_rest (len r0)) in Ek; [|lia].
  pose proof (skip_ws_length r1) as H1.
  destruct (skip_ws r1) as [|c r2]; [reflexivity|]. simpl in H1.
  destruct (N.eqb c 58); [|reflexivity].
  pose proof (skip_ws_length r2) as H2.
  rewrite <- Hv by (simpl; lia).
  destruct (value (skip_ws r2)) as [[v r3]|] eqn:E; [|reflexivity].
  apply Hc in E. pose proof (skip_ws_length r3) as H3.
  destruct (skip_ws r3) as [|d r4]; [reflexivity|]. simpl in H3.
  destruct (N.eqb d 44); [|reflexivity].
  apply Hm. pose proof (skip_ws_length r4). simpl. lia.
Qed.

(** More fuel than twice the length of the text changes nothing. *)
Lemma one_more_fuel (f : nat) :
  (forall s, 2 * len s < f -> parse_value (S f) s = parse_value f s)
  /\ (forall s acc, 2 * len s + 1 < f ->
        parse_elements (S f) s acc = parse_elements f s acc)
  /\ (forall s acc, 2 * len s + 1 < f ->
        parse_members (S f) s acc = parse_members f s acc).
Proof.
  induction f as [|f (IHv & IHe & IHm)].
  - splits; intros; lia.
  - destruct (parsers_consume (S f)) as (Cv & _ & _).
    splits.
    + intros s Hs. cbn [parse_value]. apply value_step_ext.
      * intros s' acc Hl. apply IHe. lia.
      * intros s' acc Hl. apply IHm. lia.
    + intros s acc Hs. cbn [parse_elements].
      apply (elements_step_ext (fun s' => parse_value (S f) s')
               (fun s' => parse_value f s')).
      * apply IHv. lia.
      * exact Cv.
      * intros s' acc' Hl. apply IHe. lia.
    + intros s acc Hs. cbn [parse_members].
      apply (members_step_ext (fun s' => parse_value (S f) s')
               (fun s' => parse_value f s')).
      * intros s' Hl. apply IHv. lia.
      * exact Cv.
      * intros s' acc' Hl. apply IHm. lia.
Qed.

Lemma more_fuel (k f : nat) (s : jsstring) :
  2 * len s < f -> parse_value (k + f) s = parse_value f s.
Proof.
  intros Hs. induction k as [|k IH]; [reflexivity|].
  cbn [Nat.add]. rewrite <- IH. apply one_more_fuel. lia.
Qed.

(** [JSON_parse] is the parser with any amount of fuel from its own on: no text
    is rejected for lack of fuel. *)
Lemma JSON_parse_fuel (text : jsstring) (fuel : nat) :
  2 * len text + 2 <= fuel ->
  JSON_parse text
  = match parse_value fuel (skip_ws text) with
    | Some (v, r) => match skip_ws r with [] => Some v | _ :: _ => None end
    | None => None
    end.
Proof.
  intros Hf. unfold JSON_parse.
  replace fuel with ((fuel - (2 * len text + 2)) + (2 * len text + 2)) by lia.
  rewrite (more_fuel (fuel - (2 * len text + 2)) (2 * len text + 2));
    [reflexivity|].
  pose proof (skip_ws_length text). lia.
Qed.

End JsonFacts.

(** ** Division by 1024 is exact *)

Module FloatFacts.
Import F64 Stats.

Lemma digits2_pos_size (p : positive) : digits2_pos p = Pos.size p.
Proof. induction p as [p IH|p IH|]; simpl; now rewrite ?IH. Qed.

Lemma Zdigits2_log2 (p : positive) : Zdigits2 (Zpos p) = Z.log2 (Zpos p) + 1.
Proof.
  destruct p as [p|p|]; simpl; rewrite ?digits2_pos_size; try lia.
Qed.

Lemma Zdigits2_mul_pow2 (p : positive) (k : Z) :
  0 <= k -> Zdigits2 (Zpos p * 2 ^ k) = Zdigits2 (Zpos p) + k.
Proof.
  intros Hk.
  assert (H : 0 < Zpos p * 2 ^ k) by (apply Z.mul_pos_pos; [lia|now apply Z.pow_pos_nonneg]).
  destruct (Zpos p * 2 ^ k) as [|x|x] eqn:E; try lia.
  rewrite !Zdigits2_log2, <- E, Z.log2_mul_pow2 by lia. lia.
Qed.

(** The same ratio, scaled, rounds to the same integer. *)
Lemma round_half_even_scale (p q k : Z) :
  0 < q -> 0 < k -> round_half_even (p * k) (q * k) = round_half_even p q.
Proof.
  intros Hq Hk. unfold round_half_even.
  rewrite Z.div_mul_cancel_r, Zmult_mod_distr_r by lia.
  replace (2 * (p mod q * k) <? q * k) with (2 * (p mod q) <? q)
    by (apply Bool.eq_true_iff_eq; rewrite !Z.ltb_lt; nia).
  replace (q * k <? 2 * (p mod q * k)) with (q <? 2 * (p mod q))
    by (apply Bool.eq_true_iff_eq; rewrite !Z.ltb_lt; nia).
  reflexivity.
Qed.

(** An integer below 2^53 divided by 1024 is a double: the mantissa is the
    integer shifted to 53 bits. *)
Lemma quotient_1024_exact (p : positive) :
  Zdigits2 (Zpos p) <= 53 ->
  exists x, quotient (Zpos p) 1024 = S754_finite false x (Zdigits2 (Zpos p) - 63)
            /\ Zpos x = Zpos p * 2 ^ (53 - Zdigits2 (Zpos p)).
Proof.
  intros Hd.
  assert (Hd1 : 1 <= Zdigits2 (Zpos p))
    by (rewrite Zdigits2_log2; pose proof (Z.log2_nonneg (Zpos p)); lia).
  pose proof (Zdigits2_mul_pow2 p) as Hdig.
  set (d := Zdigits2 (Zpos p)) in *.
  unfold quotient. cbn [Z.abs Z.ltb Z.compare xorb].
  unfold div, SFdiv, SFdiv_core_binary.
  fold d. change (Zdigits2 1024) with 11.
  assert (He : IntDef.Z.min (fexp prec emax (d + 0 - (11 + 0))) (0 - 0) = d - 64).
  { unfold fexp, emin, prec, emax. lia. }
  rewrite He.
  replace (0 - 0 - (d - 64)) with (64 - d) by lia.
  destruct (64 - d) as [|s|s] eqn:Es; try lia.
  change (IntDef.Z.shiftl (Z.pos p) (Z.pos s)) with (Z.shiftl (Z.pos p) (Z.pos s)).
  rewrite Z.shiftl_mul_pow2 by lia. rewrite <- Es.
  replace (Z.pos p * 2 ^ (64 - d)) with ((Z.pos p * 2 ^ (54 - d)) * 1024).
  2:{ replace (64 - d) with ((54 - d) + 10) by lia. rewrite Z.pow_add_r by lia.
      change (2 ^ 10) with 1024. lia. }
  assert (Hdiv : IntDef.Z.div_eucl (Z.pos p * 2 ^ (54 - d) * 1024) 1024
                 = (Z.pos p * 2 ^ (54 - d), 0)).
  { pose proof (Z.div_mul (Z.pos p * 2 ^ (54 - d)) 1024 ltac:(lia)) as H1.
    pose proof (Z.mod_mul (Z.pos p * 2 ^ (54 - d)) 1024 ltac:(lia)) as H2.
    unfold Z.div, Z.modulo in H1, H2.
    destruct (Z.div_eucl (Z.pos p * 2 ^ (54 - d) * 1024) 1024) as [q r]. now subst. }
  rewrite Hdiv.
  change (new_location 1024 0) with loc_Exact.
  unfold binary_round_aux, shr_fexp.
  rewrite Hdig by lia.
  replace (fexp prec emax (d + (54 - d) + (d - 64)) - (d - 64)) with 1
    by (unfold fexp, emin, prec, emax; lia).
  assert (Hx : exists x, Z.pos x = Z.pos p * 2 ^ (53 - d)).
  { assert (0 < Z.pos p * 2 ^ (53 - d))
      by (apply Z.mul_pos_pos; [lia|apply Z.pow_pos_nonneg; lia]).
    destruct (Z.pos p * 2 ^ (53 - d)) as [|x|x]; try lia. now exists x. }
  destruct Hx as [x Hx]. exists x. split; [|exact Hx].
  replace (Z.pos p * 2 ^ (54 - d)) with (Z.pos (xO x)).
  2:{ rewrite Pos2Z.inj_xO, Hx. replace (54 - d) with (1 + (53 - d)) by lia.
      rewrite Z.pow_add_r by lia. lia. }
  cbn [shr shr_record_of_loc iter_pos shr_1 shr_m orb loc_of_shr_record round_nearest_even].
  replace (Zdigits2 (Z.pos x)) with 53 by (rewrite Hx, Hdig by lia; lia).
  replace (fexp prec emax (53 + (d - 64 + 1)) - (d - 64 + 1)) with 0
    by (unfold fexp, emin, prec, emax; lia).
  cbn [shr shr_m xorb].
  replace (d - 64 + 1 <=? emax - prec) with true
    by (symmetry; apply Z.leb_le; unfold emax, prec; lia).
  f_equal. lia.
Qed.

(** On an integer below 2^53, [round(n / 1024, 2)] is the double nearest to
    [h / 100], for [h] the integer nearest to [100 * n / 1024] (a tie going to
    the even one). *)
Lemma round2_quotient_1024 (n : Z) :
  0 <= n < 2 ^ 53 ->
  round2 (quotient n 1024) = of_decimal false (round_half_even (100 * n) 1024) (-2).
Proof.
  intros [H0 H53]. destruct n as [|p|p]; [reflexivity| |lia].
  assert (Hd : Zdigits2 (Zpos p) <= 53).
  { rewrite Zdigits2_log2. apply Z.log2_lt_pow2 in H53; lia. }
  assert (Hd1 : 1 <= Zdigits2 (Zpos p))
    by (rewrite Zdigits2_log2; pose proof (Z.log2_nonneg (Zpos p)); lia).
  destruct (quotient_1024_exact p Hd) as (x & -> & Hx).
  set (d := Zdigits2 (Zpos p)) in *.
  unfold round2.
  replace (0 <=? d - 63) with false by (symmetry; apply Z.leb_gt; lia).
  f_equal. rewrite Hx.
  replace (- (d - 63)) with (10 + (53 - d)) by lia.
  rewrite Z.pow_add_r by lia. change (2 ^ 10) with 1024.
  replace (Z.pos p * 2 ^ (53 - d) * 100) with (100 * Z.pos p * 2 ^ (53 - d)) by lia.
  apply round_half_even_scale; [lia|apply Z.pow_pos_nonneg; lia].
Qed.

End FloatFacts.
Module SplitFacts.
Import JsVal Stream Chunks.

Lemma split_nonempty (sep : N) (s : jsstring) : split sep s <> [].
Proof.
  destruct s as [|c s]; simpl; [discriminate|].
  destruct (N.eqb c sep); [discriminate|].
  destruct (split sep s); discriminate.
Qed.

Lemma split_app_sep (sep : N) (a b : jsstring) :
  split sep (a ++ sep :: b) = split sep a ++ split sep b.
Proof.
  induction a as [|c a IH]; simpl.
  - now rewrite N.eqb_refl.
  - destruct (N.eqb c sep); [now rewrite IH|].
    rewrite IH.
    destruct (split sep a) as [|l ls] eqn:E; [now apply split_nonempty in E|].
    reflexivity.
Qed.

Lemma last_app_cons {A} (l : list A) (x d : A) : last (l ++ [x]) d = x.
Proof. induction l as [|y l IH]; simpl; [reflexivity|]. destruct (l ++ [x]) eqn:E; [now destruct l|exact IH]. Qed.

Lemma ends_with_last (a : jsstring) :
  is_empty a = false -> N.eqb (last a 0%N) LF = true -> exists a', a = a' ++ [LF].
Proof.
  intros Hne Hl.
  destruct (exists_last (l := a)) as [a' [x ->]]; [now destruct a|].
  rewrite last_app_cons in Hl. apply N.eqb_eq in Hl. subst x. now exists a'.
Qed.

(** Whatever is computed line by line, and is nothing on an empty line, is
    the same on [a ++ b] as on [a] then [b] when the boundary is a line
    boundary. *)
Lemma flat_map_split_boundary {B} (f : jsstring -> list B) (a b : jsstring) :
  f [] = [] ->
  boundary_ok a b = true ->
  flat_map f (split LF (a ++ b)) = flat_map f (split LF a) ++ flat_map f (split LF b).
Proof.
  intros Hf Hb. unfold boundary_ok in Hb.
  destruct a as [|ca a'] eqn:Ea.
  { simpl. now rewrite Hf. }
  destruct b as [|cb b'] eqn:Eb.
  { rewrite app_nil_r. simpl (split LF []). simpl (flat_map f [[]]).
    now rewrite Hf, !app_nil_r. }
  rewrite <- Ea in *. simpl (is_empty (cb :: b')) in Hb.
  assert (Hne : is_empty a = false) by now subst a.
  rewrite Hne in Hb. simpl in Hb.
  apply orb_true_iff in Hb. destruct Hb as [Hl|Hh].
  - destruct (ends_with_last a Hne Hl) as [a0 Ha0]. rewrite Ha0.
    rewrite <- app_assoc. simpl ([LF] ++ cb :: b').
    rewrite (split_app_sep LF a0 (cb :: b')), (split_app_sep LF a0 []).
    simpl (split LF []). rewrite !flat_map_app. simpl (flat_map f [[]]).
    now rewrite Hf, !app_nil_r.
  - apply N.eqb_eq in Hh. subst cb.
    rewrite (split_app_sep LF a b').
    change (split LF (LF :: b')) with ([] :: split LF b').
    rewrite flat_map_app. simpl (flat_map f ([] :: split LF b')).
    now rewrite Hf.
Qed.

Lemma filter_as_flat_map {A} (p : A -> bool) (l : list A) :
  filter p l = flat_map (fun x => if p x then [x] else []) l.
Proof. induction l as [|x l IH]; simpl; [reflexivity|]. rewrite IH. now destruct (p x). Qed.

Lemma chat_records_boundary (a b : jsstring) :
  boundary_ok a b = true ->
  chat_records (a ++ b) = chat_records a ++ chat_records b.
Proof. intros H. unfold chat_records. now apply flat_map_split_boundary. Qed.

Lemma pull_lines_boundary (a b : jsstring) :
  boundary_ok a b = true ->
  pull_lines (a ++ b) = pull_lines a ++ pull_lines b.
Proof.
  intros H. unfold pull_lines. rewrite !filter_as_flat_map.
  now apply flat_map_split_boundary.
Qed.

Lemma chat_records_aligned (chunks : list jsstring) :
  line_aligned chunks = true ->
  chat_stream_records chunks = chat_records (List.concat chunks).
Proof.
  unfold chat_stream_records.
  induction chunks as [|c rest IH]; simpl; intros H; [reflexivity|].
  apply andb_true_iff in H. destruct H as [Hb Hr].
  now rewrite chat_records_boundary, IH.
Qed.

Lemma pull_lines_aligned (chunks : list jsstring) :
  line_aligned chunks = true ->
  flat_map pull_lines chunks = pull_lines (List.concat chunks).
Proof.
  induction chunks as [|c rest IH]; simpl; intros H; [reflexivity|].
  apply andb_true_iff in H. destruct H as [Hb Hr].
  now rewrite pull_lines_boundary, IH.
Qed.

End SplitFacts.

Module StreamFacts.
Import JsVal Stream Chunks SplitFacts Samples Aux.

(** What a chunk adds to [assistantContent] is the text of its records. *)
Lemma chat_fold_records (lines : list jsstring) (c : jsstring) (b : bool) :
  fst (fold_left chat_line lines (c, b))
  = c ++ List.concat (flat_map delta_of
                        (flat_map (fun line => match chat_parse_line line with
                                               | Some r => [r]
                                               | None => []
                                               end) lines)).
Proof.
  revert c b. induction lines as [|l lines IH]; intros c b; simpl.
  - now rewrite app_nil_r.
  - unfold chat_line at 2. destruct (chat_parse_line l) as [r|]; simpl.
    + unfold delta_of at 1. destruct (chat_delta r) as [t|]; simpl.
      * rewrite IH. now rewrite <- app_assoc.
      * now rewrite IH.
    + now rewrite IH.
Qed.

Lemma chat_chunk_records (c chunk : jsstring) :
  fst (chat_chunk c chunk) = c ++ List.concat (flat_map delta_of (chat_records chunk)).
Proof. unfold chat_chunk, chat_records. apply chat_fold_records. Qed.

Lemma chat_stream_content_records (chunks : list jsstring) (c : jsstring) :
  fold_left (fun content chunk => fst (chat_chunk content chunk)) chunks c
  = c ++ List.concat (flat_map delta_of (flat_map chat_records chunks)).
Proof.
  revert c. induction chunks as [|k chunks IH]; intros c; simpl.
  - now rewrite app_nil_r.
  - rewrite IH, chat_chunk_records, flat_map_app, concat_app. now rewrite app_assoc.
Qed.

Lemma pull_each_app (l1 l2 : list jsstring) (st : json) :
  pull_each (l1 ++ l2) st = bind (pull_each l1 st) (pull_each l2).
Proof.
  revert st. induction l1 as [|l l1 IH]; intros st; simpl; [reflexivity|].
  destruct (pull_line st l); simpl; [apply IH|reflexivity].
Qed.

Lemma pull_stream_status_lines (chunks : list jsstring) (st : json) :
  pull_stream_status chunks st = pull_each (flat_map pull_lines chunks) st.
Proof.
  revert st. induction chunks as [|c chunks IH]; intros st; simpl; [reflexivity|].
  rewrite pull_each_app. unfold pull_chunk.
  destruct (pull_each (pull_lines c) st); simpl; [apply IH|reflexivity].
Qed.

(** C1, as stated, fails: a line cut in the middle of a field is decoded by
    neither handler. The line [chat_line_text] is one record when it arrives
    whole; delivered as [chat_line_head] and then [chat_line_tail], the chat
    handler decodes no record (both pieces are ignored) and the pull handler
    throws on the first piece. *)
Lemma chunk_split_mid_line_loses_record :
  chat_line_head ++ chat_line_tail = chat_line_text
  /\ chat_records chat_line_text = [chat_line_record]
  /\ chat_stream_records [chat_line_head; chat_line_tail] = []
  /\ pull_records chat_line_text = ([chat_line_record], true)
  /\ pull_stream_records [chat_line_head; chat_line_tail] = ([], false)
  /\ chat_stream_content [chat_line_text] = js "Hi"
  /\ chat_stream_content [chat_line_head; chat_line_tail] = [].
Proof. splits; vm_compute; reflexivity. Qed.

(** C1, amended: when every buffer boundary is a line boundary of the text (a
    newline right before or right after it, or an empty buffer), decoding the
    buffers one by one gives the same records, in the same order, as decoding
    the whole text, in the chat handler and in the pull handler; the
    accumulated chat content and the pull status are the same as well. *)
Theorem chunk_invariance_at_line_boundaries (chunks : list jsstring) :
  line_aligned chunks = true ->
  chat_stream_records chunks = chat_records (List.concat chunks)
  /\ pull_stream_records chunks = pull_records (List.concat chunks)
  /\ chat_stream_content chunks = fst (chat_chunk [] (List.concat chunks))
  /\ forall pullStatus,
       pull_stream_status chunks pullStatus = pull_chunk pullStatus (List.concat chunks).
Proof.
  intros H. splits.
  - now apply chat_records_aligned.
  - unfold pull_stream_records, pull_records. now rewrite pull_lines_aligned.
  - unfold chat_stream_content.
    rewrite chat_stream_content_records, chat_chunk_records.
    fold (chat_stream_records chunks). now rewrite chat_records_aligned.
  - intros st. rewrite pull_stream_status_lines. unfold pull_chunk.
    now rewrite pull_lines_aligned.
Qed.

(** Four buffers: cut after a newline, before a newline, after a newline, and
    an empty one. *)
Lemma chunk_invariance_at_line_boundaries_witness :
  let chunks := [chat_line_text; jsq "{'message':{'content':' there'}}";
                 [LF] ++ chat_line_text; []] in
  line_aligned chunks = true
  /\ chat_stream_records chunks = chat_records (List.concat chunks)
  /\ chat_stream_content chunks = js "Hi thereHi".
Proof.
  cbv zeta. split; [vm_compute; reflexivity|].
  split.
  - refine (proj1 (chunk_invariance_at_line_boundaries
                     [chat_line_text; jsq "{'message':{'content':' there'}}";
                      [LF] ++ chat_line_text; []] _)).
    vm_compute; reflexivity.
  - vm_compute; reflexivity.
Defined.

End StreamFacts.

Module PullFacts.
Import F64 JsNum JsVal Stream App Page Samples.

(** C2 at the failing input: a malformed line between two records. The pull
    handler parses outside any try block: the first record is decoded, the
    malformed line throws, the handler ends in its catch with the error status
    and the third record is never decoded. The chat handler, on a stream of the
    same shape, ignores the line and decodes both records. *)
Theorem malformed_line_ends_pull_but_not_chat :
  pull_records pull_malformed_chunk
    = ([JObj [(js "status", JStr (js "pulling manifest"))]], false)
  /\ pull_chunk (JStr (js "Pulling model: gemma:2b...")) pull_malformed_chunk
     = Throw SyntaxError
  /\ option_map pullStatus (pull_session pull_ready [pull_malformed_chunk] false)
     = Some (JStr (js "Error pulling model."))
  /\ chat_records chat_malformed_chunk
     = [JObj [(js "message", JObj [(js "content", JStr (js "a"))])];
        JObj [(js "message", JObj [(js "content", JStr (js "b"))])]]
  /\ fst (chat_chunk [] chat_malformed_chunk) = js "ab".
Proof. splits; vm_compute; reflexivity. Qed.

Lemma truthy_number (x : number) :
  truthy (Some (JNum x)) = negb (is_zero x || is_nan x).
Proof. now destruct x. Qed.

Lemma lookup_status_only (members : list (jsstring * json)) :
  lookup (js "status") (status_only members) = lookup (js "status") members.
Proof.
  induction members as [|[k v] ms IH]; [reflexivity|].
  unfold status_only in *. simpl filter.
  destruct (JsStr.eqb k (js "status")) eqn:E.
  - cbn [lookup]. rewrite IH. now rewrite E.
  - rewrite IH. cbn [lookup]. now rewrite E; destruct (lookup (js "status") ms).
Qed.

Lemma jsstr_eqb_eq (a b : jsstring) : JsStr.eqb a b = true <-> a = b.
Proof.
  revert b. induction a as [|x a IH]; destruct b as [|y b]; simpl; try easy.
  rewrite andb_true_iff, N.eqb_eq, IH. split; [intros [-> ->]; reflexivity|].
  intros H; injection H; auto.
Qed.

Lemma lookup_other_status_only (key : jsstring) (members : list (jsstring * json)) :
  key <> js "status" -> lookup key (status_only members) = None.
Proof.
  intros Hk. induction members as [|[k v] ms IH]; [reflexivity|].
  unfold status_only in *. simpl filter.
  destruct (JsStr.eqb k (js "status")) eqn:E; [|exact IH].
  cbn [lookup]. rewrite IH.
  apply jsstr_eqb_eq in E. simpl in E. subst k.
  destruct (JsStr.eqb (js "status") key) eqn:E2; [|reflexivity].
  apply jsstr_eqb_eq in E2. now elim Hk.
Qed.

(** C3, as stated, fails: a record with [total] and [completed] both present
    and [completed] equal to 0 sets no percentage; the status text of the
    record is shown instead. *)
Lemma progress_record_at_zero_sets_no_percent :
  option_map (fun r => (get r (js "total"), get r (js "completed")))
             (JSON_parse pull_nothing_yet)
    = Some (Some (JNum (of_Z 100)), Some (JNum (S754_zero false)))
  /\ pull_line (JStr (js "Downloading... 7%")) pull_nothing_yet
     = Ok (JStr (js "pulling 8934d96d3f08"))
  /\ downloading (S754_zero false) = JStr (js "Downloading... 0%").
Proof. splits; vm_compute; reflexivity. Qed.

(** The percentage is computed in double arithmetic: 29 of 200 is 14, the
    quotient 0.145 being just below the tie once rounded to a double. *)
Lemma percent_29_of_200 :
  percent_of (of_Z 29) (of_Z 200) = of_Z 14
  /\ Math_round (of_decimal false 145 (-1)) = of_Z 15.
Proof. splits; vm_compute; reflexivity. Qed.

(** C3, amended: a record whose [total] and [completed] are numbers other than
    zero sets the status to [Downloading... P%] with
    [P = Math.round((completed / total) * 100)] in double arithmetic, whatever
    the status was (1 of 3 gives 33, 2 of 3 gives 67); a record with neither
    member and a non-empty [status] text sets that text. No percentage is kept
    apart from the status text. *)
Theorem pull_progress_aggregation
  (members : list (jsstring * json)) (pullStatus : json) (total completed : number) :
  lookup (js "total") members = Some (JNum total) ->
  lookup (js "completed") members = Some (JNum completed) ->
  truthy (Some (JNum total)) = true ->
  truthy (Some (JNum completed)) = true ->
  pull_record (JObj members) pullStatus = Ok (downloading (percent_of completed total))
  /\ pull_line pullStatus pull_one_third = Ok (JStr (js "Downloading... 33%"))
  /\ pull_line pullStatus pull_two_thirds = Ok (JStr (js "Downloading... 67%"))
  /\ (forall (others : list (jsstring * json)) (text : jsstring),
        lookup (js "total") others = None ->
        lookup (js "completed") others = None ->
        lookup (js "status") others = Some (JStr text) ->
        text <> [] ->
        pull_record (JObj others) pullStatus = Ok (JStr text)).
Proof.
  intros Ht Hc Htt Hct. splits.
  - unfold pull_record. cbn [get]. rewrite Ht, Hc, Htt, Hct. reflexivity.
  - vm_compute; reflexivity.
  - vm_compute; reflexivity.
  - intros others text H1 H2 H3 Hne. unfold pull_record. cbn [get].
    rewrite H1, H3. cbn [truthy andb]. now destruct text.
Qed.

(** A record with 50 of 200 bytes completed. *)
Lemma pull_progress_aggregation_witness :
  let members := [(js "total", JNum (of_Z 200)); (js "completed", JNum (of_Z 50))] in
  lookup (js "total") members = Some (JNum (of_Z 200))
  /\ pull_record (JObj members) (JStr (js "pulling manifest"))
     = Ok (downloading (percent_of (of_Z 50) (of_Z 200)))
  /\ downloading (percent_of (of_Z 50) (of_Z 200)) = JStr (js "Downloading... 25%").
Proof.
  cbv zeta. split; [vm_compute; reflexivity|]. split; [|vm_compute; reflexivity].
  refine (proj1 (pull_progress_aggregation
                   [(js "total", JNum (of_Z 200)); (js "completed", JNum (of_Z 50))]
                   (JStr (js "pulling manifest")) (of_Z 200) (of_Z 50) _ _ _ _));
    vm_compute; reflexivity.
Defined.

(** C10, as stated, fails: a record with [total], with [completed] equal to 0
    and with a [status] member that is the empty text changes nothing; the
    status shown before stays, the text of the record is not set. *)
Lemma empty_status_at_zero_progress_changes_nothing :
  option_map (fun r => (get r (js "status"), get r (js "total"), get r (js "completed")))
             (JSON_parse pull_empty_status)
    = Some (Some (JStr []), Some (JNum (of_Z 100)), Some (JNum (S754_zero false)))
  /\ pull_line (JStr (js "Downloading... 7%")) pull_empty_status
     = Ok (JStr (js "Downloading... 7%")).
Proof. splits; vm_compute; reflexivity. Qed.

(** C10, amended: a record whose [total] and [completed] are numbers, one of
    them zero, sets no percentage: it is handled as the record with its
    [status] member alone would be, which sets a truthy [status] (a text that
    is not empty) as it is and changes nothing otherwise, that is when the
    member is absent or falsy (the empty text). *)
Theorem zero_progress_is_status_only
  (members : list (jsstring * json)) (pullStatus : json) (total completed : number) :
  lookup (js "total") members = Some (JNum total) ->
  lookup (js "completed") members = Some (JNum completed) ->
  is_zero completed = true \/ is_zero total = true ->
  pull_record (JObj members) pullStatus
    = pull_record (JObj (status_only members)) pullStatus
  /\ pull_record (JObj members) pullStatus
     = match lookup (js "status") members with
       | Some status => if truthy (Some status) then Ok status else Ok pullStatus
       | None => Ok pullStatus
       end
  /\ (forall text, lookup (js "status") members = Some (JStr text) -> text <> [] ->
        pull_record (JObj members) pullStatus = Ok (JStr text))
  /\ (lookup (js "status") members = None ->
        pull_record (JObj members) pullStatus = Ok pullStatus)
  /\ (lookup (js "status") members = Some (JStr []) ->
        pull_record (JObj members) pullStatus = Ok pullStatus).
Proof.
  intros Ht Hc Hz.
  assert (Hguard : truthy (Some (JNum total)) && truthy (Some (JNum completed)) = false).
  { rewrite !truthy_number. destruct Hz as [H|H]; rewrite H; simpl;
      [apply andb_false_r|reflexivity]. }
  assert (Hmain : pull_record (JObj members) pullStatus
     = match lookup (js "status") members with
       | Some status => if truthy (Some status) then Ok status else Ok pullStatus
       | None => Ok pullStatus
       end).
  { unfold pull_record. cbn [get]. rewrite Ht, Hc, Hguard. reflexivity. }
  splits.
  - rewrite Hmain. unfold pull_record. cbn [get].
    rewrite (lookup_other_status_only (js "total")) by (vm_compute; discriminate).
    cbn [truthy andb]. now rewrite lookup_status_only.
  - exact Hmain.
  - intros text Hs Hne. rewrite Hmain, Hs. now destruct text.
  - intros Hs. now rewrite Hmain, Hs.
  - intros Hs. now rewrite Hmain, Hs.
Qed.

(** A record with 0 of 100 bytes completed and a status text. *)
Lemma zero_progress_is_status_only_witness :
  let members := [(js "status", JStr (js "pulling 8934d96d3f08"));
                  (js "total", JNum (of_Z 100));
                  (js "completed", JNum (S754_zero false))] in
  is_zero (S754_zero false) = true
  /\ pull_record (JObj members) (JStr (js "Downloading... 7%"))
     = pull_record (JObj (status_only members)) (JStr (js "Downloading... 7%"))
  /\ pull_record (JObj members) (JStr (js "Downloading... 7%"))
     = Ok (JStr (js "pulling 8934d96d3f08")).
Proof.
  cbv zeta. split; [reflexivity|]. split; [|vm_compute; reflexivity].
  refine (proj1 (zero_progress_is_status_only
                   [(js "status", JStr (js "pulling 8934d96d3f08"));
                    (js "total", JNum (of_Z 100));
                    (js "completed", JNum (S754_zero false))]
                   (JStr (js "Downloading... 7%")) (of_Z 100) (S754_zero false) _ _ _)).
  - vm_compute; reflexivity.
  - vm_compute; reflexivity.
  - left. reflexivity.
Defined.

End PullFacts.

Module ChatFacts.
Import F64 JsNum JsVal Stream App Page Chunks Samples.

Lemma replace_last_content_app (c : jsstring) (h : list ChatMessage) (m : ChatMessage) :
  replace_last_content c (h ++ [m]) = h ++ [{| role := role m; content := c |}].
Proof.
  unfold replace_last_content. rewrite rev_app_distr. simpl.
  now rewrite rev_involutive.
Qed.

Lemma chat_fold_flag_true (lines : list jsstring) (c : jsstring) :
  snd (fold_left chat_line lines (c, true)) = true.
Proof.
  revert c. induction lines as [|l lines IH]; intros c; [reflexivity|].
  simpl. unfold chat_line at 2.
  destruct (chat_parse_line l) as [r|]; [destruct (chat_delta r)|]; apply IH.
Qed.

(** A chunk that sets no [hasDelta] leaves [assistantContent] as it was. *)
Lemma chat_fold_no_delta (lines : list jsstring) (c : jsstring) :
  snd (fold_left chat_line lines (c, false)) = false ->
  fst (fold_left chat_line lines (c, false)) = c.
Proof.
  revert c. induction lines as [|l lines IH]; intros c; [reflexivity|].
  simpl. unfold chat_line at 2 4.
  destruct (chat_parse_line l) as [r|]; [destruct (chat_delta r) as [t|]|];
    try apply IH.
  simpl. now rewrite chat_fold_flag_true.
Qed.

Lemma chat_chunk_no_delta (c chunk : jsstring) :
  snd (chat_chunk c chunk) = false -> fst (chat_chunk c chunk) = c.
Proof. apply chat_fold_no_delta. Qed.

(** While the chunks are read, the last message of the history is the assistant
    message and holds [assistantContent]; nothing else of the state changes. *)
Lemma chat_reads_history (chunks : list jsstring) :
  forall (a : AppState) (t : ChatTask) (h0 : list ChatMessage),
    chatHistory a = h0 ++ [{| role := assistant; content := assistantContent t |}] ->
    let r := fold_left (fun '(a, t) chunk => chat_read a t chunk) chunks (a, t) in
    chatHistory (fst r)
      = h0 ++ [{| role := assistant; content := assistantContent (snd r) |}]
    /\ assistantContent (snd r)
       = fold_left (fun content chunk => fst (chat_chunk content chunk)) chunks
                   (assistantContent t)
    /\ isStreaming (fst r) = isStreaming a
    /\ prompt (fst r) = prompt a.
Proof.
  induction chunks as [|k chunks IH]; intros a t h0 Hh; cbv zeta.
  - simpl. auto.
  - simpl fold_left.
    destruct (chat_read a t k) as [a1 t1] eqn:E.
    unfold chat_read in E.
    destruct (chat_chunk (assistantContent t) k) as [c' d] eqn:Ek.
    injection E as Ea Et.
    assert (Hc : assistantContent t1 = fst (chat_chunk (assistantContent t) k))
      by (now rewrite <- Et, Ek).
    assert (Hh1 : chatHistory a1
                  = h0 ++ [{| role := assistant; content := assistantContent t1 |}]).
    { rewrite <- Ea, <- Et. simpl assistantContent. destruct d.
      - simpl. rewrite Hh. now rewrite replace_last_content_app.
      - rewrite Hh. f_equal. f_equal. f_equal.
        pose proof (chat_chunk_no_delta (assistantContent t) k) as Hn.
        rewrite Ek in Hn. simpl in Hn. symmetry. now apply Hn. }
    specialize (IH a1 t1 h0 Hh1). cbv zeta in IH.
    destruct IH as (H1 & H2 & H3 & H4).
    splits; [exact H1| | |].
    + rewrite H2, Hc, Ek. reflexivity.
    + rewrite H3, <- Ea. now destruct d.
    + rewrite H4, <- Ea. now destruct d.
Qed.

(** C4, as stated, fails: the content received before the failure stays in the
    history. After [Hel] has arrived and [reader.read()] then throws, the
    history holds the user message, the assistant message [Hel] and the error
    message. *)
Lemma chat_failure_leaves_partial_content :
  option_map chatHistory (chat_session chat_ready [chat_partial_chunk] true)
  = Some [{| role := user; content := js "hi" |};
          {| role := assistant; content := js "Hel" |};
          {| role := assistant; content := js "Sorry, I encountered an error." |}].
Proof. vm_compute; reflexivity. Qed.

(** C4, amended: when the stream of an accepted chat request fails after some
    chunks, the handler appends exactly one assistant message that reports the
    failure, after the assistant message of the stream, which keeps the content
    accumulated before the failure; the streaming flag is cleared. Whatever the
    history is when the failure is caught, the message is appended to it and
    nothing is taken from it. *)
Theorem chat_failure_appends_error_message (st : AppState) (chunks : list jsstring) :
  prompt st <> [] ->
  isStreaming st = false ->
  selectedModel st <> [] ->
  truthy (selectedModelInfo st) = true ->
  exists st',
    chat_session st chunks true = Some st'
    /\ chatHistory st'
       = chatHistory st
         ++ [{| role := user; content := prompt st |};
             {| role := assistant; content := chat_stream_content chunks |};
             chat_error_message]
    /\ isStreaming st' = false
    /\ forall st0, chatHistory (chat_failed st0) = chatHistory st0 ++ [chat_error_message].
Proof.
  intros Hp Hs Hm Hi. unfold chat_session, handleChatSubmit.
  rewrite Hs, Hi.
  destruct (prompt st) as [|p0 p] eqn:Ep; [now elim Hp|].
  destruct (selectedModel st) as [|m0 m] eqn:Em; [now elim Hm|].
  cbn [is_empty orb negb]. cbv beta iota.
  set (h1 := chatHistory st ++ [{| role := user; content := p0 :: p |}]).
  unfold chat_response.
  set (t0 := {| request_model := _; request_messages := _; chat_reading := true;
                assistantContent := _ |}).
  set (a0 := set_chatHistory _ _).
  pose proof (chat_reads_history chunks a0 t0 h1 eq_refl) as H. cbv zeta in H.
  destruct (fold_left _ chunks (a0, t0)) as [a3 t3].
  destruct H as (H1 & H2 & H3 & H4). simpl in H1, H2, H3.
  eexists. split; [reflexivity|]. split; [|split; reflexivity].
  unfold chat_failed. simpl chatHistory. rewrite H1, H2.
  unfold h1, chat_stream_content. now rewrite <- !app_assoc.
Qed.

(** A stream of two chunks that fails after them. *)
Lemma chat_failure_appends_error_message_witness :
  exists st',
    chat_session chat_ready [chat_partial_chunk; chat_malformed_chunk] true = Some st'
    /\ chatHistory st'
       = chatHistory chat_ready
         ++ [{| role := user; content := prompt chat_ready |};
             {| role := assistant;
                content := chat_stream_content [chat_partial_chunk; chat_malformed_chunk] |};
             chat_error_message]
    /\ isStreaming st' = false
    /\ forall st0, chatHistory (chat_failed st0) = chatHistory st0 ++ [chat_error_message].
Proof.
  apply (chat_failure_appends_error_message chat_ready
           [chat_partial_chunk; chat_malformed_chunk]).
  - vm_compute; discriminate.
  - reflexivity.
  - vm_compute; discriminate.
  - reflexivity.
Defined.

End ChatFacts.

Module PageFacts.
Import JsVal Stream App Page Samples PageSamples Aux.

(** A chat request submitted while the streaming flag is set returns at the
    guard: no state is written and no request is issued. *)
Lemma handleChatSubmit_busy (st : AppState) :
  isStreaming st = true -> handleChatSubmit st = (st, None).
Proof.
  intros H. unfold handleChatSubmit. rewrite H.
  now rewrite orb_true_r.
Qed.

Lemma length_replace_nth {A} (i : nat) (y : A) (l : list A) :
  List.length (replace_nth i y l) = List.length l.
Proof.
  revert i. induction l as [|x l IH]; intros [|i]; simpl; auto.
Qed.

Lemma length_remove_nth {A} (i : nat) (l : list A) (x : A) :
  nth_error l i = Some x -> S (List.length (remove_nth i l)) = List.length l.
Proof.
  revert i. induction l as [|y l IH]; intros [|i]; simpl; try discriminate; auto.
Qed.

Lemma chat_read_isStreaming (a : AppState) (t : ChatTask) (chunk : jsstring) :
  isStreaming (fst (chat_read a t chunk)) = isStreaming a.
Proof.
  unfold chat_read. destruct (chat_chunk (assistantContent t) chunk) as [c d].
  now destruct d.
Qed.

Lemma step_one_stream (s s' : Sys) (e : event) :
  one_stream s -> step s e = Some s' -> one_stream s'.
Proof.
  unfold one_stream. intros Inv H.
  destruct e; simpl in H.
  - (* SubmitChat *)
    unfold handleChatSubmit in H.
    destruct (isStreaming (app s)) eqn:Es.
    + rewrite orb_true_r in H. simpl in H. injection H as <-. simpl. now rewrite Es.
    + destruct (is_empty (prompt (app s)) || false || is_empty (selectedModel (app s))
                || negb (truthy (selectedModelInfo (app s)))).
      * injection H as <-. simpl. now rewrite Es.
      * injection H as <-. simpl. rewrite length_app. simpl. lia.
  - (* ChatResponse *)
    destruct (nth_error (chats s) i) as [t|]; [|discriminate].
    destruct (chat_reading t); [discriminate|].
    injection H as <-. simpl. now rewrite length_replace_nth.
  - (* ChatChunk *)
    destruct (nth_error (chats s) i) as [t|]; [|discriminate].
    destruct (chat_reading t); [|discriminate].
    pose proof (chat_read_isStreaming (app s) t chunk) as Hs.
    destruct (chat_read (app s) t chunk) as [a t'].
    injection H as <-. simpl in *. now rewrite length_replace_nth, Hs.
  - (* ChatDone *)
    destruct (nth_error (chats s) i) as [t|] eqn:En; [|discriminate].
    destruct (chat_reading t); [|discriminate].
    injection H as <-. simpl. apply length_remove_nth in En.
    destruct (isStreaming (app s)); lia.
  - (* ChatFail *)
    destruct (nth_error (chats s) i) as [t|] eqn:En; [|discriminate].
    injection H as <-. simpl. apply length_remove_nth in En.
    destruct (isStreaming (app s)); lia.
  - (* SubmitPull *)
    destruct (isStreaming (app s)) eqn:Es; [discriminate|].
    unfold handlePullModel in H.
    destruct (is_empty (pullModelName (app s))).
    + injection H as <-. simpl. now rewrite Es.
    + injection H as <-. simpl. lia.
  - (* PullChunk *)
    destruct (pulls s) as [|n] eqn:Ep; [discriminate|].
    unfold pull_read in H.
    destruct (pull_chunk (pullStatus (app s)) chunk).
    + injection H as <-. simpl. now rewrite Ep.
    + injection H as <-. simpl. destruct (isStreaming (app s)); lia.
  - (* PullDone *)
    destruct (pulls s) as [|n] eqn:Ep; [discriminate|].
    injection H as <-. simpl. destruct (isStreaming (app s)); lia.
  - (* PullFail *)
    destruct (pulls s) as [|n] eqn:Ep; [discriminate|].
    injection H as <-. simpl. destruct (isStreaming (app s)); lia.
  - (* StatusTimeout *)
    destruct (timers s); [discriminate|]. now injection H as <-.
  - now injection H as <-.
  - now injection H as <-.
  - now injection H as <-.
  - now injection H as <-.
  - now injection H as <-.
  - now injection H as <-.
Qed.

Lemma run_one_stream (events : list event) :
  forall s s', one_stream s -> run s events = Some s' -> one_stream s'.
Proof.
  induction events as [|e events IH]; intros s s' Inv H; simpl in H.
  - now injection H as <-.
  - destruct (step s e) as [s1|] eqn:E; [|discriminate].
    eapply IH; [|exact H]. eapply step_one_stream; eauto.
Qed.

Lemma reachable_one_stream (s : Sys) : reachable s -> one_stream s.
Proof.
  intros [events H]. eapply run_one_stream; [|exact H]. reflexivity.
Qed.

(** C9: on every page state reached from the initial one, at most one chat
    stream is in flight and a chat or pull stream in flight has the streaming
    flag set; with the flag set, submitting the chat form returns at the guard
    of [handleChatSubmit]: the state (chat history, prompt, streams in flight)
    is unchanged and no request is issued. *)
Theorem busy_state_rejects_chat_submit (s : Sys) :
  reachable s ->
  (List.length (chats s) <= 1)%nat
  /\ (chats s <> [] \/ pulls s <> O -> isStreaming (app s) = true)
  /\ (isStreaming (app s) = true ->
        handleChatSubmit (app s) = (app s, None)
        /\ step s SubmitChat = Some s).
Proof.
  intros Hr. apply reachable_one_stream in Hr. unfold one_stream in Hr.
  splits.
  - destruct (isStreaming (app s)); lia.
  - intros H. destruct (isStreaming (app s)); [reflexivity|].
    destruct H as [H|H]; [destruct (chats s); [now elim H|discriminate]|lia].
  - intros Hb. split; [now apply handleChatSubmit_busy|].
    simpl. rewrite (handleChatSubmit_busy _ Hb). now destruct s.
Qed.

(** With one chat stream in flight and a new prompt typed, submitting changes
    nothing. *)
Lemma busy_state_rejects_chat_submit_witness :
  reachable busy_page
  /\ isStreaming (app busy_page) = true
  /\ prompt (app busy_page) = js "again"
  /\ step busy_page SubmitChat = Some busy_page.
Proof.
  assert (Hr : reachable busy_page) by (exists busy_events; vm_compute; reflexivity).
  assert (Hb : isStreaming (app busy_page) = true) by (vm_compute; reflexivity).
  splits; [exact Hr|exact Hb|vm_compute; reflexivity|].
  exact (proj2 (proj2 (proj2 (busy_state_rejects_chat_submit busy_page Hr)) Hb)).
Defined.

End PageFacts.

Module MemoryFacts.
Import F64 JsNum JsVal Stream App Samples Aux.

Lemma mul_comm (x y : number) : mul x y = mul y x.
Proof.
  unfold mul.
  destruct x as [sx|sx| |sx mx ex], y as [sy|sy| |sy my ey]; simpl;
    try reflexivity; try (now rewrite xorb_comm).
  now rewrite xorb_comm, Pos.mul_comm, Z.add_comm.
Qed.

Lemma ToNumber_or_zero (x : number) :
  ToNumber (or_zero (Some (JNum x))) = Ok (zero_or x).
Proof. now destruct x. Qed.

Lemma same_value_zero_or (x : number) : is_nan x = false -> same_value (zero_or x) x.
Proof. destruct x; simpl; intros H; try discriminate; [right|left|left]; auto. Qed.

Lemma gt_same_value (x x' y y' : number) :
  same_value x x' -> same_value y y' -> gt x y = gt x' y'.
Proof.
  intros [->|[Hx Hx']] [->|[Hy Hy']]; [reflexivity| | |].
  - destruct y, y'; try discriminate. now destruct x'.
  - destruct x, x'; try discriminate. now destruct y'.
  - destruct x, x', y, y'; try discriminate. reflexivity.
Qed.

Lemma sub_same_value (x x' y y' : number) :
  same_value x x' -> same_value y y' -> same_value (sub x y) (sub x' y').
Proof.
  intros [->|[Hx Hx']] [->|[Hy Hy']]; [now left| | |].
  - destruct y, y'; try discriminate. destruct x' as [sx|sx| |sx mx ex]; simpl.
    + right. now destruct sx, s, s0.
    + now left.
    + now left.
    + now left.
  - destruct x, x'; try discriminate. destruct y' as [sy|sy| |sy my ey]; simpl.
    + right. now destruct s, s0, sy.
    + now left.
    + now left.
    + now left.
  - destruct x, x', y, y'; try discriminate. right. simpl.
    now destruct s, s0, s1, s2.
Qed.

Lemma scaled_same_value (x x' c d : number) :
  same_value x x' -> same_value (mul (div x c) d) (mul (div x' c) d).
Proof.
  intros [->|[Hx Hx']]; [now left|].
  destruct x, x'; try discriminate.
  destruct c as [sc|sc| |sc mc ec]; simpl; try (now left).
  - destruct d as [sd|sd| |sd md ed]; simpl; try (now left); now right.
  - destruct d as [sd|sd| |sd md ed]; simpl; try (now left); now right.
Qed.

(** C8: with no telemetry sample or no model selected the guard admits (returns
    [true]); with a sample whose [ram_total_gb] and [ram_used_gb] are numbers and
    a model whose [size] is a number, it admits exactly when
    [ram_total_gb - ram_used_gb > 1.5 * (size / 1e9)], all in double arithmetic.
    With 8 GB of which 2 are used it denies a model of 4e9 bytes and admits one
    of 3.9e9 bytes. The result depends on the sample and the model alone. *)
Theorem memory_admission_guard
  (stats info : list (jsstring * json)) (total used size : number) :
  lookup (js "ram_total_gb") stats = Some (JNum total) ->
  lookup (js "ram_used_gb") stats = Some (JNum used) ->
  lookup (js "size") info = Some (JNum size) ->
  is_nan total = false -> is_nan used = false -> is_nan size = false ->
  hasSufficientMemory (Some (JObj stats)) (Some (JObj info))
    = Ok (gt (sub total used)
             (mul (of_decimal false 15 (-1)) (div size (of_decimal false 1 9))))
  /\ (forall model, hasSufficientMemory (Some JNull) model = Ok true)
  /\ (forall sample, hasSufficientMemory sample (Some JNull) = Ok true)
  /\ (forall sample, hasSufficientMemory sample None = Ok true)
  /\ hasSufficientMemory stats_8_2 model_4e9 = Ok false
  /\ hasSufficientMemory stats_8_2 model_3_9e9 = Ok true
  /\ (forall st st', systemStats st = systemStats st' ->
        selectedModelInfo st = selectedModelInfo st' -> memOk st = memOk st').
Proof.
  intros Ht Hu Hs Nt Nu Ns. splits.
  - unfold hasSufficientMemory. cbn [truthy negb orb get].
    rewrite Ht, Hu, Hs, !ToNumber_or_zero. cbn [bind]. f_equal.
    rewrite (mul_comm (of_decimal false 15 (-1))).
    apply gt_same_value.
    + apply sub_same_value; now apply same_value_zero_or.
    + apply scaled_same_value. now apply same_value_zero_or.
  - reflexivity.
  - intros sample. unfold hasSufficientMemory. cbn [truthy negb].
    now rewrite orb_true_r.
  - intros sample. unfold hasSufficientMemory. cbn [truthy negb].
    now rewrite orb_true_r.
  - vm_compute; reflexivity.
  - vm_compute; reflexivity.
  - intros st st' H1 H2. unfold memOk. now rewrite H1, H2.
Qed.

(** A sample of 7.58 GB with 1.64 GB used, and the model gemma:2b. *)
Lemma memory_admission_guard_witness :
  let stats := [(js "ram_used_gb", JNum (of_decimal false 164 (-2)));
                (js "ram_total_gb", JNum (of_decimal false 758 (-2)))] in
  let info := [(js "name", JStr (js "gemma:2b")); (js "size", JNum (of_Z 1678456656))] in
  is_nan (of_Z 1678456656) = false
  /\ hasSufficientMemory (Some (JObj stats)) (Some (JObj info))
     = Ok (gt (sub (of_decimal false 758 (-2)) (of_decimal false 164 (-2)))
              (mul (of_decimal false 15 (-1))
                   (div (of_Z 1678456656) (of_decimal false 1 9))))
  /\ hasSufficientMemory (Some (JObj stats)) (Some (JObj info)) = Ok true.
Proof.
  cbv zeta. split; [vm_compute; reflexivity|]. split; [|vm_compute; reflexivity].
  refine (proj1 (memory_admission_guard
                   [(js "ram_used_gb", JNum (of_decimal false 164 (-2)));
                    (js "ram_total_gb", JNum (of_decimal false 758 (-2)))]
                   [(js "name", JStr (js "gemma:2b"));
                    (js "size", JNum (of_Z 1678456656))]
                   (of_decimal false 758 (-2)) (of_decimal false 164 (-2))
                   (of_Z 1678456656) _ _ _ _ _ _));
    vm_compute; reflexivity.
Defined.

End MemoryFacts.

Module StatsFacts.
Import F64 Stats StatsSamples Aux RegexFacts FloatFacts.

Lemma truediv_nonzero (a b : Z) :
  b <> 0 ->
  truediv a b = if fits a b then Return (quotient a b) else Raise OverflowError.
Proof.
  intros Hb. unfold truediv. now rewrite (proj2 (Z.eqb_neq b 0) Hb).
Qed.

Lemma string_eqb_refl (k : string) : String.eqb k k = true.
Proof. now apply String.eqb_eq. Qed.

Lemma dict_get_set_same (k : string) (v : pyval) (d : dict) :
  dict_get k (dict_set k v d) = Some v.
Proof.
  induction d as [|[k' v'] d IH]; simpl.
  - now rewrite string_eqb_refl.
  - destruct (String.eqb k' k) eqn:E; simpl; now rewrite E.
Qed.

Lemma dict_get_set_other (k k' : string) (v : pyval) (d : dict) :
  String.eqb k' k = false ->
  dict_get k (dict_set k' v d) = dict_get k d.
Proof.
  intros Hk. induction d as [|[k0 v0] d IH]; simpl.
  - now rewrite Hk.
  - destruct (String.eqb k0 k') eqn:E; simpl.
    + apply String.eqb_eq in E. subst k0. now rewrite Hk.
    + now rewrite IH.
Qed.

(** [int] converts a text within the limit to the integer it denotes. *)
Lemma int_accepted (s : string) : int_accepts s = true -> int s = Return (int_value s).
Proof. intros H. unfold int. now rewrite H. Qed.

Lemma sum_int_accepted (l : list string) (acc : Z) :
  forallb int_accepts l = true ->
  sum_int l acc = Return (fold_left Z.add (map int_value l) acc).
Proof.
  revert acc. induction l as [|p l IH]; intros acc H; [reflexivity|].
  cbn [forallb] in H. apply andb_true_iff in H. destruct H as [Hp H].
  cbn [sum_int]. rewrite (int_accepted _ Hp). cbn [pybind map fold_left].
  now apply IH.
Qed.

(** When no conversion raises, [parse_tegrastats] returns the sample in its
    three parts. *)
Lemma parse_tegrastats_converts (line : string) :
  converts line = true -> parse_tegrastats line = Return (sample_of line).
Proof.
  unfold converts. intros H.
  apply andb_true_iff in H. destruct H as [H Hc].
  apply andb_true_iff in H. destruct H as [Hn Hr].
  unfold numerals in Hn. rewrite !forallb_app in Hn.
  apply andb_true_iff in Hn. destruct Hn as [Hn1 Hn].
  apply andb_true_iff in Hn. destruct Hn as [Hn2 Hn3].
  unfold sample_of, ram_fields, cpu_field, gpu_temp_part.
  unfold ram_fits in Hr. unfold cpu_fits in Hc.
  unfold ram_values in *. unfold cpu_values in *. unfold parse_tegrastats.
  cbv zeta.
  match goal with |- pybind ?A _ = _ => assert (Hram : A
    = Return match search RAM_re line with
             | Some ram_match =>
                 [("ram_used_mb"%string, PyInt (int_value (group ram_match 1)));
                  ("ram_total_mb"%string, PyInt (int_value (group ram_match 2)));
                  ("ram_used_gb"%string,
                   PyFloat (round2 (quotient (int_value (group ram_match 1)) 1024)));
                  ("ram_total_gb"%string,
                   PyFloat (round2 (quotient (int_value (group ram_match 2)) 1024)))]
             | None => []
             end) end.
  { destruct (search RAM_re line) as [ram_match|]; [|reflexivity].
    cbn [forallb] in Hn1.
    apply andb_true_iff in Hn1. destruct Hn1 as [H1 Hn1].
    apply andb_true_iff in Hn1. destruct Hn1 as [H2 _].
    apply andb_true_iff in Hr. destruct Hr as [Hr1 Hr2].
    rewrite !(int_accepted _ H1), !(int_accepted _ H2). cbn [pybind].
    rewrite !truediv_nonzero by discriminate. rewrite Hr1, Hr2. reflexivity. }
  rewrite Hram. cbn [pybind]. clear Hram.
  set (ram := match search RAM_re line with Some _ => _ | None => _ end).
  match goal with |- pybind ?A _ = _ => assert (Hcpu : A
    = Return match match search CPU_re line with
                   | Some cpu_match =>
                       map int_value
                         (map (fun m => group m 1) (findall core_re (group cpu_match 1)))
                   | None => []
                   end with
             | [] => ram
             | values => dict_set "cpu_usage_percent" (PyFloat (cpu_average values)) ram
             end) end.
  { destruct (search CPU_re line) as [cpu_match|]; [|reflexivity].
    destruct (map (fun m => group m 1) (findall core_re (group cpu_match 1)))
      as [|c cs] eqn:E; [reflexivity|].
    rewrite (sum_int_accepted _ _ Hn2). cbn [pybind].
    rewrite truediv_nonzero by (cbn [List.length]; lia).
    cbn [map] in *. unfold sum in Hc. cbn [List.length] in *.
    rewrite length_map in Hc. rewrite Hc. cbn [pybind].
    unfold cpu_average, sum. cbn [List.length]. now rewrite length_map. }
  rewrite Hcpu. cbn [pybind]. clear Hcpu.
  destruct (search GPU_re line) as [gpu_match|].
  - cbn [forallb] in Hn3. apply andb_true_iff in Hn3. destruct Hn3 as [H3 _].
    rewrite (int_accepted _ H3). cbn [pybind]. subst ram. clear.
    destruct (search RAM_re line); reflexivity.
  - cbn [pybind]. subst ram. clear. destruct (search RAM_re line); reflexivity.
Qed.

Lemma gpu_temp_part_keeps (k : string) (line : string) (stats : dict) :
  String.eqb "gpu_usage_percent" k = false ->
  String.eqb "soc_temp_c" k = false ->
  dict_get k (gpu_temp_part line stats) = dict_get k stats.
Proof.
  intros Hg Ht. unfold gpu_temp_part.
  destruct (search TEMP_re line), (search GPU_re line);
    rewrite ?dict_get_set_other by assumption; reflexivity.
Qed.

Lemma cpu_field_keeps (k : string) (line : string) (stats : dict) :
  String.eqb "cpu_usage_percent" k = false ->
  dict_get k (cpu_field line stats) = dict_get k stats.
Proof.
  intros Hk. unfold cpu_field.
  destruct (cpu_values line); [reflexivity|]. now apply dict_get_set_other.
Qed.

(** A run of digits denotes a number below the power of ten of its length. *)
Lemma int_digits_bound (s : string) (acc : Z) :
  all_digits s = true -> 0 <= acc ->
  0 <= int_digits s acc < (acc + 1) * 10 ^ Z.of_nat (String.length s).
Proof.
  revert acc. induction s as [|c s IH]; intros acc H Hacc.
  - cbn [int_digits String.length]. change (10 ^ Z.of_nat 0) with 1. lia.
  - cbn [all_digits] in H. apply andb_true_iff in H. destruct H as [Hc H].
    unfold is_digit in Hc. apply andb_true_iff in Hc. destruct Hc as [Hlo Hhi].
    apply Nat.leb_le in Hlo, Hhi.
    cbn [int_digits String.length].
    specialize (IH (10 * acc + (Z.of_nat (nat_of_ascii c) - 48)) H ltac:(lia)).
    rewrite Nat2Z.inj_succ, Z.pow_succ_r by lia.
    assert (Hp : 0 < 10 ^ Z.of_nat (String.length s)) by (apply Z.pow_pos_nonneg; lia).
    nia.
Qed.

Lemma int_value_short (s : string) :
  digit_run s = true -> (String.length s <=? 300)%nat = true ->
  0 <= int_value s < 10 ^ 300.
Proof.
  intros Hd Hl. apply Nat.leb_le in Hl.
  assert (Ha : all_digits s = true) by (destruct s; [discriminate|exact Hd]).
  pose proof (int_digits_bound s 0 Ha ltac:(lia)) as H. unfold int_value.
  assert (Hp : 10 ^ Z.of_nat (String.length s) <= 10 ^ 300)
    by (apply Z.pow_le_mono_r; lia).
  lia.
Qed.

Lemma sum_bound (l : list Z) (acc : Z) :
  Forall (fun v => 0 <= v < 10 ^ 300) l ->
  acc <= fold_left Z.add l acc
        <= acc + Z.of_nat (List.length l) * (10 ^ 300 - 1).
Proof.
  intros H. revert acc. induction H as [|v l Hv Hl IH]; intros acc.
  - cbn [fold_left List.length]. lia.
  - cbn [fold_left List.length]. specialize (IH (acc + v)).
    rewrite Nat2Z.inj_succ. lia.
Qed.

(** A line whose numerals have at most 300 digits each is one that the parser
    converts. *)
Lemma short_numerals_convert (line : string) :
  short_numerals line = true -> converts line = true.
Proof.
  unfold short_numerals, converts. intros H.
  assert (Hth : 10 ^ 300 <= overflow_threshold)
    by (apply Z.leb_le; vm_compute; reflexivity).
  assert (Hacc : forallb int_accepts (numerals line) = true).
  { rewrite forallb_forall in *. intros s Hs. specialize (H s Hs).
    unfold int_accepts, int_max_str_digits.
    apply Nat.leb_le in H. apply Nat.leb_le. lia. }
  rewrite Hacc. cbn [andb].
  unfold numerals in H. rewrite !forallb_app in H.
  apply andb_true_iff in H. destruct H as [H1 H].
  apply andb_true_iff in H. destruct H as [H2 _].
  apply andb_true_iff. split.
  - unfold ram_fits, ram_values.
    destruct (search RAM_re line) as [m|] eqn:E; [|reflexivity].
    destruct (RAM_groups _ _ E) as (u & t & -> & Hu & Ht).
    cbn [forallb] in H1.
    apply andb_true_iff in H1. destruct H1 as [Lu H1].
    apply andb_true_iff in H1. destruct H1 as [Lt _].
    cbn [group Nat.sub nth].
    pose proof (int_value_short u Hu Lu). pose proof (int_value_short t Ht Lt).
    unfold fits. apply andb_true_iff. split; apply Z.ltb_lt; lia.
  - unfold cpu_fits, cpu_values.
    destruct (search CPU_re line) as [m|]; [|reflexivity].
    assert (Hall : Forall (fun v => 0 <= v < 10 ^ 300)
                     (map int_value
                        (map (fun m0 => group m0 1) (findall core_re (group m 1))))).
    { apply Forall_forall. intros v Hv.
      apply in_map_iff in Hv. destruct Hv as (s & <- & Hs).
      rewrite forallb_forall in H2. specialize (H2 s Hs).
      apply in_map_iff in Hs. destruct Hs as (g & <- & Hg).
      destruct (core_groups _ _ Hg) as (p & -> & Hp).
      cbn [group Nat.sub nth] in *. now apply int_value_short. }
    destruct (map int_value _) as [|v vs]; [reflexivity|].
    pose proof (sum_bound (v :: vs) 0 Hall) as Hs. unfold sum, fits.
    apply Z.ltb_lt.
    assert (Hn : 0 < Z.of_nat (List.length (v :: vs))) by (cbn [List.length]; lia).
    nia.
Qed.

(** C5: on a line that the parser converts (no numeral longer than [int]
    accepts, no quotient beyond the range of a float: so is every line whose
    numerals have at most 300 digits), [parse_tegrastats] returns a sample
    which, when the RAM pattern is found, holds all four RAM fields, the two
    integers and each divided by 1024 and rounded to 2 decimals, and which
    holds none of the four when the pattern is not found. For a value below
    2^53 the division by 1024 is exact and the field in gigabytes is the
    double nearest to [h / 100], [h] the integer nearest to a hundred times
    the value over 1024. The line with [RAM 1683/7762MB] gives 1.64 and
    7.58. *)
Theorem ram_fields_all_or_none (line : string) :
  converts line = true ->
  (exists stats,
     parse_tegrastats line = Return stats
     /\ match search RAM_re line with
        | Some ram_match =>
            let used := int_value (group ram_match 1) in
            let total := int_value (group ram_match 2) in
            dict_get "ram_used_mb" stats = Some (PyInt used)
            /\ dict_get "ram_total_mb" stats = Some (PyInt total)
            /\ dict_get "ram_used_gb" stats
               = Some (PyFloat (round2 (quotient used 1024)))
            /\ dict_get "ram_total_gb" stats
               = Some (PyFloat (round2 (quotient total 1024)))
        | None =>
            dict_get "ram_used_mb" stats = None
            /\ dict_get "ram_total_mb" stats = None
            /\ dict_get "ram_used_gb" stats = None
            /\ dict_get "ram_total_gb" stats = None
        end)
  /\ (forall other, short_numerals other = true -> converts other = true)
  /\ (forall n, 0 <= n < 2 ^ 53 ->
        round2 (quotient n 1024)
        = of_decimal false (round_half_even (100 * n) 1024) (-2))
  /\ field "ram_used_gb" (parse_tegrastats tegrastats_line)
     = Some (PyFloat (of_decimal false 164 (-2)))
  /\ field "ram_total_gb" (parse_tegrastats tegrastats_line)
     = Some (PyFloat (of_decimal false 758 (-2))).
Proof.
  intros Hc.
  split; [|split; [exact short_numerals_convert|
                   split; [exact round2_quotient_1024|split; vm_compute; reflexivity]]].
  exists (sample_of line). split; [now apply parse_tegrastats_converts|].
  unfold sample_of. rewrite !gpu_temp_part_keeps, !cpu_field_keeps by reflexivity.
  unfold ram_fields, ram_values.
  destruct (search RAM_re line) as [ram_match|]; cbv zeta; splits; reflexivity.
Qed.

(** The line of tegrastats output that the source quotes. *)
Lemma ram_fields_all_or_none_witness :
  converts tegrastats_line = true
  /\ search RAM_re tegrastats_line = Some ["1683"; "7762"]%string
  /\ exists stats,
       parse_tegrastats tegrastats_line = Return stats
       /\ dict_get "ram_used_mb" stats = Some (PyInt 1683)
       /\ dict_get "ram_total_mb" stats = Some (PyInt 7762)
       /\ dict_get "ram_used_gb" stats = Some (PyFloat (round2 (quotient 1683 1024)))
       /\ dict_get "ram_total_gb" stats = Some (PyFloat (round2 (quotient 7762 1024))).
Proof.
  assert (Hc : converts tegrastats_line = true) by (vm_compute; reflexivity).
  split; [exact Hc|]. split; [vm_compute; reflexivity|].
  pose proof (proj1 (ram_fields_all_or_none tegrastats_line Hc)) as H.
  change (search RAM_re tegrastats_line) with (Some ["1683"; "7762"]%string) in H.
  exact H.
Defined.

(** C6: on a line that the parser converts (so is every line whose numerals
    have at most 300 digits), [parse_tegrastats] returns a sample whose
    [cpu_usage_percent] is the sum of the percentages of the core
    entries of the bracketed list divided by their number, however many they
    are, and rounded to 2 decimals; the field is absent when the list holds no
    core entry, and no entry is read when the pattern is not found. The line
    with [CPU [11%@1113,8%@1113,9%@1113]] gives 9.33; the line with
    [CPU [off,off]] gives a sample without the field. *)
Theorem cpu_usage_is_average (line : string) :
  converts line = true ->
  (exists stats,
     parse_tegrastats line = Return stats
     /\ dict_get "cpu_usage_percent" stats
        = match cpu_values line with
          | [] => None
          | values =>
              Some (PyFloat (round2 (quotient (sum values)
                                              (Z.of_nat (List.length values)))))
          end)
  /\ (search CPU_re line = None -> cpu_values line = [])
  /\ (forall other, short_numerals other = true -> converts other = true)
  /\ cpu_values tegrastats_line = [11; 8; 9]
  /\ field "cpu_usage_percent" (parse_tegrastats tegrastats_line)
     = Some (PyFloat (of_decimal false 933 (-2)))
  /\ cpu_values cores_off_line = []
  /\ field "ram_used_mb" (parse_tegrastats cores_off_line) = Some (PyInt 1683)
  /\ field "cpu_usage_percent" (parse_tegrastats cores_off_line) = None.
Proof.
  intros Hc.
  split; [|split; [|split; [exact short_numerals_convert|splits; vm_compute; reflexivity]]].
  - exists (sample_of line). split; [now apply parse_tegrastats_converts|].
    unfold sample_of. rewrite gpu_temp_part_keeps by reflexivity.
    unfold cpu_field. destruct (cpu_values line) as [|v vs].
    + unfold ram_fields. now destruct (ram_values line) as [[used total]|].
    + apply dict_get_set_same.
  - intros H. unfold cpu_values. now rewrite H.
Qed.

(** The line of tegrastats output that the source quotes: three cores. *)
Lemma cpu_usage_is_average_witness :
  converts tegrastats_line = true
  /\ cpu_values tegrastats_line = [11; 8; 9]
  /\ exists stats,
       parse_tegrastats tegrastats_line = Return stats
       /\ dict_get "cpu_usage_percent" stats
          = Some (PyFloat (round2 (quotient (sum [11; 8; 9]) 3))).
Proof.
  assert (Hc : converts tegrastats_line = true) by (vm_compute; reflexivity).
  split; [exact Hc|]. split; [vm_compute; reflexivity|].
  pose proof (proj1 (cpu_usage_is_average tegrastats_line Hc)) as H.
  change (cpu_values tegrastats_line) with [11; 8; 9] in H.
  exact H.
Defined.

(** C7: a line on which none of the four patterns matches makes the endpoint
    answer with the parse failure, status 500 and the raw line, an error
    unlike those of the other failures; and no answer of the endpoint is a
    sample with no field. *)
Theorem empty_telemetry_is_parse_failure (stdout : string) :
  search RAM_re (strip stdout) = None ->
  search CPU_re (strip stdout) = None ->
  search GPU_re (strip stdout) = None ->
  search TEMP_re (strip stdout) = None ->
  get_system_stats (Completed stdout)
    = {| body_of := ParseFailure (strip stdout); status_code := 500 |}
  /\ (forall run, body_of (get_system_stats run) <> Sample [])
  /\ (forall run stats, body_of (get_system_stats run) = Sample stats ->
        status_code (get_system_stats run) = 200)
  /\ (forall run raw, body_of (get_system_stats run) = ParseFailure raw ->
        status_code (get_system_stats run) = 500)
  /\ (forall details,
        error_text (ParseFailure (strip stdout)) <> error_text ToolNotFound
        /\ error_text (ParseFailure (strip stdout)) <> error_text (RunFailed details)
        /\ error_text (ParseFailure (strip stdout)) <> error_text (Unexpected details)).
Proof.
  intros Hram Hcpu Hgpu Htemp. splits.
  - unfold get_system_stats, parse_tegrastats.
    now rewrite Hram, Hcpu, Hgpu, Htemp.
  - intros run. unfold get_system_stats.
    destruct run as [| | |out]; try discriminate.
    destruct (parse_tegrastats (strip out)) as [[|kv d]|e]; simpl; discriminate.
  - intros run stats. unfold get_system_stats.
    destruct run as [| | |out]; try discriminate.
    destruct (parse_tegrastats (strip out)) as [[|kv d]|e]; simpl;
      try discriminate; reflexivity.
  - intros run raw. unfold get_system_stats.
    destruct run as [| | |out]; try discriminate.
    destruct (parse_tegrastats (strip out)) as [[|kv d]|e]; simpl;
      try discriminate; reflexivity.
  - intros details. splits; discriminate.
Qed.

(** An error message of the tool instead of a reading. *)
Lemma empty_telemetry_is_parse_failure_witness :
  search RAM_re (strip unrelated_line) = None
  /\ get_system_stats (Completed unrelated_line)
     = {| body_of := ParseFailure (strip unrelated_line); status_code := 500 |}.
Proof.
  split; [vm_compute; reflexivity|].
  refine (proj1 (empty_telemetry_is_parse_failure unrelated_line _ _ _ _));
    vm_compute; reflexivity.
Defined.

End StatsFacts.

Module NumberFacts.
Import F64 JsNum FloatFacts.

Lemma shr_m_shr_1 (mrs : shr_record) :
  0 <= shr_m mrs -> shr_m (shr_1 mrs) = shr_m mrs / 2.
Proof.
  destruct mrs as [m r s]. cbn [shr_m]. intros H.
  destruct m as [|[p|p|]|p]; try lia; cbn [shr_1 shr_m].
  - reflexivity.
  - apply Z.div_unique with (r := 1); lia.
  - apply Z.div_unique with (r := 0); lia.
  - reflexivity.
Qed.

Lemma shr_m_iter (n : positive) :
  forall mrs, 0 <= shr_m mrs ->
    shr_m (iter_pos shr_1 n mrs) = shr_m mrs / 2 ^ Z.pos n.
Proof.
  induction n as [n IH|n IH|]; intros mrs H; simpl iter_pos.
  - assert (H1 : 0 <= shr_m (shr_1 mrs))
      by (rewrite shr_m_shr_1 by exact H; apply Z.div_pos; lia).
    assert (H2 : 0 <= shr_m (iter_pos shr_1 n (shr_1 mrs)))
      by (rewrite IH by exact H1; apply Z.div_pos; [lia|apply Z.pow_pos_nonneg; lia]).
    rewrite IH by exact H2. rewrite IH by exact H1. rewrite shr_m_shr_1 by exact H.
    rewrite !Z.div_div by (try apply Z.pow_pos_nonneg; lia).
    replace (2 ^ Z.pos n~1) with (2 * (2 ^ Z.pos n * 2 ^ Z.pos n)); [reflexivity|].
    replace (Z.pos n~1) with (1 + (Z.pos n + Z.pos n)) by lia.
    rewrite !Z.pow_add_r by lia. reflexivity.
  - assert (H2 : 0 <= shr_m (iter_pos shr_1 n mrs))
      by (rewrite IH by exact H; apply Z.div_pos; [lia|apply Z.pow_pos_nonneg; lia]).
    rewrite IH by exact H2. rewrite IH by exact H.
    rewrite !Z.div_div by (try apply Z.pow_pos_nonneg; lia).
    replace (2 ^ Z.pos n~0) with (2 ^ Z.pos n * 2 ^ Z.pos n); [reflexivity|].
    replace (Z.pos n~0) with (Z.pos n + Z.pos n) by lia.
    rewrite !Z.pow_add_r by lia. reflexivity.
  - rewrite shr_m_shr_1 by exact H. reflexivity.
Qed.

Lemma shr_m_record (m : Z) (l : location) : shr_m (shr_record_of_loc m l) = m.
Proof. destruct l as [|[| |]]; reflexivity. Qed.

Lemma Zdigits2_bounds (p : positive) :
  2 ^ (Zdigits2 (Z.pos p) - 1) <= Z.pos p < 2 ^ Zdigits2 (Z.pos p).
Proof.
  rewrite Zdigits2_log2.
  pose proof (Z.log2_spec (Z.pos p) ltac:(lia)) as H.
  replace (Z.log2 (Z.pos p) + 1 - 1) with (Z.log2 (Z.pos p)) by lia.
  replace (Z.log2 (Z.pos p) + 1) with (Z.succ (Z.log2 (Z.pos p))) by lia.
  exact H.
Qed.

(** Shifting a positive mantissa to its format leaves it positive, the
    exponent being no smaller, when the number is above the least exponent. *)
Lemma shr_fexp_positive (p : positive) (e : Z) (l : location) :
  emin prec emax < e + Zdigits2 (Z.pos p) ->
  0 < shr_m (fst (shr_fexp prec emax (Z.pos p) e l))
  /\ e <= snd (shr_fexp prec emax (Z.pos p) e l).
Proof.
  intros He. unfold shr_fexp, shr.
  pose proof (Zdigits2_bounds p) as [Hlo Hhi].
  set (d := Zdigits2 (Z.pos p)) in *.
  assert (Hd : 1 <= d).
  { unfold d. rewrite Zdigits2_log2. pose proof (Z.log2_nonneg (Z.pos p)). lia. }
  destruct (fexp prec emax (d + e) - e) as [|n|n] eqn:En; simpl fst; simpl snd.
  - rewrite shr_m_record. lia.
  - rewrite shr_m_iter by (rewrite shr_m_record; lia). rewrite shr_m_record.
    assert (Hn : Z.pos n <= d - 1).
    { unfold fexp, emin, prec, emax in *. lia. }
    split; [|lia].
    apply Z.div_str_pos. split; [apply Z.pow_pos_nonneg; lia|].
    apply Z.le_trans with (2 ^ (d - 1)); [|exact Hlo].
    apply Z.pow_le_mono_r; lia.
  - rewrite shr_m_record. lia.
Qed.

Lemma round_nearest_even_positive (m : Z) (l : location) :
  0 < m -> m <= round_nearest_even m l.
Proof.
  intros H. unfold round_nearest_even.
  destruct l as [|[| |]]; try lia. destruct (IntDef.Z.even m); lia.
Qed.

(** Rounding a positive mantissa gives a positive number, whose exponent is at
    least the exponent given. *)
Lemma binary_round_aux_positive (p : positive) (e : Z) (l : location) :
  emin prec emax < e + Zdigits2 (Z.pos p) ->
  binary_round_aux prec emax false (Z.pos p) e l = S754_infinity false
  \/ exists m e', binary_round_aux prec emax false (Z.pos p) e l = S754_finite false m e'
                  /\ e <= e'
                  /\ snd (shr_fexp prec emax (Z.pos p) e l) <= e'.
Proof.
  intros He. unfold binary_round_aux.
  destruct (shr_fexp_positive p e l He) as [H1 H2].
  destruct (shr_fexp prec emax (Z.pos p) e l) as [mrs' e'] eqn:E1.
  simpl fst in H1. simpl snd in H2.
  pose proof (round_nearest_even_positive (shr_m mrs') (loc_of_shr_record mrs') H1) as Hr.
  destruct (round_nearest_even (shr_m mrs') (loc_of_shr_record mrs')) as [|m1|m1] eqn:Em;
    try lia.
  assert (He' : emin prec emax < e' + Zdigits2 (Z.pos m1)).
  { assert (1 <= Zdigits2 (Z.pos m1)).
    { rewrite Zdigits2_log2. pose proof (Z.log2_nonneg (Z.pos m1)). lia. }
    assert (1 <= Zdigits2 (Z.pos p)).
    { rewrite Zdigits2_log2. pose proof (Z.log2_nonneg (Z.pos p)). lia. }
    assert (Hfe : fexp prec emax (Zdigits2 (Z.pos p) + e) <= e' \/ e <= e').
    { right. exact H2. }
    unfold shr_fexp, shr in E1.
    destruct (fexp prec emax (Zdigits2 (Z.pos p) + e) - e) as [|n|n] eqn:En;
      inversion E1; subst; unfold fexp, emin, prec, emax in *; lia. }
  destruct (shr_fexp_positive m1 e' loc_Exact He') as [H3 H4].
  destruct (shr_fexp prec emax (Z.pos m1) e' loc_Exact) as [mrs'' e''].
  simpl fst in H3. simpl snd in H4.
  destruct (shr_m mrs'') as [|m2|m2]; try lia.
  destruct (e'' <=? emax - prec); [right|now left].
  exists m2, e''. split; [reflexivity|]. simpl snd. lia.
Qed.

(** The double nearest to a positive integer is above zero. *)
Lemma of_Z_positive (q : positive) : gt (of_Z (Z.pos q)) (S754_zero false) = true.
Proof.
  unfold of_Z, binary_normalize, binary_round.
  destruct (shl_align q 0 (fexp prec emax (Z.pos (digits2_pos q) + 0))) as [mz ez] eqn:E.
  assert (He : emin prec emax < ez + Zdigits2 (Z.pos mz)).
  { assert (1 <= Zdigits2 (Z.pos mz)).
    { rewrite Zdigits2_log2. pose proof (Z.log2_nonneg (Z.pos mz)). lia. }
    unfold shl_align in E.
    destruct (fexp prec emax (Z.pos (digits2_pos q) + 0) - 0) as [|n|n] eqn:En;
      inversion E; subst; unfold fexp, emin, prec, emax in *; lia. }
  destruct (binary_round_aux_positive mz ez loc_Exact He) as [->|(m & e' & -> & _)];
    reflexivity.
Qed.

End NumberFacts.

Module IntegerFacts.
Import F64 JsNum Json FloatFacts NumberFacts Shapes.

Lemma pos_iter_xO (p k : positive) :
  Z.pos (PosDef.Pos.iter xO p k) = Z.pos p * 2 ^ Z.pos k.
Proof.
  change (PosDef.Pos.iter xO p k) with (Pos.iter xO p k).
  induction k as [|k IH] using Pos.peano_ind.
  - simpl. lia.
  - rewrite Pos.iter_succ, Pos2Z.inj_xO, IH, Pos2Z.inj_succ, Z.pow_succ_r by lia. lia.
Qed.

(** An integer of at most 53 bits is a double, its mantissa shifted to 53
    bits. *)
Lemma of_Z_exact (p : positive) :
  Zdigits2 (Z.pos p) <= 53 ->
  exists x, of_Z (Z.pos p) = S754_finite false x (Zdigits2 (Z.pos p) - 53)
            /\ Z.pos x = Z.pos p * 2 ^ (53 - Zdigits2 (Z.pos p)).
Proof.
  intros Hd.
  assert (Hd1 : 1 <= Zdigits2 (Z.pos p))
    by (rewrite Zdigits2_log2; pose proof (Z.log2_nonneg (Z.pos p)); lia).
  pose proof (Zdigits2_mul_pow2 p) as Hdig.
  set (d := Zdigits2 (Z.pos p)) in *.
  unfold of_Z, binary_normalize, binary_round.
  change (Z.pos (digits2_pos p)) with (Zdigits2 (Z.pos p)). fold d.
  assert (Hx : exists x, Z.pos x = Z.pos p * 2 ^ (53 - d)).
  { assert (0 < Z.pos p * 2 ^ (53 - d))
      by (apply Z.mul_pos_pos; [lia|apply Z.pow_pos_nonneg; lia]).
    destruct (Z.pos p * 2 ^ (53 - d)) as [|x|x]; try lia. now exists x. }
  destruct Hx as [x Hx]. exists x. split; [|exact Hx].
  assert (Hs : shl_align p 0 (fexp prec emax (d + 0)) = (x, d - 53)).
  { unfold shl_align.
    replace (fexp prec emax (d + 0)) with (d - 53)
      by (unfold fexp, emin, prec, emax; lia).
    destruct (d - 53 - 0) as [|k|k] eqn:Ek; try lia.
    - f_equal; [|lia]. apply Pos2Z.inj. rewrite Hx.
      replace (53 - d) with 0 by lia. simpl. lia.
    - f_equal. apply Pos2Z.inj. rewrite Hx, pos_iter_xO. f_equal. f_equal. lia. }
  rewrite Hs. unfold binary_round_aux, shr_fexp.
  assert (Hdx : Zdigits2 (Z.pos x) = 53) by (rewrite Hx, Hdig by lia; lia).
  rewrite Hdx.
  replace (fexp prec emax (53 + (d - 53)) - (d - 53)) with 0
    by (unfold fexp, emin, prec, emax; lia).
  cbn [shr shr_record_of_loc shr_m loc_of_shr_record round_nearest_even].
  rewrite Hdx.
  replace (fexp prec emax (53 + (d - 53)) - (d - 53)) with 0
    by (unfold fexp, emin, prec, emax; lia).
  cbn [shr shr_record_of_loc shr_m].
  replace (d - 53 <=? emax - prec) with true
    by (symmetry; apply Z.leb_le; unfold emax, prec; lia).
  reflexivity.
Qed.

(** An integer of more than 53 bits rounds to a double with a positive
    exponent, or to an infinity. *)
Lemma of_Z_large (p : positive) :
  53 < Zdigits2 (Z.pos p) ->
  of_Z (Z.pos p) = S754_infinity false
  \/ exists m e, of_Z (Z.pos p) = S754_finite false m e /\ 1 <= e.
Proof.
  intros Hd.
  unfold of_Z, binary_normalize, binary_round.
  change (Z.pos (digits2_pos p)) with (Zdigits2 (Z.pos p)).
  set (d := Zdigits2 (Z.pos p)) in *.
  assert (Hs : shl_align p 0 (fexp prec emax (d + 0)) = (p, 0)).
  { unfold shl_align.
    replace (fexp prec emax (d + 0)) with (d - 53)
      by (unfold fexp, emin, prec, emax; lia).
    destruct (d - 53 - 0) as [|k|k] eqn:Ek; try lia; reflexivity. }
  rewrite Hs.
  destruct (binary_round_aux_positive p 0 loc_Exact) as [->|(m & e & -> & _ & He)].
  - fold d. unfold emin, prec, emax. lia.
  - now left.
  - right. exists m, e. split; [reflexivity|].
    unfold shr_fexp, shr in He. fold d in He.
    replace (fexp prec emax (d + 0) - 0) with (d - 53) in He
      by (unfold fexp, emin, prec, emax; lia).
    destruct (d - 53) as [|k|k] eqn:Ek; try lia. simpl snd in He. lia.
Qed.

Lemma Zdigits2_le_53 (n : positive) : Z.pos n < 2 ^ 53 -> Zdigits2 (Z.pos n) <= 53.
Proof. intros H. rewrite Zdigits2_log2. apply Z.log2_lt_pow2 in H; lia. Qed.

Lemma finite_inj (s s' : bool) (m m' : positive) (e e' : Z) :
  S754_finite s m e = S754_finite s' m' e' -> m = m' /\ e = e'.
Proof. intros H. split; congruence. Qed.

(** Different positive integers, one of them below 2^53, are different
    doubles. *)
Lemma of_Z_injective (a b : positive) :
  Z.pos a < 2 ^ 53 -> of_Z (Z.pos a) = of_Z (Z.pos b) -> a = b.
Proof.
  intros Ha E.
  pose proof (Zdigits2_le_53 a Ha) as Hda.
  destruct (of_Z_exact a Hda) as (x & Ex & Hx). rewrite Ex in E.
  destruct (Z_le_gt_dec (Zdigits2 (Z.pos b)) 53) as [Hdb|Hdb].
  - destruct (of_Z_exact b Hdb) as (y & Ey & Hy). rewrite Ey in E.
    apply finite_inj in E. destruct E as [E1 E2]. subst y.
    assert (Hd : Zdigits2 (Z.pos a) = Zdigits2 (Z.pos b)) by lia.
    rewrite Hx, Hd in Hy.
    apply Z.mul_reg_r in Hy; [now inversion Hy|].
    pose proof (Z.pow_pos_nonneg 2 (53 - Zdigits2 (Z.pos b)) ltac:(lia) ltac:(lia)). lia.
  - destruct (of_Z_large b ltac:(lia)) as [Eb|(m & e & Eb & He)]; rewrite Eb in E.
    + discriminate.
    + apply finite_inj in E. destruct E as [E1 E2]. lia.
Qed.

Lemma SFeqb_of_Z (a b : positive) :
  Z.pos a < 2 ^ 53 ->
  SFeqb (of_Z (Z.pos b)) (of_Z (Z.pos a)) = (Z.pos b =? Z.pos a).
Proof.
  intros Ha.
  destruct (Z.eqb_spec (Z.pos b) (Z.pos a)) as [E|E].
  - injection E as ->.
    destruct (of_Z_exact a (Zdigits2_le_53 a Ha)) as (x & -> & _).
    unfold SFeqb, SFcompare. rewrite Z.compare_refl.
    change (PosDef.Pos.compare_cont Eq x x) with (Pos.compare x x).
    now rewrite Pos.compare_refl.
  - destruct (SFeqb (of_Z (Z.pos b)) (of_Z (Z.pos a))) eqn:Hq; [|reflexivity].
    exfalso. apply E. f_equal. symmetry. apply of_Z_injective; [exact Ha|].
    destruct (of_Z_exact a (Zdigits2_le_53 a Ha)) as (x & Ex & _).
    rewrite Ex in *.
    destruct (of_Z (Z.pos b)) as [sb|sb| |sb mb eb];
      unfold SFeqb, SFcompare in Hq; try discriminate;
      try (destruct sb; discriminate).
    destruct sb; [discriminate|].
    destruct (Z.compare_spec eb (Zdigits2 (Z.pos a) - 53)) as [He|He|He];
      try discriminate.
    change (PosDef.Pos.compare_cont Eq mb x) with (Pos.compare mb x) in Hq.
    destruct (Pos.compare_spec mb x) as [Hm|Hm|Hm]; try discriminate.
    now subst.
Qed.

(** [v < 10^n] for the integer [v] written as the fraction [v * q / q]. *)
Lemma below_pow10_integer (v q n : Z) :
  0 < v -> 0 < q ->
  below_pow10 (v * q) q n = (0 <=? n) && (v <? 10 ^ n).
Proof.
  intros Hv Hq. unfold below_pow10.
  destruct (Z.leb_spec 0 n) as [Hn|Hn]; cbn [andb].
  - pose proof (Z.pow_pos_nonneg 10 n ltac:(lia) Hn) as Hp.
    destruct (Z.ltb_spec (v * q) (q * 10 ^ n)) as [H|H],
             (Z.ltb_spec v (10 ^ n)) as [H'|H']; try reflexivity; nia.
  - pose proof (Z.pow_pos_nonneg 10 (- n) ltac:(lia) ltac:(lia)) as Hp.
    apply Z.ltb_ge.
    assert (1 <= v * 10 ^ (- n)) by nia.
    replace (v * q * 10 ^ (- n)) with (q * (v * 10 ^ (- n))) by ring. nia.
Qed.

Lemma first_pow10_above_spec (p q : Z) (fuel : nat) :
  forall start,
    let r := first_pow10_above fuel p q start in
    start <= r <= start + Z.of_nat fuel
    /\ (forall i, start <= i < r -> below_pow10 p q i = false)
    /\ (r < start + Z.of_nat fuel -> below_pow10 p q r = true).
Proof.
  induction fuel as [|f IH]; intros start; cbv zeta.
  - simpl. splits; intros; lia.
  - cbn [first_pow10_above].
    destruct (below_pow10 p q start) eqn:E.
    + splits; intros; try lia. exact E.
    + specialize (IH (start + 1)). cbv zeta in IH. destruct IH as (I1 & I2 & I3).
      splits; try lia.
      * intros i Hi. destruct (Z.eq_dec i start) as [->|Hne]; [exact E|].
        apply I2. lia.
      * intros Hr. apply I3. lia.
Qed.

(** Where the search for the decimal exponent of an integer of at most 53 bits
    starts, and that it is near enough. *)
Lemma decimal_start_near (L : Z) :
  0 <= L <= 52 ->
  let start := L * 30103 / 100000 - 2 in
  2 ^ (L + 1) <= 10 ^ (start + 8)
  /\ (start <= 1 \/ 10 ^ (start - 1) <= 2 ^ L)
  /\ -2 <= start <= 13.
Proof.
  intros HL.
  assert (Hall : forallb (fun L => let start := L * 30103 / 100000 - 2 in
                                   (2 ^ (L + 1) <=? 10 ^ (start + 8))
                                   && ((start <=? 1) || (10 ^ (start - 1) <=? 2 ^ L))
                                   && (-2 <=? start) && (start <=? 13))
                         (map Z.of_nat (seq 0 53)) = true) by (vm_compute; reflexivity).
  rewrite forallb_forall in Hall.
  specialize (Hall L). cbv zeta in Hall.
  assert (Hin : In L (map Z.of_nat (seq 0 53))).
  { replace L with (Z.of_nat (Z.to_nat L)) by lia. apply in_map, in_seq. lia. }
  specialize (Hall Hin).
  repeat (apply andb_true_iff in Hall; destruct Hall as [Hall ?]).
  cbv zeta. splits; lia.
Qed.

(** The decimal exponent found for an integer of at most 53 bits is its number
    of decimal digits. *)
Lemma decimal_exponent_integer (n : positive) (k : Z) :
  Z.pos n < 2 ^ 53 -> 0 <= k ->
  let D := decimal_exponent (Z.pos n * 2 ^ k) (2 ^ k) in
  1 <= D <= 16 /\ 10 ^ (D - 1) <= Z.pos n < 10 ^ D.
Proof.
  intros Hn Hk. cbv zeta. unfold decimal_exponent.
  rewrite Z.log2_mul_pow2, Z.log2_pow2 by lia.
  replace (k + Z.log2 (Z.pos n) - k) with (Z.log2 (Z.pos n)) by lia.
  set (L := Z.log2 (Z.pos n)).
  pose proof (Z.log2_spec (Z.pos n) ltac:(lia)) as HL. fold L in HL.
  assert (HL52 : 0 <= L <= 52).
  { split; [apply Z.log2_nonneg|].
    assert (L < 53) by (apply Z.log2_lt_pow2; lia). lia. }
  destruct (decimal_start_near L HL52) as (T1 & T2 & T3).
  set (start := L * 30103 / 100000 - 2) in *.
  pose proof (first_pow10_above_spec (Z.pos n * 2 ^ k) (2 ^ k) 8 start) as S.
  cbv zeta in S. destruct S as (S1 & S2 & S3).
  set (r := first_pow10_above 8 (Z.pos n * 2 ^ k) (2 ^ k) start) in *.
  assert (Hq : 0 < 2 ^ k) by (apply Z.pow_pos_nonneg; lia).
  assert (Hb : forall i, below_pow10 (Z.pos n * 2 ^ k) (2 ^ k) i
                         = (0 <=? i) && (Z.pos n <? 10 ^ i))
    by (intros i; apply below_pow10_integer; lia).
  assert (Hr : 0 <= r /\ Z.pos n < 10 ^ r).
  { destruct (Z_lt_ge_dec r (start + Z.of_nat 8)) as [Hlt|Hge].
    - specialize (S3 Hlt). rewrite Hb in S3. apply andb_true_iff in S3. lia.
    - assert (r = start + 8) by lia. subst r. split; [lia|].
      replace (first_pow10_above 8 (Z.pos n * 2 ^ k) (2 ^ k) start) with (start + 8)
        by lia.
      replace (Z.succ L) with (L + 1) in HL by lia. lia. }
  destruct Hr as [Hr0 Hr1].
  assert (Hr2 : 1 <= r).
  { destruct (Z.eq_dec r 0) as [E|E]; [|lia]. rewrite E in Hr1. simpl in Hr1. lia. }
  assert (Hr3 : 10 ^ (r - 1) <= Z.pos n).
  { destruct (Z_lt_ge_dec (r - 1) start) as [Hlt|Hge].
    - assert (r = start) by lia.
      destruct T2 as [T2|T2].
      + assert (r = 1) by lia. replace (r - 1) with 0 by lia. simpl. lia.
      + replace (r - 1) with (start - 1) by lia. lia.
    - specialize (S2 (r - 1) ltac:(lia)). rewrite Hb in S2.
      apply andb_false_iff in S2. destruct S2 as [S2|S2]; lia. }
  splits; try lia.
  assert (H16 : r - 1 < 16).
  { apply (Z.pow_lt_mono_r_iff 10); lia. }
  lia.
Qed.

Lemma shortest_from_step (f : nat) (x : number) (p q n0 k : Z) :
  shortest_from (S f) x p q n0 k
  = let sc := n0 - k in
    let pp := if 0 <=? sc then p else p * 10 ^ (- sc) in
    let qq := if 0 <=? sc then q * 10 ^ sc else q in
    let lo := pp / qq in
    let hi := lo + 1 in
    let lo_ok := SFeqb (of_decimal false lo sc) x in
    let hi_ok := SFeqb (of_decimal false hi sc) x in
    let pick (s : Z) := if s =? 10 ^ k then (10 ^ (k - 1), k, n0 + 1) else (s, k, n0) in
    let dlo := pp - lo * qq in
    let dhi := hi * qq - pp in
    if lo_ok && hi_ok then
      pick (if dlo <? dhi then lo
            else if dhi <? dlo then hi
            else if Z.even lo then lo else hi)
    else if lo_ok then pick lo
    else if hi_ok then pick hi
    else shortest_from f x p q n0 (k + 1).
Proof. reflexivity. Qed.

Lemma of_decimal_integer (m e : Z) :
  0 < m -> 0 <= e -> of_decimal false m e = of_Z (m * 10 ^ e).
Proof.
  intros Hm He. unfold of_decimal, of_Z.
  destruct m as [|p|p]; try lia. destruct e as [|e|e]; try lia; reflexivity.
Qed.

(** The shortest digits of an integer of at most 53 bits: the integer without
    its trailing zeros. *)
Lemma shortest_from_integer (n : positive) (q D : Z) :
  Z.pos n < 2 ^ 53 -> 0 < q ->
  10 ^ (D - 1) <= Z.pos n < 10 ^ D ->
  forall (fuel : nat) (k : Z),
    1 <= k <= D -> D - k < Z.of_nat fuel ->
    exists k' s,
      k <= k' <= D /\ 0 < s /\ Z.pos n = s * 10 ^ (D - k')
      /\ shortest_from fuel (of_Z (Z.pos n)) (Z.pos n * q) q D k = (s, k', D).
Proof.
  intros Hn Hq HD. induction fuel as [|f IH]; intros k Hk Hf; [lia|].
  rewrite shortest_from_step. cbv zeta.
  set (sc := D - k). assert (Hsc : 0 <= sc) by (unfold sc; lia).
  replace (0 <=? sc) with true by (symmetry; apply Z.leb_le; exact Hsc).
  assert (Hp : 0 < 10 ^ sc) by (apply Z.pow_pos_nonneg; lia).
  assert (Hlo : Z.pos n * q / (q * 10 ^ sc) = Z.pos n / 10 ^ sc).
  { rewrite (Z.mul_comm (Z.pos n) q). apply Z.div_mul_cancel_l; lia. }
  rewrite Hlo. set (lo := Z.pos n / 10 ^ sc).
  assert (Hdm : Z.pos n = 10 ^ sc * lo + Z.pos n mod 10 ^ sc)
    by (apply Z.div_mod; lia).
  pose proof (Z.mod_pos_bound (Z.pos n) (10 ^ sc) Hp) as Hmod.
  assert (H10 : 10 ^ D = 10 ^ k * 10 ^ sc).
  { unfold sc. rewrite <- Z.pow_add_r by lia. f_equal. lia. }
  assert (H10' : 10 ^ (D - 1) = 10 ^ (k - 1) * 10 ^ sc).
  { unfold sc. rewrite <- Z.pow_add_r by lia. f_equal. lia. }
  assert (Hk1 : 0 < 10 ^ (k - 1)) by (apply Z.pow_pos_nonneg; lia).
  assert (Hlo1 : 1 <= lo) by (unfold lo; apply Z.div_le_lower_bound; nia).
  assert (Hlo2 : lo < 10 ^ k) by nia.
  rewrite !of_decimal_integer by lia.
  assert (Ha : exists a, lo * 10 ^ sc = Z.pos a).
  { destruct (lo * 10 ^ sc) as [|a|a] eqn:E; try nia. now exists a. }
  assert (Hb : exists b, (lo + 1) * 10 ^ sc = Z.pos b).
  { destruct ((lo + 1) * 10 ^ sc) as [|b|b] eqn:E; try nia. now exists b. }
  destruct Ha as [a Ha], Hb as [b Hb]. rewrite Ha, Hb.
  rewrite !SFeqb_of_Z by exact Hn. rewrite <- Ha, <- Hb.
  replace ((lo + 1) * 10 ^ sc =? Z.pos n) with false by (symmetry; apply Z.eqb_neq; nia).
  rewrite andb_false_r.
  destruct (Z.eqb_spec (lo * 10 ^ sc) (Z.pos n)) as [E|E].
  - replace (lo =? 10 ^ k) with false by (symmetry; apply Z.eqb_neq; lia).
    exists k, lo. splits; try lia; [symmetry; exact E|reflexivity].
  - assert (Hk' : k < D).
    { destruct (Z.eq_dec k D) as [->|]; [|lia].
      exfalso. apply E. unfold lo, sc. replace (D - D) with 0 by lia.
      simpl. rewrite Z.div_1_r. lia. }
    destruct (IH (k + 1) ltac:(lia) ltac:(lia)) as (k' & s & I1 & I2 & I3 & I4).
    exists k', s. splits; try lia. exact I4.
Qed.

Lemma digit_of_value (v : Z) :
  0 <= v < 10 ->
  is_digit (Z.to_N (48 + v)) = true
  /\ digit_value (Z.to_N (48 + v)) = v
  /\ (0 < v -> Z.to_N (48 + v) <> 48%N).
Proof.
  intros H. unfold is_digit, digit_value. splits.
  - apply andb_true_iff. split; apply N.leb_le; lia.
  - lia.
  - lia.
Qed.

(** The decimal digits of an integer read back as the integer. *)
Lemma digits_fuel_run (f : nat) :
  forall n, 0 <= n < 10 ^ Z.of_nat (S f) ->
    exists L, 1 <= L
      /\ (forall acc t a c,
            digits_run (digits_fuel (S f) n acc ++ t) a c
            = digits_run (acc ++ t) (a * 10 ^ L + n) (c + L))
      /\ (0 < n -> forall acc, exists c0 tl,
            digits_fuel (S f) n acc = c0 :: tl /\ c0 <> 48%N)
      /\ (forall acc, exists c0 tl,
            digits_fuel (S f) n acc = c0 :: tl /\ is_digit c0 = true).
Proof.
  induction f as [|f IH]; intros n Hn.
  - assert (Hn' : 0 <= n < 10) by (simpl in Hn; lia).
    assert (Hm : n mod 10 = n) by (apply Z.mod_small; lia).
    destruct (digit_of_value n Hn') as (D1 & D2 & D3).
    exists 1. splits; [lia| | |].
    + intros acc t a c. cbn [digits_fuel]. rewrite Hm.
      replace (n <? 10) with true by (symmetry; apply Z.ltb_lt; lia).
      cbn [app digits_run]. rewrite D1, D2. f_equal. lia.
    + intros H0 acc. cbn [digits_fuel]. rewrite Hm.
      replace (n <? 10) with true by (symmetry; apply Z.ltb_lt; lia).
      eexists _, _. split; [reflexivity|]. now apply D3.
    + intros acc. cbn [digits_fuel]. rewrite Hm.
      replace (n <? 10) with true by (symmetry; apply Z.ltb_lt; lia).
      eexists _, _. split; [reflexivity|exact D1].
  - assert (Hmod : 0 <= n mod 10 < 10) by (apply Z.mod_pos_bound; lia).
    destruct (digit_of_value (n mod 10) Hmod) as (D1 & D2 & D3).
    destruct (Z.ltb_spec n 10) as [Hlt|Hge].
    + assert (Hm : n mod 10 = n) by (apply Z.mod_small; lia).
      exists 1. splits; [lia| | |].
      * intros acc t a c. cbn [digits_fuel].
        replace (n <? 10) with true by (symmetry; apply Z.ltb_lt; lia).
        cbn [app digits_run]. rewrite D1, D2, Hm. f_equal. lia.
      * intros H0 acc. cbn [digits_fuel].
        replace (n <? 10) with true by (symmetry; apply Z.ltb_lt; lia).
        eexists _, _. split; [reflexivity|]. apply D3. lia.
      * intros acc. cbn [digits_fuel].
        replace (n <? 10) with true by (symmetry; apply Z.ltb_lt; lia).
        eexists _, _. split; [reflexivity|exact D1].
    + assert (Hdiv : 0 <= n / 10 < 10 ^ Z.of_nat (S f)).
      { split; [apply Z.div_pos; lia|].
        apply Z.div_lt_upper_bound; [lia|].
        rewrite <- Z.pow_succ_r by lia.
        replace (Z.succ (Z.of_nat (S f))) with (Z.of_nat (S (S f))) by lia. lia. }
      destruct (IH (n / 10) Hdiv) as (L & HL & Hrun & Hhead & Hdig).
      assert (Hpos : 0 < n / 10) by (apply Z.div_str_pos; lia).
      exists (L + 1). splits; [lia| | |].
      * intros acc t a c.
        change (digits_fuel (S (S f)) n acc)
          with (let acc' := Z.to_N (48 + n mod 10) :: acc in
                if n <? 10 then acc' else digits_fuel (S f) (n / 10) acc').
        cbv zeta.
        replace (n <? 10) with false by (symmetry; apply Z.ltb_ge; lia).
        rewrite Hrun. cbn [app digits_run]. rewrite D1, D2.
        f_equal; [|lia].
        rewrite Z.pow_add_r by lia. change (10 ^ 1) with 10.
        pose proof (Z.div_mod n 10 ltac:(lia)). lia.
      * intros H0 acc.
        change (digits_fuel (S (S f)) n acc)
          with (let acc' := Z.to_N (48 + n mod 10) :: acc in
                if n <? 10 then acc' else digits_fuel (S f) (n / 10) acc').
        cbv zeta.
        replace (n <? 10) with false by (symmetry; apply Z.ltb_ge; lia).
        apply Hhead, Hpos.
      * intros acc.
        change (digits_fuel (S (S f)) n acc)
          with (let acc' := Z.to_N (48 + n mod 10) :: acc in
                if n <? 10 then acc' else digits_fuel (S f) (n / 10) acc').
        cbv zeta.
        replace (n <? 10) with false by (symmetry; apply Z.ltb_ge; lia).
        apply Hdig.
Qed.

Lemma decimal_digits_run (s : Z) :
  0 < s ->
  exists L, 1 <= L
    /\ (forall t a c,
          digits_run (decimal_digits s ++ t) a c = digits_run t (a * 10 ^ L + s) (c + L))
    /\ exists c0 tl, decimal_digits s = c0 :: tl /\ c0 <> 48%N /\ is_digit c0 = true.
Proof.
  intros Hs. unfold decimal_digits.
  assert (Hb : 0 <= s < 10 ^ Z.of_nat (S (Z.to_nat (Z.log2 s)))).
  { split; [lia|].
    pose proof (Z.log2_spec s Hs) as [_ Hl]. pose proof (Z.log2_nonneg s) as H0.
    replace (Z.of_nat (S (Z.to_nat (Z.log2 s)))) with (Z.succ (Z.log2 s)) by lia.
    apply Z.lt_le_trans with (2 ^ Z.succ (Z.log2 s)); [exact Hl|].
    apply Z.pow_le_mono_l. lia. }
  destruct (digits_fuel_run (Z.to_nat (Z.log2 s)) s Hb) as (L & HL & Hrun & Hhead & Hdig).
  exists L. splits; [exact HL| |].
  - intros t a c. rewrite Hrun. reflexivity.
  - destruct (Hhead Hs []) as (c0 & tl & E & Hc).
    destruct (Hdig []) as (c1 & tl1 & E1 & Hd1).
    rewrite E in E1. injection E1 as <- <-.
    now exists c0, tl.
Qed.

Lemma zeros_run (z : nat) (t : jsstring) (a c : Z) :
  digits_run (repeat 48%N z ++ t) a c = digits_run t (a * 10 ^ Z.of_nat z) (c + Z.of_nat z).
Proof.
  revert a c. induction z as [|z IH]; intros a c.
  - simpl. f_equal; lia.
  - cbn [repeat app digits_run]. change (is_digit 48) with true. cbv iota.
    rewrite IH. change (digit_value 48) with 0. f_equal; [|lia].
    rewrite Nat2Z.inj_succ, Z.pow_succ_r by lia. lia.
Qed.

(** Number::toString of a positive integer below 2^53: its decimal digits, as
    the digits before its trailing zeros and then the zeros. *)
Lemma Number_toString_integer (n : positive) :
  Z.pos n < 2 ^ 53 ->
  exists s z,
    0 < s /\ 0 <= z /\ Z.pos n = s * 10 ^ z
    /\ Number_toString (of_Z (Z.pos n)) = decimal_digits s ++ zeros z.
Proof.
  intros Hn.
  pose proof (Zdigits2_le_53 n Hn) as Hd.
  destruct (of_Z_exact n Hd) as (m & Em & Hm).
  assert (Hd1 : 1 <= Zdigits2 (Z.pos n))
    by (rewrite Zdigits2_log2; pose proof (Z.log2_nonneg (Z.pos n)); lia).
  set (d := Zdigits2 (Z.pos n)) in *.
  set (k := 53 - d). assert (Hk : 0 <= k) by (unfold k; lia).
  assert (Hq : 0 < 2 ^ k) by (apply Z.pow_pos_nonneg; lia).
  pose proof (decimal_exponent_integer n k Hn Hk) as HD. cbv zeta in HD.
  set (D := decimal_exponent (Z.pos n * 2 ^ k) (2 ^ k)) in *.
  destruct HD as (HD1 & HD2).
  destruct (shortest_from_integer n (2 ^ k) D Hn Hq HD2 17 1 ltac:(lia) ltac:(lia))
    as (k' & s & Hk' & Hs & Hns & Hsh).
  exists s, (D - k'). splits; [exact Hs|lia|exact Hns|].
  rewrite Em. unfold Number_toString.
  assert (Hpq : (if 0 <=? d - 53 then Z.pos m * 2 ^ (d - 53) else Z.pos m)
                = Z.pos n * 2 ^ k
                /\ (if 0 <=? d - 53 then 1 else 2 ^ (- (d - 53))) = 2 ^ k).
  { destruct (Z.leb_spec 0 (d - 53)) as [H|H].
    - assert (d = 53) by lia. unfold k. rewrite Hm.
      replace (d - 53) with 0 by lia. replace (53 - d) with 0 by lia.
      simpl. split; lia.
    - unfold k. rewrite Hm. replace (- (d - 53)) with (53 - d) by lia. now split. }
  destruct Hpq as [-> ->]. fold D. rewrite <- Em, Hsh.
  replace ((-5 <=? D) && (D <=? 21)) with true
    by (symmetry; apply andb_true_iff; split; apply Z.leb_le; lia).
  replace (k' <=? D) with true by (symmetry; apply Z.leb_le; lia).
  reflexivity.
Qed.

Lemma digits_run_ender (rest : jsstring) (a c : Z) :
  ender rest = true -> digits_run rest a c = (a, c, rest).
Proof.
  destruct rest as [|x rest]; intros H; [reflexivity|].
  cbn [ender] in H. cbn [digits_run].
  replace (is_digit x) with false; [reflexivity|].
  unfold is_digit.
  destruct (N.eqb_spec x 44) as [->|]; [reflexivity|].
  destruct (N.eqb_spec x 93) as [->|]; [reflexivity|].
  destruct (N.eqb_spec x 125) as [->|]; [reflexivity|discriminate].
Qed.

Lemma ender_cases (rest : jsstring) :
  ender rest = true ->
  rest = [] \/ exists c t, rest = c :: t /\ (c = 44 \/ c = 93 \/ c = 125)%N.
Proof.
  destruct rest as [|x rest]; intros H; [now left|right].
  exists x, rest. split; [reflexivity|]. cbn [ender] in H.
  destruct (N.eqb_spec x 44); [now left|].
  destruct (N.eqb_spec x 93); [now right; left|].
  destruct (N.eqb_spec x 125); [now right; right|discriminate].
Qed.

Lemma parse_number_unsigned (c0 : N) (tl : jsstring) :
  c0 <> 45%N ->
  parse_number (c0 :: tl)
  = let s1 := c0 :: tl in
    let '(ip, ni, r1) := digits_run s1 0 0 in
    if (ni =? 0) || ((1 <? ni) && startsWith 48 s1) then None
    else
      let frac :=
        match r1 with
        | c :: t =>
            if N.eqb c 46 then
              let '(m, nf, r2) := digits_run t ip 0 in
              if nf =? 0 then None else Some (m, nf, r2)
            else Some (ip, 0, r1)
        | [] => Some (ip, 0, r1)
        end in
      match frac with
      | None => None
      | Some (m, nf, r2) =>
          match exponent_part r2 with
          | Some (ex, r3) => Some (of_decimal false m (ex - nf), r3)
          | None => None
          end
      end.
Proof.
  intros H. unfold parse_number.
  replace (N.eqb c0 45) with false by (symmetry; now apply N.eqb_neq).
  reflexivity.
Qed.

(** An integer from 0 to 2^53 - 1 is written by Number::toString, and hence by
    [JSON.stringify], as text that [JSON.parse] reads back as the same
    number. *)
Lemma parse_number_integer (n : Z) (rest : jsstring) :
  0 <= n < 2 ^ 53 ->
  ender rest = true ->
  parse_number (Number_toString (of_Z n) ++ rest) = Some (of_Z n, rest)
  /\ exists c0 tl, Number_toString (of_Z n) = c0 :: tl /\ is_digit c0 = true.
Proof.
  intros [H0 Hn] He.
  assert (Htail : forall v,
            match rest with
            | c :: t =>
                if N.eqb c 46 then
                  let '(m, nf, r2) := digits_run t v 0 in
                  if nf =? 0 then None else Some (m, nf, r2)
                else Some (v, 0, rest)
            | [] => Some (v, 0, rest)
            end = Some (v, 0, rest)
            /\ exponent_part rest = Some (0, rest)).
  { intros v.
    destruct (ender_cases rest He) as [ -> | (c & t & -> & [ -> | [ -> | -> ] ]) ];
      split; reflexivity. }
  destruct n as [|n|n]; [| |lia].
  - split; [|now exists 48%N, []].
    change (Number_toString (of_Z 0)) with [48%N]. cbn [app].
    rewrite parse_number_unsigned by discriminate. cbv zeta.
    cbn [digits_run]. change (is_digit 48) with true. cbv iota.
    rewrite digits_run_ender by exact He.
    cbn [Z.eqb Z.ltb Z.compare Z.add orb andb].
    destruct (Htail (10 * 0 + digit_value 48)) as [-> ->]. reflexivity.
  - destruct (Number_toString_integer n Hn) as (s & z & Hs & Hz & Hns & Et).
    rewrite Et.
    destruct (decimal_digits_run s Hs) as (L & HL & Hrun & c0 & tl & Ec & Hc0 & Hd0).
    split; [|exists c0, (tl ++ zeros z); split; [now rewrite Ec|exact Hd0]].
    assert (Hminus : c0 <> 45%N) by (intros ->; discriminate).
    assert (ES : (decimal_digits s ++ zeros z) ++ rest = c0 :: (tl ++ zeros z ++ rest))
      by (rewrite Ec, <- app_assoc; reflexivity).
    rewrite ES, parse_number_unsigned by exact Hminus. cbv zeta.
    rewrite <- ES, <- app_assoc, Hrun. unfold zeros.
    rewrite zeros_run, digits_run_ender by exact He.
    rewrite Z2Nat.id by lia.
    assert (Hsw : startsWith 48 (decimal_digits s ++ repeat 48%N (Z.to_nat z) ++ rest)
                  = false).
    { rewrite Ec. cbn [app startsWith]. now apply N.eqb_neq. }
    rewrite Hsw, andb_false_r.
    replace (0 + L + z =? 0) with false by (symmetry; apply Z.eqb_neq; lia).
    cbn [orb].
    destruct (Htail ((0 * 10 ^ L + s) * 10 ^ z)) as [-> ->].
    replace ((0 * 10 ^ L + s) * 10 ^ z) with (Z.pos n) by lia.
    rewrite of_decimal_integer by lia.
    replace (Z.pos n * 10 ^ (0 - 0)) with (Z.pos n) by (simpl; lia).
    reflexivity.
Qed.

End IntegerFacts.

(** * Further properties *)

Module SessionFacts.
Import F64 JsNum JsVal Stream App Page Chunks Samples PageSamples Aux.
Import StreamFacts ChatFacts PageFacts Panel.

(** The streaming flag is set exactly while a handler is in flight, and a chat
    stream and a pull are never in flight together. *)
Theorem streaming_flag_tracks_handlers (s : Sys) :
  reachable s ->
  (isStreaming (app s) = true <-> chats s <> [] \/ pulls s <> O)
  /\ (chats s = [] \/ pulls s = O)
  /\ (pulls s <= 1)%nat.
Proof.
  intros Hr. apply reachable_one_stream in Hr. unfold one_stream in Hr.
  destruct (isStreaming (app s)), (chats s) as [|t l], (pulls s) as [|n];
    simpl in Hr; try lia; splits; try (split; intros H); auto; try discriminate;
    try lia; try (left; discriminate); try (right; discriminate).
  destruct H as [H|H]; now elim H.
Qed.

(** The page with one chat stream in flight. *)
Lemma streaming_flag_tracks_handlers_witness :
  reachable busy_page
  /\ (isStreaming (app busy_page) = true
      <-> chats busy_page <> [] \/ pulls busy_page <> O).
Proof.
  assert (Hr : reachable busy_page) by (exists busy_events; vm_compute; reflexivity).
  split; [exact Hr|].
  exact (proj1 (streaming_flag_tracks_handlers busy_page Hr)).
Defined.

(** The cells that reading a chat stream leaves alone. *)
Lemma chat_reads_frame (chunks : list jsstring) :
  forall (a : AppState) (t : ChatTask),
    let r := fold_left (fun '(a, t) chunk => chat_read a t chunk) chunks (a, t) in
    selectedModel (fst r) = selectedModel a
    /\ selectedModelInfo (fst r) = selectedModelInfo a
    /\ systemStats (fst r) = systemStats a
    /\ pullModelName (fst r) = pullModelName a
    /\ pullStatus (fst r) = pullStatus a.
Proof.
  induction chunks as [|chunk chunks IH]; intros a t; cbv zeta.
  - simpl. splits; reflexivity.
  - simpl fold_left.
    destruct (chat_read a t chunk) as [a1 t1] eqn:E.
    specialize (IH a1 t1). cbv zeta in IH.
    assert (Ha : selectedModel a1 = selectedModel a
                 /\ selectedModelInfo a1 = selectedModelInfo a
                 /\ systemStats a1 = systemStats a
                 /\ pullModelName a1 = pullModelName a
                 /\ pullStatus a1 = pullStatus a).
    { unfold chat_read in E.
      destruct (chat_chunk (assistantContent t) chunk) as [c' d].
      inversion E; subst. destruct d; splits; reflexivity. }
    destruct IH as (I1 & I2 & I3 & I4 & I5).
    destruct Ha as (A1 & A2 & A3 & A4 & A5).
    rewrite I1, I2, I3, I4, I5. splits; assumption.
Qed.

(** One call of [handleChatSubmit] that is accepted, to its end. *)
Lemma chat_session_result (st : AppState) (chunks : list jsstring) (failed : bool) :
  prompt st <> [] ->
  isStreaming st = false ->
  selectedModel st <> [] ->
  truthy (selectedModelInfo st) = true ->
  exists st',
    chat_session st chunks failed = Some st'
    /\ chatHistory st'
       = chatHistory st
         ++ [{| role := user; content := prompt st |};
             {| role := assistant; content := chat_stream_content chunks |}]
         ++ (if failed then [chat_error_message] else [])
    /\ prompt st' = []
    /\ isStreaming st' = false
    /\ selectedModel st' = selectedModel st
    /\ pullStatus st' = pullStatus st.
Proof.
  intros Hp Hs Hm Hi. unfold chat_session, handleChatSubmit.
  rewrite Hs, Hi.
  destruct (prompt st) as [|p0 p] eqn:Ep; [now elim Hp|].
  destruct (selectedModel st) as [|m0 m] eqn:Em; [now elim Hm|].
  cbn [is_empty orb negb]. cbv beta iota.
  set (h1 := chatHistory st ++ [{| role := user; content := p0 :: p |}]).
  unfold chat_response.
  set (t0 := {| request_model := _; request_messages := _; chat_reading := true;
                assistantContent := _ |}).
  set (a0 := set_chatHistory _ _).
  pose proof (chat_reads_history chunks a0 t0 h1 eq_refl) as H. cbv zeta in H.
  pose proof (chat_reads_frame chunks a0 t0) as F. cbv zeta in F.
  destruct (fold_left _ chunks (a0, t0)) as [a3 t3].
  destruct H as (H1 & H2 & H3 & H4). destruct F as (F1 & F2 & F3 & F4 & F5).
  simpl in H1, H2, H3, H4, F1, F5.
  eexists. split; [reflexivity|].
  unfold chat_done, chat_failed. destruct failed; simpl;
    rewrite H1, H2, H4, F1, F5; splits; try reflexivity; try exact Em;
    unfold h1, chat_stream_content; now rewrite <- !app_assoc.
Qed.

(** A chat request that is accepted and whose stream ends: the history gains
    the prompt and one assistant message, whose content is the deltas of all
    the records decoded, in order; the prompt and the flag are cleared, the
    selection and the pull status are as before. *)
Theorem completed_chat_appends_prompt_and_reply (st : AppState) (chunks : list jsstring) :
  prompt st <> [] ->
  isStreaming st = false ->
  selectedModel st <> [] ->
  truthy (selectedModelInfo st) = true ->
  exists st',
    chat_session st chunks false = Some st'
    /\ chatHistory st'
       = chatHistory st
         ++ [{| role := user; content := prompt st |};
             {| role := assistant;
                content := List.concat (flat_map delta_of (chat_stream_records chunks)) |}]
    /\ prompt st' = []
    /\ isStreaming st' = false
    /\ selectedModel st' = selectedModel st
    /\ pullStatus st' = pullStatus st.
Proof.
  intros Hp Hs Hm Hi.
  destruct (chat_session_result st chunks false Hp Hs Hm Hi)
    as (st' & H1 & H2 & H3 & H4 & H5 & H6).
  exists st'. splits; try assumption.
  rewrite H2, app_nil_r. do 4 f_equal.
  exact (chat_stream_content_records chunks []).
Qed.

(** Three chunks: the second holds a record whose content has no primitive
    value, which adds nothing, the third a malformed line between two
    records. *)
Lemma completed_chat_appends_prompt_and_reply_witness :
  exists st',
    chat_session chat_ready
      [chat_partial_chunk; jsq "{'message':{'content':{'toString':1}}}" ++ [LF];
       chat_malformed_chunk] false = Some st'
    /\ chatHistory st'
       = [{| role := user; content := js "hi" |};
          {| role := assistant; content := js "Helab" |}]
    /\ prompt st' = [].
Proof.
  destruct (completed_chat_appends_prompt_and_reply
              chat_ready
              [chat_partial_chunk; jsq "{'message':{'content':{'toString':1}}}" ++ [LF];
               chat_malformed_chunk])
    as (st' & H1 & H2 & H3 & _); try (vm_compute; congruence).
  exists st'. splits; [exact H1| |exact H3].
  rewrite H2. vm_compute. reflexivity.
Defined.

(** What a pull leaves behind when it has read [chunks]. *)
Lemma pull_reads_outcome (chunks : list jsstring) (failed : bool) :
  forall st : AppState,
    let st' := pull_reads st chunks failed in
    isStreaming st' = false
    /\ pullStatus st'
       = match pull_stream_status chunks (pullStatus st) with
         | Ok _ => if failed then JStr (js "Error pulling model.")
                   else JStr (js "Model pulled successfully!")
         | Throw _ => JStr (js "Error pulling model.")
         end
    /\ chatHistory st' = chatHistory st
    /\ prompt st' = prompt st
    /\ pullModelName st' = pullModelName st.
Proof.
  induction chunks as [|chunk chunks IH]; intros st; cbv zeta.
  - simpl. destruct failed; splits; reflexivity.
  - simpl. unfold pull_read.
    destruct (pull_chunk (pullStatus st) chunk) as [status|e]; simpl.
    + specialize (IH (set_pullStatus status st)). cbv zeta in IH. exact IH.
    + splits; reflexivity.
Qed.

(** A pull always ends with the flag cleared and with one of two status texts,
    whatever the stream reported: the success text when every chunk was read
    and no line of it threw, the error text when [fetch] or a read failed or a
    line threw, be it a line that is no JSON, the record [null], or a
    progress record whose [total] or [completed] has no primitive value. The
    chat history, the prompt and the model name typed are untouched. (The
    selection is not: a pull that succeeds calls [fetchModels].) With no
    model name typed nothing happens. *)
Theorem pull_ends_with_final_status (st : AppState) (chunks : list jsstring)
  (failed : bool) :
  pullModelName st <> [] ->
  (exists st',
     pull_session st chunks failed = Some st'
     /\ isStreaming st' = false
     /\ pullStatus st'
        = match pull_stream_status chunks
                  (JStr (js "Pulling model: " ++ pullModelName st ++ js "...")) with
          | Ok _ => if failed then JStr (js "Error pulling model.")
                    else JStr (js "Model pulled successfully!")
          | Throw _ => JStr (js "Error pulling model.")
          end
     /\ chatHistory st' = chatHistory st
     /\ prompt st' = prompt st
     /\ pullModelName st' = pullModelName st)
  /\ (forall st0, pullModelName st0 = [] -> pull_session st0 chunks failed = None)
  /\ pull_line (JStr (js "Downloading... 7%"))
       (jsq "{'total':{'toString':1},'completed':1}")
     = Throw TypeError.
Proof.
  intros Hn. splits.
  - unfold pull_session, handlePullModel.
    destruct (pullModelName st) as [|n0 n] eqn:En; [now elim Hn|].
    cbn [is_empty]. cbv iota.
    eexists. split; [reflexivity|].
    match goal with
    | |- context [pull_reads ?a _ _] => pose proof (pull_reads_outcome chunks failed a) as H
    end.
    cbv zeta in H. destruct H as (H1 & H2 & H3 & H4 & H5).
    rewrite H1, H2, H3, H4, H5. simpl. rewrite En. splits; reflexivity.
  - intros st0 H0. unfold pull_session, handlePullModel. now rewrite H0.
  - vm_compute. reflexivity.
Qed.

(** The default model: a stream with a progress record and a final record, and
    a stream with a progress record whose total has no primitive value. *)
Lemma pull_ends_with_final_status_witness :
  (exists st',
     pull_session pull_ready [pull_one_third ++ [LF]; pull_status_only ++ [LF]] false
       = Some st'
     /\ isStreaming st' = false
     /\ pullStatus st' = JStr (js "Model pulled successfully!"))
  /\ (exists st',
        pull_session pull_ready
          [jsq "{'total':{'toString':1},'completed':1}" ++ [LF]] false = Some st'
        /\ isStreaming st' = false
        /\ pullStatus st' = JStr (js "Error pulling model.")).
Proof.
  split.
  - destruct (proj1 (pull_ends_with_final_status
                       pull_ready [pull_one_third ++ [LF]; pull_status_only ++ [LF]] false
                       ltac:(vm_compute; congruence)))
      as (st' & H1 & H2 & H3 & _).
    exists st'. splits; [exact H1|exact H2|].
    rewrite H3. vm_compute. reflexivity.
  - destruct (proj1 (pull_ends_with_final_status
                       pull_ready [jsq "{'total':{'toString':1},'completed':1}" ++ [LF]]
                       false ltac:(vm_compute; congruence)))
      as (st' & H1 & H2 & H3 & _).
    exists st'. splits; [exact H1|exact H2|].
    rewrite H3. vm_compute. reflexivity.
Defined.

End SessionFacts.

Module SearchFacts.
Import F64 Stats StatsSamples Aux Shapes RegexFacts.

Lemma ascii_eqb_refl (c : ascii) : Ascii.eqb c c = true.
Proof. apply Ascii.eqb_eq. reflexivity. Qed.

(** A literal outside a group consumes itself. *)
Lemma match_here_lit (key : string) (r : regex) (s : string) caps :
  match_here (lit key ++ r) (key ++ s) None caps = match_here r s None caps.
Proof.
  induction key as [|k key IH]; simpl; [reflexivity|].
  now rewrite ascii_eqb_refl.
Qed.

Lemma match_here_lit_fails (key : string) (r : regex) (s : string) caps :
  begins key s = false -> match_here (lit key ++ r) s None caps = None.
Proof.
  revert s. induction key as [|k key IH]; intros s; simpl; [discriminate|].
  destruct s as [|c s]; [reflexivity|].
  destruct (Ascii.eqb c k); simpl; [apply IH|reflexivity].
Qed.

Lemma begins_longer (key a b : string) :
  (String.length key <= String.length a)%nat ->
  begins key (a ++ b) = begins key a.
Proof.
  revert a. induction key as [|k key IH]; intros a H; [reflexivity|].
  destruct a as [|c a]; simpl in *; [lia|].
  rewrite IH by lia. reflexivity.
Qed.

Lemma append_assoc (a b c : string) : ((a ++ b) ++ c = a ++ (b ++ c))%string.
Proof. induction a as [|x a IH]; simpl; [reflexivity|now rewrite IH]. Qed.

Lemma length_append (a b : string) :
  String.length (a ++ b) = (String.length a + String.length b)%nat.
Proof. induction a as [|x a IH]; simpl; [reflexivity|now rewrite IH]. Qed.

(** The search passes over a text in which the key word of the pattern does
    not begin. *)
Lemma search_passes (key : string) (r : regex) (pre s : string) :
  first_at_end key pre = true ->
  search (lit key ++ r) (pre ++ key ++ s) = search (lit key ++ r) (key ++ s).
Proof.
  induction pre as [|c pre IH]; intros H; [reflexivity|].
  simpl in H. apply andb_true_iff in H. destruct H as [Hb H].
  apply negb_true_iff in Hb.
  change (String c pre ++ key ++ s)%string with (String c (pre ++ key ++ s)).
  cbn [search].
  rewrite (match_here_lit_fails key r (String c (pre ++ key ++ s))).
  - apply IH, H.
  - change (String c (pre ++ key ++ s)) with (String c pre ++ (key ++ s))%string.
    rewrite <- append_assoc.
    rewrite begins_longer; [exact Hb|].
    rewrite length_append. lia.
Qed.

Lemma search_found (r : regex) (s : string) groups rest :
  match_here r s None [] = Some (groups, rest) -> search r s = Some groups.
Proof. intros H. destruct s; simpl; now rewrite H. Qed.

(** No match where the key word occurs nowhere. *)
Lemma search_without_key (key : string) (r : regex) (s : string) :
  occurs key s = false -> search (lit key ++ r) s = None.
Proof.
  induction s as [|c s IH]; intros H; simpl in H; apply orb_false_iff in H;
    destruct H as [Hb H].
  - simpl. now rewrite match_here_lit_fails.
  - cbn [search]. rewrite match_here_lit_fails by exact Hb. apply IH, H.
Qed.

Lemma match_here_plus_step (a : atom) (r : regex) (c : ascii) (s : string) cur caps :
  match_here (Plus a :: r) (String c s) cur caps
  = if atom_matches a c then
      match match_here (Plus a :: r) s (push c cur) caps with
      | Some res => Some res
      | None => match_here r s (push c cur) caps
      end
    else None.
Proof. reflexivity. Qed.

Lemma match_here_plus_end (a : atom) (r : regex) cur caps :
  match_here (Plus a :: r) EmptyString cur caps = None.
Proof. reflexivity. Qed.

Lemma match_here_lazy_step (a : atom) (r : regex) (s : string) cur caps :
  match_here (LazyStar a :: r) s cur caps
  = match match_here r s cur caps with
    | Some res => Some res
    | None =>
        match s with
        | String c s' =>
            if atom_matches a c then match_here (LazyStar a :: r) s' (push c cur) caps
            else None
        | EmptyString => None
        end
    end.
Proof. destruct s; reflexivity. Qed.

Lemma match_here_plus_no_digit (r : regex) (s : string) cur caps :
  starts_with_digit s = false -> match_here (Plus Digit :: r) s cur caps = None.
Proof.
  destruct s as [|c s]; intros H; [reflexivity|].
  rewrite match_here_plus_step. simpl in H. simpl atom_matches. now rewrite H.
Qed.

(** A greedy run of digits stops where the digits stop when what follows
    matches there. *)
Lemma match_here_digits (run : string) (r : regex) (rest : string) cur caps res :
  digit_run run = true ->
  starts_with_digit rest = false ->
  match_here r rest (pushes (list_ascii_of_string run) cur) caps = Some res ->
  match_here (Plus Digit :: r) (run ++ rest) cur caps = Some res.
Proof.
  intros Hd Hr. destruct run as [|c run]; [discriminate|].
  simpl in Hd. revert c cur Hd.
  induction run as [|d run IH]; intros c cur Hd Hk.
  - simpl in Hd. rewrite andb_true_r in Hd.
    cbn [String.append]. rewrite match_here_plus_step. simpl atom_matches.
    rewrite Hd. rewrite match_here_plus_no_digit by exact Hr. exact Hk.
  - cbn [all_digits] in Hd. apply andb_true_iff in Hd. destruct Hd as [Hc Hd].
    specialize (IH d (push c cur) Hd Hk).
    change (String c (String d run) ++ rest)%string
      with (String c (String d run ++ rest)).
    rewrite match_here_plus_step. simpl atom_matches. rewrite Hc.
    now rewrite IH.
Qed.

(** A last greedy run of digits matches whenever a digit stands there. *)
Lemma match_here_last_digits (c : ascii) (s : string) cur caps :
  is_digit c = true ->
  exists rest, match_here [Plus Digit] (String c s) cur caps = Some (rev caps, rest).
Proof.
  revert c cur. induction s as [|d s IH]; intros c cur Hc.
  - exists EmptyString. rewrite match_here_plus_step. simpl atom_matches.
    rewrite Hc. reflexivity.
  - rewrite match_here_plus_step. simpl atom_matches. rewrite Hc.
    destruct (is_digit d) eqn:Hd.
    + destruct (IH d (push c cur) Hd) as [rest ->]. now exists rest.
    + rewrite match_here_plus_no_digit by exact Hd. now exists (String d s).
Qed.

(** A greedy run of digits matches nowhere when what follows matches after
    none of its digits. *)
Lemma match_here_digits_fail (run : string) (r : regex) (rest : string) caps :
  starts_with_digit rest = false ->
  (forall s cur, starts_with_digit s = true \/ s = rest -> match_here r s cur caps = None) ->
  all_digits run = true ->
  forall cur, match_here (Plus Digit :: r) (run ++ rest) cur caps = None.
Proof.
  intros Hr Hk. induction run as [|c run IH]; intros Hd cur.
  - simpl. apply match_here_plus_no_digit, Hr.
  - cbn [all_digits] in Hd. apply andb_true_iff in Hd. destruct Hd as [Hc Hd].
    cbn [String.append]. rewrite match_here_plus_step. simpl atom_matches.
    rewrite Hc, (IH Hd). apply Hk.
    destruct run as [|d run]; [now right|left].
    simpl in Hd. apply andb_true_iff in Hd. simpl. apply Hd.
Qed.

(** A lazy run stops at the first place where what follows matches: here at a
    closing bracket, the run having none and no line feed. *)
Lemma match_here_lazy_bracket (inner rest : string) acc caps :
  lacks "]" inner = true ->
  lacks "010" inner = true ->
  match_here [LazyStar AnyChar; GroupClose; One (Chr "]")]
             (inner ++ String "]" rest) (Some acc) caps
  = Some (rev (group_text (pushes (list_ascii_of_string inner) (Some acc)) :: caps),
          rest).
Proof.
  revert acc. induction inner as [|c inner IH]; intros acc Hb Hn.
  - rewrite match_here_lazy_step. simpl. reflexivity.
  - simpl in Hb, Hn. apply andb_true_iff in Hb, Hn.
    destruct Hb as [Hb1 Hb], Hn as [Hn1 Hn].
    cbn [String.append]. rewrite match_here_lazy_step.
    replace (match_here [GroupClose; One (Chr "]")] (String c (inner ++ String "]" rest))
               (Some acc) caps) with (@None (list string * string)).
    2:{ simpl. apply negb_true_iff in Hb1. now rewrite Hb1. }
    simpl atom_matches. rewrite Hn1. simpl push. rewrite IH by assumption.
    reflexivity.
Qed.

Lemma match_here_open (r : regex) (s : string) cur caps :
  match_here (GroupOpen :: r) s cur caps = match_here r s (Some []) caps.
Proof. reflexivity. Qed.

Lemma match_here_close (r : regex) (s : string) cur caps :
  match_here (GroupClose :: r) s cur caps = match_here r s None (group_text cur :: caps).
Proof. reflexivity. Qed.

Lemma match_here_chr (c : ascii) (r : regex) (s : string) cur caps :
  match_here (One (Chr c) :: r) (String c s) cur caps = match_here r s (push c cur) caps.
Proof. simpl. now rewrite ascii_eqb_refl. Qed.

Lemma group_text_string (s : string) :
  group_text (pushes (list_ascii_of_string s) (Some [])) = s.
Proof. rewrite group_text_pushes. apply string_of_list_ascii_of_string. Qed.

(** The RAM pattern is found where the key word first stands. *)
Lemma RAM_found (pre used total post : string) :
  first_at_end "RAM " pre = true ->
  digit_run used = true ->
  digit_run total = true ->
  search RAM_re (pre ++ "RAM " ++ used ++ "/" ++ total ++ "MB" ++ post)
  = Some [used; total].
Proof.
  intros Hp Hu Ht.
  change RAM_re
    with (lit "RAM " ++ [GroupOpen; Plus Digit; GroupClose; One (Chr "/");
                         GroupOpen; Plus Digit; GroupClose; One (Chr "M");
                         One (Chr "B")])%list.
  rewrite search_passes by exact Hp.
  apply search_found with (rest := post).
  rewrite match_here_lit, match_here_open.
  apply match_here_digits; [exact Hu|reflexivity|].
  rewrite match_here_close. cbn [String.append].
  rewrite match_here_chr, match_here_open.
  apply match_here_digits; [exact Ht|reflexivity|].
  rewrite match_here_close, !match_here_chr, !group_text_string. reflexivity.
Qed.

(** The GPU pattern likewise. *)
Lemma GPU_found (pre percent frequency post : string) :
  first_at_end "GR3D_FREQ " pre = true ->
  digit_run percent = true ->
  digit_run frequency = true ->
  search GPU_re (pre ++ "GR3D_FREQ " ++ percent ++ "%@" ++ frequency ++ post)
  = Some [percent].
Proof.
  intros Hp Hu Hf.
  change GPU_re
    with (lit "GR3D_FREQ " ++ [GroupOpen; Plus Digit; GroupClose; One (Chr "%");
                               One (Chr "@"); Plus Digit])%list.
  rewrite search_passes by exact Hp.
  destruct frequency as [|c frequency]; [discriminate|].
  simpl in Hf. apply andb_true_iff in Hf. destruct Hf as [Hc _].
  destruct (match_here_last_digits c (frequency ++ post) None [percent] Hc)
    as [rest Hrest].
  apply search_found with (rest := rest).
  rewrite match_here_lit, match_here_open.
  apply match_here_digits; [exact Hu|reflexivity|].
  rewrite match_here_close. cbn [String.append].
  rewrite !match_here_chr, group_text_string. exact Hrest.
Qed.

Lemma pushes_string_app (a b : string) cur :
  pushes (list_ascii_of_string (a ++ b)) cur
  = pushes (list_ascii_of_string b) (pushes (list_ascii_of_string a) cur).
Proof.
  revert cur. induction a as [|c a IH]; intros cur; [reflexivity|].
  simpl. apply IH.
Qed.

(** The temperature pattern is found where the key word first stands, when the
    reading has a fraction. *)
Lemma TEMP_found (pre whole fraction post : string) :
  first_at_end "SOC_TEMP " pre = true ->
  digit_run whole = true ->
  digit_run fraction = true ->
  search TEMP_re (pre ++ "SOC_TEMP " ++ whole ++ "." ++ fraction ++ "C" ++ post)
  = Some [(whole ++ "." ++ fraction)%string].
Proof.
  intros Hp Hw Hf.
  change TEMP_re
    with (lit "SOC_TEMP " ++ [GroupOpen; Plus Digit; One (Chr "."); Plus Digit;
                              GroupClose; One (Chr "C")])%list.
  rewrite search_passes by exact Hp.
  apply search_found with (rest := post).
  rewrite match_here_lit, match_here_open.
  apply match_here_digits; [exact Hw|reflexivity|].
  cbn [String.append]. rewrite match_here_chr.
  apply match_here_digits; [exact Hf|reflexivity|].
  rewrite match_here_close, match_here_chr.
  change (push "." (pushes (list_ascii_of_string whole) (Some [])))
    with (pushes (list_ascii_of_string ".") (pushes (list_ascii_of_string whole) (Some []))).
  rewrite <- !pushes_string_app, group_text_string. reflexivity.
Qed.

Lemma begins_other (key : string) (k c : ascii) (s : string) :
  Ascii.eqb c k = false -> begins (String k key) (String c s) = false.
Proof. intros H. simpl. now rewrite H. Qed.

Lemma occurs_after (k : ascii) (key x s : string) :
  lacks k x = true ->
  occurs (String k key) (x ++ s) = occurs (String k key) s.
Proof.
  induction x as [|c x IH]; intros H; [reflexivity|].
  simpl in H. apply andb_true_iff in H. destruct H as [Hc H].
  apply negb_true_iff in Hc.
  cbn [String.append occurs]. rewrite begins_other by exact Hc.
  simpl. apply IH, H.
Qed.

Lemma digits_lack (c : ascii) (s : string) :
  is_digit c = false -> all_digits s = true -> lacks c s = true.
Proof.
  intros Hc. induction s as [|d s IH]; intros H; [reflexivity|].
  simpl in H. apply andb_true_iff in H. destruct H as [Hd H].
  simpl. rewrite (IH H), andb_true_r.
  apply negb_true_iff. destruct (Ascii.eqb d c) eqn:E; [|reflexivity].
  apply Ascii.eqb_eq in E. subst d. congruence.
Qed.

(** A reading with no fraction is not matched: with the key word nowhere else,
    the temperature pattern is found nowhere. *)
Lemma TEMP_not_found (pre whole tail : string) :
  first_at_end "SOC_TEMP " pre = true ->
  all_digits whole = true ->
  starts_with_digit tail = false ->
  begins "." tail = false ->
  occurs "SOC_TEMP " tail = false ->
  search TEMP_re (pre ++ "SOC_TEMP " ++ whole ++ tail) = None.
Proof.
  intros Hp Hw Hd Hdot Ho.
  change TEMP_re
    with (lit "SOC_TEMP " ++ [GroupOpen; Plus Digit; One (Chr "."); Plus Digit;
                              GroupClose; One (Chr "C")])%list.
  rewrite search_passes by exact Hp.
  change ("SOC_TEMP " ++ whole ++ tail)%string
    with (String "S" ("OC_TEMP " ++ whole ++ tail)).
  cbn [search].
  change (String "S" ("OC_TEMP " ++ whole ++ tail))
    with ("SOC_TEMP " ++ (whole ++ tail))%string.
  rewrite match_here_lit, match_here_open.
  rewrite match_here_digits_fail; [|exact Hd| |exact Hw].
  - apply search_without_key.
    rewrite (occurs_after "S" "OC_TEMP " "OC_TEMP ") by reflexivity.
    rewrite occurs_after; [exact Ho|].
    apply digits_lack; [reflexivity|exact Hw].
  - intros s cur [Hs| ->].
    + destruct s as [|c s]; [reflexivity|]. simpl in Hs. simpl.
      destruct (Ascii.eqb c ".") eqn:E; [|reflexivity].
      apply Ascii.eqb_eq in E. subst c. discriminate.
    + destruct tail as [|c tail]; [reflexivity|]. simpl in Hdot. simpl.
      rewrite andb_true_r in Hdot. now rewrite Hdot.
Qed.

(** The CPU pattern: the group is the text between the brackets. *)
Lemma CPU_found (pre inner post : string) :
  first_at_end "CPU [" pre = true ->
  lacks "]" inner = true ->
  lacks "010" inner = true ->
  search CPU_re (pre ++ "CPU [" ++ inner ++ "]" ++ post) = Some [inner].
Proof.
  intros Hp Hb Hn.
  change CPU_re
    with (lit "CPU [" ++ [GroupOpen; LazyStar AnyChar; GroupClose; One (Chr "]")])%list.
  rewrite search_passes by exact Hp.
  apply search_found with (rest := post).
  rewrite match_here_lit, match_here_open.
  change ("]" ++ post)%string with (String "]" post).
  rewrite match_here_lazy_bracket by assumption.
  now rewrite group_text_string.
Qed.

Lemma findall_from_step (r : regex) (c : ascii) (s : string) :
  findall_from r (String c s) 0
  = match match_here r (String c s) None [] with
    | Some (groups, rest) =>
        groups :: findall_from r s (String.length s - String.length rest)
    | None => findall_from r s 0
    end.
Proof. reflexivity. Qed.

Lemma findall_from_skip (r : regex) (x rest : string) :
  findall_from r (x ++ rest) (String.length x) = findall_from r rest 0.
Proof.
  induction x as [|c x IH]; simpl.
  - destruct rest; reflexivity.
  - exact IH.
Qed.

(** No core stands where no digit stands. *)
Lemma findall_core_no_digit (x rest : string) :
  no_digit x = true ->
  findall_from core_re (x ++ rest) 0 = findall_from core_re rest 0.
Proof.
  induction x as [|c x IH]; intros H; [reflexivity|].
  simpl in H. apply andb_true_iff in H. destruct H as [Hc H].
  apply negb_true_iff in Hc.
  cbn [String.append]. rewrite findall_from_step.
  change core_re with [GroupOpen; Plus Digit; GroupClose; One (Chr "%"); One (Chr "@");
                       Plus Digit].
  rewrite match_here_open, match_here_plus_no_digit by exact Hc.
  apply IH, H.
Qed.

(** One core that runs. *)
Lemma findall_core_running (percent frequency rest : string) :
  digit_run percent = true ->
  digit_run frequency = true ->
  starts_with_digit rest = false ->
  findall_from core_re (percent ++ "%@" ++ frequency ++ rest) 0
  = [percent] :: findall_from core_re rest 0.
Proof.
  intros Hp Hf Hr.
  assert (Hm : match_here core_re (percent ++ "%@" ++ frequency ++ rest) None []
               = Some ([percent], rest)).
  { change core_re with [GroupOpen; Plus Digit; GroupClose; One (Chr "%"); One (Chr "@");
                         Plus Digit].
    rewrite match_here_open.
    apply match_here_digits; [exact Hp|reflexivity|].
    rewrite match_here_close. cbn [String.append]. rewrite !match_here_chr.
    apply match_here_digits; [exact Hf|exact Hr|].
    now rewrite group_text_string. }
  destruct percent as [|c percent]; [discriminate|].
  cbn [String.append] in *. rewrite findall_from_step, Hm. f_equal.
  transitivity (findall_from core_re ((percent ++ "%@" ++ frequency) ++ rest)
                  (String.length (percent ++ "%@" ++ frequency))).
  - f_equal.
    + rewrite !append_assoc. reflexivity.
    + rewrite !length_append. cbn [String.length]. rewrite length_append. lia.
  - apply findall_from_skip.
Qed.

Lemma findall_cores (cores : list core) :
  forallb core_ok cores = true ->
  findall core_re (cores_text cores) = map (fun p => [p]) (running cores).
Proof.
  unfold findall. induction cores as [|c cores IH]; intros H; [reflexivity|].
  cbn [forallb] in H. apply andb_true_iff in H. destruct H as [Hc H].
  specialize (IH H). cbn [cores_text].
  destruct cores as [|c' cores].
  - destruct c as [p f|].
    + simpl in Hc. apply andb_true_iff in Hc. destruct Hc as [Hp Hf].
      pose proof (findall_core_running p f EmptyString Hp Hf eq_refl) as E.
      cbn [core_text running map].
      replace (p ++ "%@" ++ f)%string with (p ++ "%@" ++ f ++ "")%string; [exact E|].
      f_equal. f_equal. clear. induction f; simpl; [reflexivity|now rewrite IHf].
    + reflexivity.
  - set (rest := cores_text (c' :: cores)) in *.
    destruct c as [p f|].
    + simpl in Hc. apply andb_true_iff in Hc. destruct Hc as [Hp Hf].
      cbn [core_text running map]. rewrite !append_assoc.
      change (("%@" ++ f) ++ "," ++ rest)%string with ("%@" ++ f ++ String "," rest)%string.
      rewrite findall_core_running by (assumption || reflexivity).
      f_equal. change (String "," rest) with ("," ++ rest)%string.
      rewrite findall_core_no_digit by reflexivity. exact IH.
    + cbn [core_text running].
      change ("off" ++ "," ++ rest)%string with ("off," ++ rest)%string.
      rewrite findall_core_no_digit by reflexivity. exact IH.
Qed.

End SearchFacts.

Module TelemetryFacts.
Import F64 Stats StatsSamples Aux Shapes RegexFacts FloatFacts StatsFacts SearchFacts.

Lemma digit_run_nonneg (s : string) : digit_run s = true -> 0 <= int_value s.
Proof.
  intros H. destruct s as [|c s]; [discriminate|].
  apply int_digits_nonneg; [exact H|lia].
Qed.

(** The RAM field of a tegrastats line, [RAM used/totalMB], is read wherever it
    stands when the key word does not stand before it: the two integers are
    those printed, and on a line that the parser converts (no numeral longer
    than [int] accepts, no quotient beyond the range of a float) the sample
    holds them. *)
Theorem ram_field_is_read (pre used total post : string) :
  first_at_end "RAM " pre = true ->
  digit_run used = true ->
  digit_run total = true ->
  let line := (pre ++ "RAM " ++ used ++ "/" ++ total ++ "MB" ++ post)%string in
  ram_values line = Some (int_value used, int_value total)
  /\ 0 <= int_value used /\ 0 <= int_value total
  /\ (converts line = true ->
      exists stats,
        parse_tegrastats line = Return stats
        /\ dict_get "ram_used_mb" stats = Some (PyInt (int_value used))
        /\ dict_get "ram_total_mb" stats = Some (PyInt (int_value total))).
Proof.
  intros Hp Hu Ht line.
  assert (Hv : ram_values line = Some (int_value used, int_value total)).
  { unfold ram_values, line. now rewrite RAM_found. }
  splits; [exact Hv|now apply digit_run_nonneg|now apply digit_run_nonneg|].
  intros Hc. eexists. split; [apply parse_tegrastats_converts; assumption|].
  unfold sample_of. rewrite !gpu_temp_part_keeps, !cpu_field_keeps by reflexivity.
  unfold ram_fields. rewrite Hv. split; reflexivity.
Qed.

(** The sample of the tegrastats output that the source quotes, in pieces. *)
Lemma ram_field_is_read_witness :
  let line := ("RAM " ++ "1683" ++ "/" ++ "7762" ++ "MB"
               ++ " (lfb 1x4MB) CPU [11%@1113,off] GR3D_FREQ 15%@114")%string in
  ram_values line = Some (1683, 7762)
  /\ exists stats,
       parse_tegrastats line = Return stats
       /\ dict_get "ram_used_mb" stats = Some (PyInt 1683)
       /\ dict_get "ram_total_mb" stats = Some (PyInt 7762).
Proof.
  cbv zeta.
  pose proof (ram_field_is_read "" "1683" "7762"
                " (lfb 1x4MB) CPU [11%@1113,off] GR3D_FREQ 15%@114"
                eq_refl eq_refl eq_refl) as H.
  cbv zeta in H. destruct H as (H1 & _ & _ & H2).
  split; [exact H1|].
  apply H2; vm_compute; reflexivity.
Defined.

(** The GPU field, [GR3D_FREQ p%@f], is read wherever it stands when the key
    word does not stand before it: on a line that the parser converts, the
    sample holds the load as the integer printed. *)
Theorem gpu_field_is_read (pre percent frequency post : string) :
  first_at_end "GR3D_FREQ " pre = true ->
  digit_run percent = true ->
  digit_run frequency = true ->
  let line := (pre ++ "GR3D_FREQ " ++ percent ++ "%@" ++ frequency ++ post)%string in
  converts line = true ->
  exists stats,
    parse_tegrastats line = Return stats
    /\ dict_get "gpu_usage_percent" stats = Some (PyInt (int_value percent))
    /\ 0 <= int_value percent.
Proof.
  intros Hp Hu Hf line Hc.
  eexists. split; [apply parse_tegrastats_converts; assumption|].
  split; [|now apply digit_run_nonneg].
  assert (Hg : search GPU_re line = Some [percent])
    by (unfold line; now apply GPU_found).
  unfold sample_of, gpu_temp_part. rewrite Hg.
  destruct (search TEMP_re line).
  - rewrite dict_get_set_other by reflexivity. apply dict_get_set_same.
  - apply dict_get_set_same.
Qed.

Lemma gpu_field_is_read_witness :
  let line := ("RAM 1683/7762MB CPU [11%@1113,off] EMC_FREQ 0% "
               ++ "GR3D_FREQ " ++ "15" ++ "%@" ++ "114" ++ " SOC_TEMP 35.5C")%string in
  exists stats,
    parse_tegrastats line = Return stats
    /\ dict_get "gpu_usage_percent" stats = Some (PyInt 15)
    /\ 0 <= 15.
Proof.
  cbv zeta.
  apply (gpu_field_is_read "RAM 1683/7762MB CPU [11%@1113,off] EMC_FREQ 0% "
           "15" "114" " SOC_TEMP 35.5C"); vm_compute; reflexivity.
Defined.

Lemma all_digits_forallb (s : string) :
  all_digits s = forallb is_digit (list_ascii_of_string s).
Proof. induction s as [|c s IH]; simpl; [reflexivity|now rewrite IH]. Qed.

Lemma list_ascii_app (a b : string) :
  list_ascii_of_string (a ++ b) = (list_ascii_of_string a ++ list_ascii_of_string b)%list.
Proof. induction a as [|c a IH]; simpl; [reflexivity|now rewrite IH]. Qed.

Lemma digit_run_all (s : string) : digit_run s = true -> all_digits s = true.
Proof. destruct s; [discriminate|exact (fun H => H)]. Qed.

Lemma float_of_reading (whole fraction : string) :
  digit_run whole = true ->
  digit_run fraction = true ->
  float (whole ++ "." ++ fraction)
  = of_decimal false (int_value (whole ++ fraction)) (- Z.of_nat (String.length fraction)).
Proof.
  intros Hw Hf. apply digit_run_all in Hw, Hf.
  rewrite all_digits_forallb in Hw, Hf.
  pose proof (float_of_decimal_text _ _ Hw Hf) as H.
  rewrite <- (string_of_list_ascii_of_string (whole ++ "." ++ fraction)).
  rewrite <- (string_of_list_ascii_of_string (whole ++ fraction)).
  rewrite !list_ascii_app. cbn [list_ascii_of_string app].
  rewrite H. f_equal. f_equal. f_equal.
  clear. induction fraction as [|c f IH]; [reflexivity|].
  cbn [list_ascii_of_string List.length String.length]. now rewrite IH.
Qed.

(** The temperature field, [SOC_TEMP w.fC], is read wherever it stands when the
    key word does not stand before it: on a line that the parser converts, the
    sample holds the double nearest to the decimal printed. A reading that is printed with no fraction is not
    read: when the key word stands nowhere else, the sample has no
    temperature. *)
Theorem temperature_is_read_with_a_fraction_only
  (pre whole fraction post : string) :
  first_at_end "SOC_TEMP " pre = true ->
  digit_run whole = true ->
  digit_run fraction = true ->
  let line := (pre ++ "SOC_TEMP " ++ whole ++ "." ++ fraction ++ "C" ++ post)%string in
  let bare := (pre ++ "SOC_TEMP " ++ whole ++ "C" ++ post)%string in
  (converts line = true ->
   exists stats,
     parse_tegrastats line = Return stats
     /\ dict_get "soc_temp_c" stats
        = Some (PyFloat (of_decimal false (int_value (whole ++ fraction))
                           (- Z.of_nat (String.length fraction)))))
  /\ (occurs "SOC_TEMP " post = false ->
      converts bare = true ->
      exists stats,
        parse_tegrastats bare = Return stats
        /\ dict_get "soc_temp_c" stats = None).
Proof.
  intros Hp Hw Hf line bare. split.
  - intros Hc.
    eexists. split; [apply parse_tegrastats_converts; assumption|].
    assert (Hg : search TEMP_re line = Some [(whole ++ "." ++ fraction)%string])
      by (unfold line; now apply TEMP_found).
    unfold sample_of, gpu_temp_part. rewrite Hg.
    rewrite dict_get_set_same. unfold group. cbn [Nat.sub nth].
    now rewrite float_of_reading.
  - intros Ho Hc.
    eexists. split; [apply parse_tegrastats_converts; assumption|].
    assert (Hg : search TEMP_re bare = None).
    { unfold bare. apply (TEMP_not_found pre whole ("C" ++ post));
        [exact Hp|now apply digit_run_all|reflexivity|reflexivity|].
      change ("C" ++ post)%string with (String "C" post). cbn [occurs begins].
      exact Ho. }
    unfold sample_of, gpu_temp_part. rewrite Hg.
    destruct (search GPU_re bare);
        rewrite ?dict_get_set_other by reflexivity;
        rewrite cpu_field_keeps by reflexivity; unfold ram_fields;
        destruct (ram_values bare) as [[u t]|]; reflexivity.
Qed.

Lemma temperature_is_read_with_a_fraction_only_witness :
  let line := ("RAM 1683/7762MB GR3D_FREQ 15%@114 "
               ++ "SOC_TEMP " ++ "35" ++ "." ++ "5" ++ "C" ++ " PMIC_TEMP 50C")%string in
  exists stats,
    parse_tegrastats line = Return stats
    /\ dict_get "soc_temp_c" stats = Some (PyFloat (of_decimal false 355 (-1))).
Proof.
  cbv zeta.
  pose proof (temperature_is_read_with_a_fraction_only
                "RAM 1683/7762MB GR3D_FREQ 15%@114 " "35" "5" " PMIC_TEMP 50C"
                eq_refl eq_refl eq_refl) as H.
  cbv zeta in H. apply (proj1 H); vm_compute; reflexivity.
Defined.

Lemma lacks_append (c : ascii) (a b : string) :
  lacks c (a ++ b) = lacks c a && lacks c b.
Proof.
  induction a as [|d a IH]; simpl; [reflexivity|].
  now rewrite IH, andb_assoc.
Qed.

Lemma cores_text_lacks (c : ascii) (cores : list core) :
  is_digit c = false ->
  lacks c "%@off," = true ->
  forallb core_ok cores = true ->
  lacks c (cores_text cores) = true.
Proof.
  intros Hd Hc.
  assert (Hs : lacks c "%@" = true /\ lacks c "off" = true /\ lacks c "," = true).
  { cbn [lacks] in *.
    destruct (Ascii.eqb "%" c), (Ascii.eqb "@" c), (Ascii.eqb "o" c),
      (Ascii.eqb "f" c), (Ascii.eqb "," c); cbn [negb andb] in *;
      try discriminate; repeat split; reflexivity. }
  destruct Hs as (H1 & H2 & H3).
  induction cores as [|x cores IH]; intros H; [reflexivity|].
  cbn [forallb] in H. apply andb_true_iff in H. destruct H as [Hx H].
  assert (Ht : lacks c (core_text x) = true).
  { destruct x as [p f|]; [|exact H2].
    cbn [core_ok] in Hx. apply andb_true_iff in Hx. destruct Hx as [Hp Hf].
    apply digit_run_all in Hp, Hf. cbn [core_text].
    rewrite !lacks_append, H1, !digits_lack by assumption. reflexivity. }
  cbn [cores_text]. destruct cores as [|y cores]; [exact Ht|].
  rewrite !lacks_append, Ht, H3, (IH H). reflexivity.
Qed.

(** The CPU field, [CPU [...]] with one entry per core between the brackets,
    is read wherever it stands when the key word does not stand before it: the
    loads read are those of the cores that run, in order, a core that is off
    counting for nothing. On a line that the parser converts, the sample holds
    their average rounded to two decimals, and no CPU field when no core
    runs. *)
Theorem cpu_field_averages_running_cores (pre post : string) (cores : list core) :
  first_at_end "CPU [" pre = true ->
  forallb core_ok cores = true ->
  let line := (pre ++ "CPU [" ++ cores_text cores ++ "]" ++ post)%string in
  cpu_values line = map int_value (running cores)
  /\ (converts line = true ->
      exists stats,
        parse_tegrastats line = Return stats
        /\ dict_get "cpu_usage_percent" stats
           = match running cores with
             | [] => None
             | _ :: _ => Some (PyFloat (cpu_average (map int_value (running cores))))
             end).
Proof.
  intros Hp Hk line.
  assert (Hv : cpu_values line = map int_value (running cores)).
  { unfold cpu_values, line.
    rewrite CPU_found; [|exact Hp|now apply cores_text_lacks..].
    change (group [cores_text cores] 1) with (cores_text cores).
    rewrite findall_cores by exact Hk.
    rewrite !map_map. apply map_ext. reflexivity. }
  split; [exact Hv|]. intros Hc.
  eexists. split; [apply parse_tegrastats_converts; assumption|].
  unfold sample_of. rewrite gpu_temp_part_keeps by reflexivity.
  unfold cpu_field. rewrite Hv.
  destruct (running cores) as [|p ps].
  - cbn [map]. unfold ram_fields. destruct (ram_values line) as [[u t]|]; reflexivity.
  - cbn [map]. apply dict_get_set_same.
Qed.

Lemma cpu_field_averages_running_cores_witness :
  let cores := [Running "11" "1113"; Off; Running "8" "1113"; Running "9" "1113"] in
  let line := ("RAM 1683/7762MB " ++ "CPU [" ++ cores_text cores ++ "]"
               ++ " GR3D_FREQ 15%@114")%string in
  cpu_values line = [11; 8; 9]
  /\ exists stats,
       parse_tegrastats line = Return stats
       /\ dict_get "cpu_usage_percent" stats
          = Some (PyFloat (of_decimal false 933 (-2))).
Proof.
  cbv zeta.
  pose proof (cpu_field_averages_running_cores "RAM 1683/7762MB " " GR3D_FREQ 15%@114"
                [Running "11" "1113"; Off; Running "8" "1113"; Running "9" "1113"]
                eq_refl eq_refl) as H.
  cbv zeta in H. destruct H as [H1 H2]. split; [exact H1|].
  destruct H2 as (stats & Hs & Hg); [vm_compute; reflexivity..|].
  exists stats. split; [exact Hs|].
  rewrite Hg. vm_compute. reflexivity.
Defined.

Lemma strip_reverse (s : string) : strip s = reverse (lstrip (reverse (lstrip s))).
Proof. reflexivity. Qed.

Lemma lstrip_pad (pad s : string) :
  all_space pad = true -> lstrip (pad ++ s) = lstrip s.
Proof.
  induction pad as [|c pad IH]; intros H; [reflexivity|].
  simpl in H. apply andb_true_iff in H. destruct H as [Hc H].
  cbn [String.append lstrip]. rewrite Hc. apply IH, H.
Qed.

Lemma lstrip_all_space (s : string) : all_space s = true -> lstrip s = EmptyString.
Proof.
  induction s as [|c s IH]; intros H; [reflexivity|].
  simpl in H. apply andb_true_iff in H. destruct H as [Hc H].
  cbn [lstrip]. rewrite Hc. apply IH, H.
Qed.

Lemma lstrip_append (s t : string) :
  all_space s = false -> lstrip (s ++ t) = (lstrip s ++ t)%string.
Proof.
  induction s as [|c s IH]; intros H; [discriminate|].
  simpl in H. cbn [String.append lstrip].
  destruct (is_space c); [apply IH, H|reflexivity].
Qed.

Lemma reverse_append (a b : string) : reverse (a ++ b) = (reverse b ++ reverse a)%string.
Proof.
  unfold reverse. rewrite list_ascii_app, rev_app_distr.
  generalize (rev (list_ascii_of_string b)) as x.
  generalize (rev (list_ascii_of_string a)) as y.
  intros y x. induction x as [|c x IH]; simpl; [reflexivity|now rewrite IH].
Qed.

Lemma all_space_reverse (s : string) : all_space s = true -> all_space (reverse s) = true.
Proof.
  induction s as [|c s IH]; intros H; [reflexivity|].
  simpl in H. apply andb_true_iff in H. destruct H as [Hc H].
  change (String c s) with (String c "" ++ s)%string.
  rewrite reverse_append.
  assert (forall a b, all_space a = true -> all_space b = true ->
                      all_space (a ++ b) = true) as Happ.
  { clear. induction a as [|d a IHa]; intros b Ha Hb; [exact Hb|].
    simpl in *. apply andb_true_iff in Ha. destruct Ha as [-> Ha]. now apply IHa. }
  apply Happ; [apply IH, H|]. unfold reverse. simpl. now rewrite Hc.
Qed.

Lemma strip_pads (pad1 s pad2 : string) :
  all_space pad1 = true -> all_space pad2 = true ->
  strip (pad1 ++ s ++ pad2) = strip s.
Proof.
  intros H1 H2. rewrite !strip_reverse, lstrip_pad by exact H1.
  destruct (all_space s) eqn:Hs.
  - rewrite (lstrip_all_space s Hs), lstrip_pad by exact Hs.
    now rewrite (lstrip_all_space pad2 H2).
  - rewrite lstrip_append by exact Hs.
    rewrite reverse_append, lstrip_pad; [reflexivity|].
    now apply all_space_reverse.
Qed.

(** White space around the output of tegrastats, such as the line feed that
    ends it, changes nothing in the answer of the endpoint. *)
Theorem surrounding_white_space_is_ignored (pad1 output pad2 : string) :
  all_space pad1 = true ->
  all_space pad2 = true ->
  get_system_stats (Completed (pad1 ++ output ++ pad2))
  = get_system_stats (Completed output).
Proof.
  intros H1 H2. unfold get_system_stats. now rewrite strip_pads.
Qed.

Lemma surrounding_white_space_is_ignored_witness :
  get_system_stats (Completed (" " ++ tegrastats_line ++ String "010" ""))
  = get_system_stats (Completed tegrastats_line).
Proof.
  apply (surrounding_white_space_is_ignored " " tegrastats_line (String "010" ""));
    reflexivity.
Defined.

End TelemetryFacts.

Module ViewFacts.
Import F64 JsNum JsVal Stream App Page Chunks Samples Aux.
Import SessionFacts Config ResourceGauge ChatMessageView.

Lemma trimStart_keeps (c : N) (s : jsstring) :
  In c s -> is_whitespace c = false -> In c (trimStart s).
Proof.
  intros Hin Hc. induction s as [|d s IH]; [contradiction|].
  simpl. destruct (is_whitespace d) eqn:Hd; [|exact Hin].
  destruct Hin as [->|Hin]; [congruence|now apply IH].
Qed.

Lemma trim_keeps (c : N) (s : jsstring) :
  In c s -> is_whitespace c = false -> In c (trim s).
Proof.
  intros Hin Hc. unfold trim, trimEnd.
  apply (proj1 (in_rev _ _)). apply trimStart_keeps; [|exact Hc].
  apply (proj1 (in_rev _ _)). now apply trimStart_keeps.
Qed.

(** [buildApiUrl] returns the environment variable as it is, white space
    around it included, when it holds something other than white space;
    otherwise the address built from the location of the page and the port (a
    variable that is empty or blank counts as unset). What it returns is never
    blank. The two base URLs use the ports 11434 and 5001. *)
Theorem base_url_is_env_or_page_location
  (env : option jsstring) (protocol hostname : jsstring) (port : number) :
  (forall e, env = Some e -> trim e <> [] ->
     buildApiUrl env protocol hostname port = e)
  /\ (env = None \/ (exists e, env = Some e /\ trim e = []) ->
      buildApiUrl env protocol hostname port
      = protocol ++ js "//" ++ hostname ++ js ":" ++ Number_toString port)
  /\ trim (buildApiUrl env protocol hostname port) <> []
  /\ OLLAMA_API_BASE_URL None protocol hostname
     = protocol ++ js "//" ++ hostname ++ js ":11434"
  /\ STATS_API_BASE_URL None protocol hostname
     = protocol ++ js "//" ++ hostname ++ js ":5001".
Proof.
  assert (Hf : trim (protocol ++ js "//" ++ hostname ++ js ":" ++ Number_toString port)
               <> []).
  { intros E.
    assert (Hin : In 47%N (trim (protocol ++ js "//" ++ hostname ++ js ":"
                                  ++ Number_toString port))).
    { apply trim_keeps; [|reflexivity]. apply in_or_app. right. now left. }
    rewrite E in Hin. contradiction. }
  splits.
  - intros e -> He. unfold buildApiUrl.
    destruct e as [|c e]; [now elim He|].
    destruct (trim (c :: e)); [now elim He|reflexivity].
  - intros [->|(e & -> & He)]; [reflexivity|]. unfold buildApiUrl.
    rewrite He. now rewrite andb_false_r.
  - unfold buildApiUrl. destruct env as [e|]; [|exact Hf].
    destruct (negb (is_empty e) && negb (is_empty (trim e))) eqn:E; [|exact Hf].
    apply andb_true_iff in E. destruct E as [_ E].
    destruct (trim e); [discriminate|discriminate].
  - unfold OLLAMA_API_BASE_URL, buildApiUrl.
    change (Number_toString (of_Z 11434)) with (js "11434"). reflexivity.
  - unfold STATS_API_BASE_URL, buildApiUrl.
    change (Number_toString (of_Z 5001)) with (js "5001"). reflexivity.
Qed.

(** A variable that is set, and one that holds only blanks. *)
Lemma base_url_is_env_or_page_location_witness :
  buildApiUrl (Some (js "http://jetson.lan:11434")) (js "http:") (js "localhost") (of_Z 11434)
  = js "http://jetson.lan:11434"
  /\ buildApiUrl (Some (js "  ")) (js "http:") (js "orin.local") (of_Z 5001)
     = js "http://orin.local:5001".
Proof.
  split.
  - refine (proj1 (base_url_is_env_or_page_location
                     (Some (js "http://jetson.lan:11434")) (js "http:") (js "localhost")
                     (of_Z 11434)) (js "http://jetson.lan:11434") eq_refl _).
    vm_compute. discriminate.
  - refine (eq_trans
              (proj1 (proj2 (base_url_is_env_or_page_location
                               (Some (js "  ")) (js "http:") (js "orin.local") (of_Z 5001)))
                 (or_intror (ex_intro _ (js "  ") (conj eq_refl _)))) _);
      vm_compute; reflexivity.
Defined.

(** A finite number divided by itself is one. *)
Lemma div_self (s : bool) (m : positive) (e : Z) :
  div (S754_finite s m e) (S754_finite s m e) = of_Z 1.
Proof.
  unfold div, SFdiv, SFdiv_core_binary.
  replace (Zdigits2 (Z.pos m) + e - (Zdigits2 (Z.pos m) + e)) with 0 by lia.
  replace (e - e) with 0 by lia.
  change (IntDef.Z.min (fexp prec emax 0) 0) with (-53).
  change (0 - -53) with 53.
  change (IntDef.Z.shiftl (Z.pos m) 53) with (Z.shiftl (Z.pos m) 53).
  rewrite Z.shiftl_mul_pow2 by lia.
  assert (Hdiv : IntDef.Z.div_eucl (Z.pos m * 2 ^ 53) (Z.pos m) = (2 ^ 53, 0)).
  { pose proof (Z.div_mul (2 ^ 53) (Z.pos m) ltac:(lia)) as H1.
    pose proof (Z.mod_mul (2 ^ 53) (Z.pos m) ltac:(lia)) as H2.
    rewrite (Z.mul_comm (Z.pos m)).
    unfold Z.div, Z.modulo in H1, H2.
    destruct (Z.div_eucl (2 ^ 53 * Z.pos m) (Z.pos m)) as [q r]. now subst. }
  rewrite Hdiv.
  assert (Hloc : new_location (Z.pos m) 0 = loc_Exact).
  { unfold new_location. now destruct (IntDef.Z.even (Z.pos m)). }
  rewrite Hloc. destruct s; reflexivity.
Qed.

(** The ring of a gauge is empty, its dash offset being the whole
    circumference, when the maximum converts to a number that is not above
    zero (zero, negative or no number), whatever the value is, and when the
    value converts to zero; with a maximum that is not above zero no caption
    is drawn. A maximum that has no primitive value makes the gauge throw. *)
Theorem gauge_is_empty_without_reading (value max : json) (m : number) :
  ToNumber (Some max) = Ok m ->
  (gt m (S754_zero false) = false ->
     percentage value max = Ok (S754_zero false)
     /\ strokeDashoffset value max = Ok circumference
     /\ forall unit, caption max unit = Ok None)
  /\ (forall v, ToNumber (Some value) = Ok v -> is_zero v = true ->
        strokeDashoffset value max = Ok circumference)
  /\ (forall other e, ToNumber (Some other) = Throw e ->
        percentage value other = Throw e
        /\ strokeDashoffset value other = Throw e
        /\ forall unit, caption other unit = Throw e).
Proof.
  intros Hm. splits.
  - intros Hg. unfold strokeDashoffset, percentage, caption.
    rewrite Hm. cbn [bind]. rewrite Hg. splits; reflexivity.
  - intros v Hv Hz. unfold strokeDashoffset, percentage.
    rewrite Hm. cbn [bind].
    destruct (gt m (S754_zero false)) eqn:Hg; [|reflexivity].
    rewrite Hv. cbn [bind]. f_equal.
    destruct v as [sv| | |]; try discriminate.
    destruct m as [sm|sm| |sm mm em]; try discriminate;
      destruct sv, sm; try discriminate; reflexivity.
  - intros other e He. unfold strokeDashoffset, percentage, caption.
    rewrite He. splits; reflexivity.
Qed.

(** No sample field yet: the value and the maximum of the RAM gauge are 0. A
    maximum that is an object with a member named toString. *)
Lemma gauge_is_empty_without_reading_witness :
  strokeDashoffset (JNum (S754_zero false)) (JNum (S754_zero false)) = Ok circumference
  /\ strokeDashoffset (JNum (of_Z 2))
       (JObj [(js "toString", JNum (of_Z 1))]) = Throw TypeError.
Proof.
  pose proof (gauge_is_empty_without_reading (JNum (S754_zero false))
                (JNum (S754_zero false)) (S754_zero false) eq_refl) as H.
  split.
  - apply (proj1 H). reflexivity.
  - pose proof (gauge_is_empty_without_reading (JNum (of_Z 2))
                  (JNum (S754_zero false)) (S754_zero false) eq_refl) as H2.
    apply (proj2 (proj2 H2)). reflexivity.
Defined.

(** The ring of a gauge is full, its dash offset being zero, when the value is
    the maximum, a finite number above zero: the percentage is 100 exactly. *)
Theorem gauge_is_full_at_the_maximum (m : positive) (e : Z) :
  let x := JNum (S754_finite false m e) in
  percentage x x = Ok (of_Z 100)
  /\ strokeDashoffset x x = Ok (S754_zero false).
Proof.
  cbv zeta.
  assert (Hp : percentage (JNum (S754_finite false m e)) (JNum (S754_finite false m e))
               = Ok (of_Z 100)).
  { unfold percentage. cbn [ToNumber bind].
    change (gt (S754_finite false m e) (S754_zero false)) with true.
    cbn [bind]. rewrite div_self. reflexivity. }
  split; [exact Hp|].
  unfold strokeDashoffset. rewrite Hp. reflexivity.
Qed.

(** A reply with no text stays a placeholder: when the stream of an accepted
    chat request ends, or fails, and the deltas decoded amount to white space
    or nothing, the assistant message of the stream is still drawn as the
    pulsing placeholder although nothing streams any more; the message that
    reports a failure is not. *)
Theorem silent_reply_stays_a_placeholder
  (st : AppState) (chunks : list jsstring) (failed : bool) :
  prompt st <> [] ->
  isStreaming st = false ->
  selectedModel st <> [] ->
  truthy (selectedModelInfo st) = true ->
  trim (chat_stream_content chunks) = [] ->
  exists st' reply,
    chat_session st chunks failed = Some st'
    /\ isStreaming st' = false
    /\ chatHistory st'
       = chatHistory st
         ++ [{| role := user; content := prompt st |}; reply]
         ++ (if failed then [chat_error_message] else [])
    /\ role reply = assistant
    /\ thinking reply = true
    /\ thinking chat_error_message = false.
Proof.
  intros Hp Hs Hm Hi Ht.
  destruct (chat_session_result st chunks failed Hp Hs Hm Hi)
    as (st' & H1 & H2 & H3 & H4 & H5 & H6).
  exists st', {| role := assistant; content := chat_stream_content chunks |}.
  splits; try assumption; try reflexivity.
  unfold thinking. cbn [content role isUser negb]. now rewrite Ht.
Qed.

(** A stream that ends after a record with no content. *)
Lemma silent_reply_stays_a_placeholder_witness :
  exists st' reply,
    chat_session chat_ready [jsq "{'done':true}" ++ [LF]] false = Some st'
    /\ isStreaming st' = false
    /\ chatHistory st' = [{| role := user; content := js "hi" |}; reply]
    /\ thinking reply = true.
Proof.
  destruct (silent_reply_stays_a_placeholder chat_ready [jsq "{'done':true}" ++ [LF]] false)
    as (st' & reply & H1 & H2 & H3 & H4 & H5 & H6);
    try (vm_compute; congruence).
  exists st', reply. splits; [exact H1|exact H2|exact H3|exact H5].
Defined.

End ViewFacts.

Module PanelFacts.
Import F64 JsNum JsVal Stream App Page Chunks Samples Aux Stats.
Import PullFacts NumberFacts SessionFacts Panel.

Lemma jsstr_eqb_refl (a : jsstring) : JsStr.eqb a a = true.
Proof. now apply jsstr_eqb_eq. Qed.

Lemma jsstr_eqb_neq (a b : jsstring) : a <> b -> JsStr.eqb a b = false.
Proof.
  intros H. destruct (JsStr.eqb a b) eqn:E; [|reflexivity].
  apply jsstr_eqb_eq in E. contradiction.
Qed.

(** What [handleLoadChat] does to the history when the entry is found. *)
Lemma handleLoadChat_history (i : jsstring) (p : PanelState) (entry : SavedChat) :
  find_saved i (savedChats p) = Some entry ->
  chatHistory (state (handleLoadChat i p)) = history entry
  /\ savedChats (handleLoadChat i p) = savedChats p
  /\ isStreaming (state (handleLoadChat i p)) = isStreaming (state p).
Proof.
  intros H. unfold handleLoadChat. rewrite H.
  destruct (model entry) as [|c m]; [splits; reflexivity|].
  destruct (models_find (c :: m) (models p)); splits; reflexivity.
Qed.

(** A chat that was saved is loaded back: saving puts one entry in front of the
    saved chats, with the history and the model of that moment, the title
    trimmed and the time of saving as its id, and changes nothing else; loading
    that id afterwards, whatever the conversation has become, brings the saved
    history back, even when an older entry has the same id. *)
Theorem saved_chat_is_loaded_back
  (p : PanelState) (title : jsstring) (now_id now_created : number) :
  chatHistory (state p) <> [] ->
  title <> [] ->
  let p1 := handleSaveCurrentChat (Some title) now_id now_created p in
  savedChats p1
  = {| id := Number_toString now_id; title := trim title;
       history := chatHistory (state p); model := selectedModel (state p);
       created := now_created |} :: savedChats p
  /\ state p1 = state p
  /\ forall p2, savedChats p2 = savedChats p1 ->
       chatHistory (state (handleLoadChat (Number_toString now_id) p2))
       = chatHistory (state p).
Proof.
  intros Hh Ht p1.
  assert (E : savedChats p1
              = {| id := Number_toString now_id; title := trim title;
                   history := chatHistory (state p); model := selectedModel (state p);
                   created := now_created |} :: savedChats p
              /\ state p1 = state p).
  { unfold p1, handleSaveCurrentChat.
    destruct (chatHistory (state p)) as [|m h]; [now elim Hh|].
    destruct title as [|c t]; [now elim Ht|]. split; reflexivity. }
  destruct E as [E1 E2]. splits; [exact E1|exact E2|].
  intros p2 H2.
  destruct (handleLoadChat_history (Number_toString now_id) p2
              {| id := Number_toString now_id; title := trim title;
                 history := chatHistory (state p); model := selectedModel (state p);
                 created := now_created |}) as (H & _).
  - unfold find_saved. rewrite H2, E1. cbn [find id]. now rewrite jsstr_eqb_refl.
  - exact H.
Qed.

Lemma saved_chat_is_loaded_back_witness :
  let p := set_state (set_chatHistory [{| role := user; content := js "hi" |}]
                        chat_ready) initial_panel in
  let p1 := handleSaveCurrentChat (Some (js " first ")) (of_Z 1700000000000)
              (of_Z 1700000000000) p in
  map title (savedChats p1) = [js "first"]
  /\ chatHistory (state (handleLoadChat (js "1700000000000") (handleClearChat p1)))
     = [{| role := user; content := js "hi" |}].
Proof.
  cbv zeta.
  pose proof (saved_chat_is_loaded_back
                (set_state (set_chatHistory [{| role := user; content := js "hi" |}]
                              chat_ready) initial_panel)
                (js " first ") (of_Z 1700000000000) (of_Z 1700000000000)
                ltac:(discriminate) ltac:(discriminate)) as H.
  cbv zeta in H. destruct H as (H1 & _ & H3).
  split; [rewrite H1; vm_compute; reflexivity|].
  change (js "1700000000000") with (Number_toString (of_Z 1700000000000)).
  apply H3. reflexivity.
Defined.

Lemma find_saved_filter (i j : jsstring) (l : list SavedChat) :
  find_saved j (filter (fun c => negb (JsStr.eqb (id c) i)) l)
  = if JsStr.eqb i j then None else find_saved j l.
Proof.
  unfold find_saved. induction l as [|c l IH]; cbn [filter find].
  - now destruct (JsStr.eqb i j).
  - destruct (JsStr.eqb (id c) i) eqn:Ei; cbn [negb find].
    + apply jsstr_eqb_eq in Ei. rewrite IH, Ei.
      now destruct (JsStr.eqb i j).
    + destruct (JsStr.eqb (id c) j) eqn:Ej; [|exact IH].
      apply jsstr_eqb_eq in Ej. rewrite <- Ej.
      destruct (JsStr.eqb i (id c)) eqn:E; [|reflexivity].
      apply jsstr_eqb_eq in E. rewrite <- E, jsstr_eqb_refl in Ei. discriminate.
Qed.

(** A saved chat that was deleted is gone: after a confirmed delete no entry
    has that id, so loading it does nothing; every entry with another id is
    still found as before; the conversation is untouched; and a delete that is
    not confirmed changes nothing. All the entries that share the id go at
    once. *)
Theorem deleted_saved_chat_is_gone (p : PanelState) (i : jsstring) :
  let p' := handleDeleteSavedChat true i p in
  find_saved i (savedChats p') = None
  /\ handleLoadChat i p' = p'
  /\ (forall j, j <> i -> find_saved j (savedChats p') = find_saved j (savedChats p))
  /\ (forall c, In c (savedChats p') <-> In c (savedChats p) /\ id c <> i)
  /\ state p' = state p
  /\ handleDeleteSavedChat false i p = p.
Proof.
  cbv zeta. unfold handleDeleteSavedChat. cbn [savedChats set_savedChats state].
  assert (H : find_saved i (filter (fun c => negb (JsStr.eqb (id c) i)) (savedChats p))
              = None) by (rewrite find_saved_filter; now rewrite jsstr_eqb_refl).
  splits.
  - exact H.
  - unfold handleLoadChat. cbn [savedChats set_savedChats]. now rewrite H.
  - intros j Hj. rewrite find_saved_filter. rewrite jsstr_eqb_neq; [reflexivity|].
    congruence.
  - intros c. rewrite filter_In. split; intros [H1 H2]; split; try exact H1.
    + intros E. rewrite E, jsstr_eqb_refl in H2. discriminate.
    + now rewrite jsstr_eqb_neq.
  - reflexivity.
  - reflexivity.
Qed.

(** Two saved chats, of which the first is deleted. *)
Lemma deleted_saved_chat_is_gone_witness :
  let first := {| id := js "1"; title := js "a"; history := []; model := js "gemma:2b";
                  created := of_Z 1 |} in
  let second := {| id := js "2"; title := js "b"; history := []; model := []; 
                   created := of_Z 2 |} in
  let p' := handleDeleteSavedChat true (js "1") (set_savedChats [first; second] initial_panel) in
  find_saved (js "1") (savedChats p') = None
  /\ find_saved (js "2") (savedChats p') = Some second.
Proof.
  cbv zeta.
  pose proof (deleted_saved_chat_is_gone
                (set_savedChats
                   [{| id := js "1"; title := js "a"; history := []; model := js "gemma:2b";
                       created := of_Z 1 |};
                    {| id := js "2"; title := js "b"; history := []; model := [];
                       created := of_Z 2 |}] initial_panel) (js "1")) as H.
  cbv zeta in H. destruct H as (H1 & _ & H3 & _).
  split; [exact H1|]. rewrite H3 by discriminate. reflexivity.
Defined.

(** Loading a saved chat whose model is no longer listed: the name is selected
    with no model information, which the memory guard takes as sufficient; the
    send button is then enabled for every prompt, yet submitting does nothing,
    since the handler returns at its guard. *)
Theorem chat_of_an_unlisted_model_cannot_be_sent
  (p : PanelState) (i : jsstring) (entry : SavedChat) (items : list json) :
  find_saved i (savedChats p) = Some entry ->
  model entry <> [] ->
  models p = Some (JArr items) ->
  find_named (model entry) items = Ok None ->
  isStreaming (state p) = false ->
  let st := state (handleLoadChat i p) in
  chatHistory st = history entry
  /\ selectedModel st = model entry
  /\ selectedModelInfo st = Some JNull
  /\ memOk st = Ok true
  /\ forall text, text <> [] ->
       send_disabled (set_prompt text st) = Ok false
       /\ handleChatSubmit (set_prompt text st) = (set_prompt text st, None).
Proof.
  intros Hf Hm Hl Hn Hs st.
  assert (E : st = set_selected (model entry) (Some JNull)
                     (set_chatHistory (history entry) (state p))).
  { unfold st, handleLoadChat. rewrite Hf.
    destruct (model entry) as [|c m] eqn:Em; [now elim Hm|].
    unfold models_find. rewrite Hl, Hn. reflexivity. }
  assert (Hk : forall a, selectedModelInfo a = Some JNull -> memOk a = Ok true).
  { intros a Ha. unfold memOk, hasSufficientMemory. rewrite Ha.
    cbn [truthy negb]. now rewrite orb_true_r. }
  rewrite E. splits; try reflexivity; [now apply Hk|].
  intros text Ht. unfold send_disabled, handleChatSubmit.
  rewrite Hk by reflexivity. cbn [bind].
  cbn [prompt set_prompt set_selected set_chatHistory isStreaming selectedModel
         selectedModelInfo systemStats].
  rewrite Hs.
  destruct text as [|c t]; [now elim Ht|].
  destruct (model entry) as [|c' m]; [now elim Hm|].
  cbn [is_empty orb negb truthy]. split; reflexivity.
Qed.

Lemma chat_of_an_unlisted_model_cannot_be_sent_witness :
  let saved := {| id := js "1"; title := js "t";
                  history := [{| role := user; content := js "hi" |}];
                  model := js "llama3:8b"; created := of_Z 1 |} in
  let p := set_models (Some (JArr [gemma])) (set_savedChats [saved] initial_panel) in
  let st := state (handleLoadChat (js "1") p) in
  selectedModel st = js "llama3:8b"
  /\ send_disabled (set_prompt (js "again") st) = Ok false
  /\ handleChatSubmit (set_prompt (js "again") st) = (set_prompt (js "again") st, None).
Proof.
  cbv zeta.
  pose proof (chat_of_an_unlisted_model_cannot_be_sent
                (set_models (Some (JArr [gemma]))
                   (set_savedChats
                      [{| id := js "1"; title := js "t";
                          history := [{| role := user; content := js "hi" |}];
                          model := js "llama3:8b"; created := of_Z 1 |}]
                      initial_panel))
                (js "1")
                {| id := js "1"; title := js "t";
                   history := [{| role := user; content := js "hi" |}];
                   model := js "llama3:8b"; created := of_Z 1 |}
                [gemma] eq_refl ltac:(discriminate) eq_refl eq_refl eq_refl) as H.
  cbv zeta in H. destruct H as (_ & H2 & _ & _ & H5).
  split; [exact H2|]. apply H5. discriminate.
Defined.

(** Loading a saved chat while a reply is streaming: the next chunk that brings
    a delta writes the reply so far into the last message of the chat that was
    loaded, keeping the role of that message; the messages before it are
    untouched. *)
Theorem load_while_streaming_overwrites_last_message
  (p : PanelState) (i : jsstring) (entry : SavedChat)
  (h : list ChatMessage) (m : ChatMessage) (t : ChatTask) (chunk : jsstring) :
  find_saved i (savedChats p) = Some entry ->
  history entry = h ++ [m] ->
  snd (chat_chunk (assistantContent t) chunk) = true ->
  chatHistory (fst (chat_read (state (handleLoadChat i p)) t chunk))
  = h ++ [{| role := role m;
             content := assistantContent t
                        ++ List.concat (flat_map delta_of (chat_records chunk)) |}].
Proof.
  intros Hf Hh Hd.
  destruct (handleLoadChat_history i p entry Hf) as (H1 & _ & _).
  unfold chat_read.
  pose proof (StreamFacts.chat_chunk_records (assistantContent t) chunk) as Hc.
  destruct (chat_chunk (assistantContent t) chunk) as [c' d].
  simpl in Hd, Hc. subst d. cbn [fst chatHistory set_chatHistory].
  rewrite H1, Hh, ChatFacts.replace_last_content_app, Hc. reflexivity.
Qed.

Lemma load_while_streaming_overwrites_last_message_witness :
  let saved := {| id := js "1"; title := js "t";
                  history := [{| role := user; content := js "hi" |};
                              {| role := assistant; content := js "hello" |};
                              {| role := user; content := js "bye" |}];
                  model := []; created := of_Z 1 |} in
  let p := set_savedChats [saved] initial_panel in
  let t := {| request_model := js "gemma:2b"; request_messages := [];
              chat_reading := true; assistantContent := js "So" |} in
  chatHistory (fst (chat_read (state (handleLoadChat (js "1") p)) t chat_partial_chunk))
  = [{| role := user; content := js "hi" |};
     {| role := assistant; content := js "hello" |};
     {| role := user; content := js "SoHel" |}].
Proof.
  cbv zeta.
  rewrite (load_while_streaming_overwrites_last_message
             (set_savedChats
                [{| id := js "1"; title := js "t";
                    history := [{| role := user; content := js "hi" |};
                                {| role := assistant; content := js "hello" |};
                                {| role := user; content := js "bye" |}];
                    model := []; created := of_Z 1 |}] initial_panel)
             (js "1")
             {| id := js "1"; title := js "t";
                history := [{| role := user; content := js "hi" |};
                            {| role := assistant; content := js "hello" |};
                            {| role := user; content := js "bye" |}];
                model := []; created := of_Z 1 |}
             [{| role := user; content := js "hi" |};
              {| role := assistant; content := js "hello" |}]
             {| role := user; content := js "bye" |}
             {| request_model := js "gemma:2b"; request_messages := [];
                chat_reading := true; assistantContent := js "So" |}
             chat_partial_chunk eq_refl eq_refl eq_refl).
  vm_compute. reflexivity.
Defined.

(** A refresh of the model list never changes a selection that the callback
    saw; when it saw none and the list that arrives starts with a model that
    has a name, that model is selected with its information. The list itself
    is replaced in both cases. A request that is rejected, or an answer that
    is no JSON, changes nothing. *)
Theorem refresh_selects_first_model_when_none_is_selected
  (seen : jsstring) (status : Z) (text : jsstring) (p : PanelState)
  (data first : json) (rest : list json) (name : jsstring) :
  JSON_parse text = Some data ->
  get data (js "models") = Some (JArr (first :: rest)) ->
  get first (js "name") = Some (JStr name) ->
  let listed := set_models (Some (JArr (first :: rest))) p in
  (seen <> [] -> fetchModels seen (Responded status text) p = Some listed)
  /\ fetchModels [] (Responded status text) p
     = Some (set_state (set_selected name (Some first) (state p)) listed)
  /\ fetchModels seen Rejected p = Some p
  /\ (forall other, JSON_parse other = None ->
        fetchModels seen (Responded status other) p = Some p).
Proof.
  intros Hd Hl Hn listed.
  assert (Hdata : data <> JNull) by (intros ->; discriminate).
  assert (Hfirst : first <> JNull) by (intros ->; discriminate).
  splits.
  - intros Hs. unfold fetchModels. rewrite Hd, Hl.
    destruct seen as [|c s]; [now elim Hs|].
    destruct data; try reflexivity. now elim Hdata.
  - unfold fetchModels. rewrite Hd, Hl. cbn [is_empty negb].
    cbn [length_of ToNumber List.length].
    rewrite Nat2Z.inj_succ. unfold Z.succ.
    assert (Hg : gt (of_Z (Z.of_nat (List.length rest) + 1)) (S754_zero false) = true).
    { destruct (Z.of_nat (List.length rest) + 1) as [|q|q] eqn:E; try lia.
      apply of_Z_positive. }
    rewrite Hg. unfold first_model. cbn [item0_of]. rewrite Hn.
    destruct data; try (now elim Hdata); destruct first; try (now elim Hfirst);
      reflexivity.
  - reflexivity.
  - intros other Ho. unfold fetchModels. now rewrite Ho.
Qed.

Lemma refresh_selects_first_model_when_none_is_selected_witness :
  let text := jsq "{'models':[{'name':'gemma:2b','size':1678456656}]}" in
  fetchModels [] (Responded 200 text) initial_panel
  = Some (set_state (set_selected (js "gemma:2b") (Some gemma) initial)
            (set_models (Some (JArr [gemma])) initial_panel)).
Proof.
  cbv zeta.
  refine (proj1 (proj2 (refresh_selects_first_model_when_none_is_selected
                          [] 200 (jsq "{'models':[{'name':'gemma:2b','size':1678456656}]}")
                          initial_panel (JObj [(js "models", JArr [gemma])]) gemma []
                          (js "gemma:2b") _ _ _)));
    vm_compute; reflexivity.
Defined.

(** A refresh by a callback that saw a model selected stores what it is given
    as the list and nothing else. *)
Lemma fetchModels_seen (seen : jsstring) (r : fetched) (p : PanelState) :
  seen <> [] ->
  exists p', fetchModels seen r p = Some p' /\ state p' = state p.
Proof.
  intros Hs. unfold fetchModels.
  destruct seen as [|c seen]; [now elim Hs|]. cbn [is_empty negb].
  destruct r as [|status text]; [now exists p|].
  destruct (JSON_parse text) as [data|]; [|now exists p].
  destruct data; try (now exists p); eexists; split; reflexivity.
Qed.

(** The refresh of the effect, by a callback that saw no model selected, when
    the list that is answered starts with a model that has a name. *)
Lemma fetchModels_selects (status : Z) (text : jsstring) (p : PanelState)
  (data first : json) (rest : list json) (name : jsstring) :
  JSON_parse text = Some data ->
  get data (js "models") = Some (JArr (first :: rest)) ->
  get first (js "name") = Some (JStr name) ->
  fetchModels [] (Responded status text) p
  = Some (set_state (set_selected name (Some first) (state p))
            (set_models (Some (JArr (first :: rest))) p)).
Proof.
  intros Hd Hl Hn.
  assert (Hdata : data <> JNull) by (intros ->; discriminate).
  assert (Hfirst : first <> JNull) by (intros ->; discriminate).
  unfold fetchModels. rewrite Hd, Hl. cbn [is_empty negb].
  cbn [length_of ToNumber List.length].
  rewrite Nat2Z.inj_succ. unfold Z.succ.
  assert (Hg : gt (of_Z (Z.of_nat (List.length rest) + 1)) (S754_zero false) = true).
  { destruct (Z.of_nat (List.length rest) + 1) as [|q|q] eqn:E; try lia.
    apply of_Z_positive. }
  rewrite Hg. unfold first_model. cbn [item0_of]. rewrite Hn.
  destruct data; try (now elim Hdata); destruct first; try (now elim Hfirst);
    reflexivity.
Qed.

(** Deleting the model that is selected: the handler clears the selection, but
    the refresh that the cleared selection sets off selects the first model of
    the list that it is given, whichever of the two refreshes is answered first
    and whatever the status of the answer to the delete request; when that
    list is empty the selection stays cleared and submitting does nothing.
    Nothing changes when the confirmation is refused or the delete request is
    rejected, and the selection is left alone when another model is
    deleted. *)
Theorem deleting_the_selected_model_selects_the_first_listed
  (name : jsstring) (status : Z) (text : jsstring) (r_own : fetched)
  (status' : Z) (text' : jsstring) (own_first : bool) (p : PanelState) (data : json) :
  name <> [] ->
  selectedModel (state p) <> [] ->
  JSON_parse text' = Some data ->
  let session :=
    delete_and_refresh true name (Responded status text) name r_own
      (Responded status' text') own_first p in
  (forall first rest first_name,
     get data (js "models") = Some (JArr (first :: rest)) ->
     get first (js "name") = Some (JStr first_name) ->
     exists p',
       session = Some p'
       /\ selectedModel (state p') = first_name
       /\ selectedModelInfo (state p') = Some first)
  /\ (get data (js "models") = Some (JArr []) ->
      exists p',
        session = Some p'
        /\ selectedModel (state p') = []
        /\ selectedModelInfo (state p') = Some JNull
        /\ forall typed,
             handleChatSubmit (set_prompt typed (state p'))
             = (set_prompt typed (state p'), None))
  /\ (forall seen r r_effect,
        delete_and_refresh false seen r name r_own r_effect own_first p = Some p
        /\ delete_and_refresh true seen Rejected name r_own r_effect own_first p = Some p)
  /\ (forall seen r_effect,
        seen <> [] -> seen <> name ->
        exists p',
          delete_and_refresh true seen (Responded status text) name r_own r_effect
            own_first p = Some p'
          /\ state p' = state p).
Proof.
  intros Hname Hsel Hd session.
  assert (Hs : session
               = let p1 := set_state (set_selected [] (Some JNull) (state p)) p in
                 if own_first then
                   match fetchModels name r_own p1 with
                   | Some p2 => fetchModels [] (Responded status' text') p2
                   | None => None
                   end
                 else
                   match fetchModels [] (Responded status' text') p1 with
                   | Some p2 => fetchModels name r_own p2
                   | None => None
                   end).
  { unfold session, delete_and_refresh, handleDeleteModel.
    rewrite jsstr_eqb_refl.
    destruct (selectedModel (state p)); [now elim Hsel|]. reflexivity. }
  cbv zeta in Hs. splits.
  - intros first rest first_name Hg Hn. rewrite Hs.
    destruct own_first.
    + destruct (fetchModels_seen name r_own
                  (set_state (set_selected [] (Some JNull) (state p)) p) Hname)
        as (p2 & -> & E2).
      rewrite (fetchModels_selects _ _ _ _ _ _ _ Hd Hg Hn).
      eexists. split; [reflexivity|]. split; reflexivity.
    + rewrite (fetchModels_selects _ _ _ _ _ _ _ Hd Hg Hn).
      match goal with |- context [fetchModels name r_own ?q] =>
        destruct (fetchModels_seen name r_own q Hname) as (p2 & -> & E2) end.
      exists p2. split; [reflexivity|]. rewrite E2. split; reflexivity.
  - intros Hg. rewrite Hs.
    assert (He : forall q, selectedModel (state q) = [] ->
                   selectedModelInfo (state q) = Some JNull ->
                   exists q', fetchModels [] (Responded status' text') q = Some q'
                              /\ state q' = state q).
    { intros q _ _. unfold fetchModels. rewrite Hd.
      destruct data; cbn [get] in Hg; try discriminate.
      cbn [get]. rewrite Hg. cbn [is_empty negb length_of List.length].
      change (ToNumber (Some (JNum (of_Z (Z.of_nat 0))))) with (Ok (S754_zero false)).
      eexists. split; reflexivity. }
    assert (Hfin : exists p', (if own_first then
                   match fetchModels name r_own
                           (set_state (set_selected [] (Some JNull) (state p)) p) with
                   | Some p2 => fetchModels [] (Responded status' text') p2
                   | None => None
                   end
                 else
                   match fetchModels [] (Responded status' text')
                           (set_state (set_selected [] (Some JNull) (state p)) p) with
                   | Some p2 => fetchModels name r_own p2
                   | None => None
                   end) = Some p'
                 /\ state p' = set_selected [] (Some JNull) (state p)).
    { destruct own_first.
      - destruct (fetchModels_seen name r_own
                    (set_state (set_selected [] (Some JNull) (state p)) p) Hname)
          as (p2 & -> & E2).
        destruct (He p2) as (p3 & -> & E3); [now rewrite E2..|].
        exists p3. split; [reflexivity|]. now rewrite E3, E2.
      - destruct (He (set_state (set_selected [] (Some JNull) (state p)) p))
          as (p2 & -> & E2); [reflexivity..|].
        destruct (fetchModels_seen name r_own p2 Hname) as (p3 & -> & E3).
        exists p3. split; [reflexivity|]. now rewrite E3, E2. }
    destruct Hfin as (p' & -> & E). exists p'. rewrite E.
    splits; try reflexivity.
    intros typed. unfold handleChatSubmit.
    cbn [selectedModel set_selected set_prompt is_empty].
    now rewrite orb_true_r.
  - intros seen r r_effect. split; reflexivity.
  - intros seen r_effect Hs1 Hs2. unfold delete_and_refresh, handleDeleteModel.
    rewrite (jsstr_eqb_neq _ _ Hs2). cbn [andb].
    now apply fetchModels_seen.
Qed.

(** The selected model is deleted and another one is left in the list; the
    answer to the delete request is a 404. *)
Lemma deleting_the_selected_model_selects_the_first_listed_witness :
  let p := set_state chat_ready (set_models (Some (JArr [gemma])) initial_panel) in
  let left := jsq "{'models':[{'name':'llama3:8b','size':4000000000}]}" in
  exists p',
    delete_and_refresh true (js "gemma:2b") (Responded 404 []) (js "gemma:2b")
      (Responded 200 left) (Responded 200 left) true p = Some p'
    /\ selectedModel (state p') = js "llama3:8b"
    /\ selectedModelInfo (state p') = model_4e9.
Proof.
  cbv zeta.
  refine (proj1 (deleting_the_selected_model_selects_the_first_listed
                   (js "gemma:2b") 404 []
                   (Responded 200 (jsq "{'models':[{'name':'llama3:8b','size':4000000000}]}"))
                   200 (jsq "{'models':[{'name':'llama3:8b','size':4000000000}]}") true
                   (set_state chat_ready (set_models (Some (JArr [gemma])) initial_panel))
                   (JObj [(js "models",
                           JArr [JObj [(js "name", JStr (js "llama3:8b"));
                                       (js "size", JNum (of_Z 4000000000))]])])
                   _ _ _)
                (JObj [(js "name", JStr (js "llama3:8b"));
                       (js "size", JNum (of_Z 4000000000))])
                [] (js "llama3:8b") _ _).
  - discriminate.
  - discriminate.
  - vm_compute; reflexivity.
  - vm_compute; reflexivity.
  - vm_compute; reflexivity.
Defined.

(** A fetch of the stats that fails (the request is rejected, the status is no
    success, or the body is no JSON) sets the error text and leaves the last
    sample in place, so the memory guard goes on judging by it. Every answer
    of the stats endpoint other than a sample has such a status. A fetch that
    succeeds stores the sample, and clears the error only if the callback saw
    one. *)
Theorem failed_stats_fetch_keeps_the_last_sample
  (seen : option jsstring) (p : PanelState) :
  (forall r,
     r = Rejected
     \/ (exists status text, r = Responded status text /\ response_ok status = false)
     \/ (exists status text, r = Responded status text /\ JSON_parse text = None) ->
     fetchStats seen r p = set_statsError (Some stats_error_text) p
     /\ memOk (state (fetchStats seen r p)) = memOk (state p))
  /\ (forall run text,
        (forall stats, body_of (get_system_stats run) <> Sample stats) ->
        fetchStats seen (Responded (status_code (get_system_stats run)) text) p
        = set_statsError (Some stats_error_text) p)
  /\ (forall status text data,
        response_ok status = true -> JSON_parse text = Some data ->
        systemStats (state (fetchStats seen (Responded status text) p)) = Some data
        /\ statsError (fetchStats seen (Responded status text) p)
           = match seen with
             | Some (_ :: _) => None
             | _ => statsError p
             end).
Proof.
  splits.
  - intros r [->|[(status & text & -> & H)|(status & text & -> & H)]];
      unfold fetchStats; rewrite ?H; try (split; reflexivity).
    destruct (response_ok status); split; reflexivity.
  - intros run text H. unfold fetchStats.
    replace (response_ok (status_code (get_system_stats run))) with false; [reflexivity|].
    unfold get_system_stats in *.
    destruct run as [| | |out]; try reflexivity.
    destruct (parse_tegrastats (strip out)) as [[|kv d]|e]; try reflexivity.
    now elim (H (kv :: d)).
  - intros status text data Hs Hd. unfold fetchStats. rewrite Hs, Hd.
    destruct seen as [[|c s]|]; split; reflexivity.
Qed.

(** The stats helper answers 500, or the request is rejected, after a sample
    was stored. *)
Lemma failed_stats_fetch_keeps_the_last_sample_witness :
  let p := set_state (set_systemStats stats_8_2 chat_ready) initial_panel in
  fetchStats None (Responded 500 (jsq "{'error':'tegrastats command not found.'}")) p
  = set_statsError (Some stats_error_text) p
  /\ systemStats (state (fetchStats None Rejected p)) = stats_8_2.
Proof.
  cbv zeta.
  pose proof (proj1 (failed_stats_fetch_keeps_the_last_sample None
                       (set_state (set_systemStats stats_8_2 chat_ready) initial_panel))) as H.
  split.
  - apply H. right. left. eexists. eexists. split; reflexivity.
  - rewrite (proj1 (H Rejected (or_introl eq_refl))). reflexivity.
Defined.

End PanelFacts.

Module StringifyFacts.
Import F64 JsNum JsVal Stream App Samples Stringify Panel Shapes.
Import JsonFacts NumberFacts IntegerFacts.

Local Abbreviation len := (@List.length N).

Lemma hex_value_digit (v : N) : (v < 16)%N -> hex_value (hex_digit v) = Some v.
Proof.
  intros H. unfold hex_value, hex_digit, is_digit.
  destruct (N.ltb_spec v 10) as [Hv|Hv].
  - replace (N.leb 48 (48 + v) && N.leb (48 + v) 57) with true
      by (symmetry; apply andb_true_iff; split; apply N.leb_le; lia).
    f_equal. lia.
  - replace (N.leb 48 (87 + v) && N.leb (87 + v) 57) with false
      by (symmetry; apply andb_false_iff; right; apply N.leb_gt; lia).
    replace (N.leb 97 (87 + v) && N.leb (87 + v) 102) with true
      by (symmetry; apply andb_true_iff; split; apply N.leb_le; lia).
    f_equal. lia.
Qed.

Lemma hex4_escape (c : N) :
  (c < 65536)%N ->
  hex4 (hex_digit ((c / 4096) mod 16)) (hex_digit ((c / 256) mod 16))
       (hex_digit ((c / 16) mod 16)) (hex_digit (c mod 16)) = Some c.
Proof.
  intros H. unfold hex4.
  rewrite !hex_value_digit by (apply N.mod_upper_bound; discriminate).
  f_equal.
  pose proof (N.div_mod c 16 ltac:(discriminate)) as H1.
  pose proof (N.div_mod (c / 16) 16 ltac:(discriminate)) as H2.
  pose proof (N.div_mod (c / 16 / 16) 16 ltac:(discriminate)) as H3.
  rewrite !N.Div0.div_div in H2, H3.
  change (16 * 16)%N with 256%N in *. change (256 * 16)%N with 4096%N in *.
  assert (H4 : (c / 4096 < 16)%N) by (apply N.Div0.div_lt_upper_bound; exact H).
  rewrite (N.mod_small (c / 4096) 16) by exact H4.
  rewrite N.Div0.div_div in H3. change (256 * 16)%N with 4096%N in H3. lia.
Qed.

Lemma parse_string_escape (c : N) (s acc : jsstring) :
  (c < 65536)%N ->
  parse_string (unicode_escape c ++ s) acc = parse_string s (c :: acc).
Proof.
  intros H. unfold unicode_escape. cbn [app parse_string N.eqb Pos.eqb].
  now rewrite hex4_escape.
Qed.

Lemma parse_string_raw (c : N) (s acc : jsstring) :
  c <> 34%N -> c <> 92%N -> (32 <= c)%N ->
  parse_string (c :: s) acc = parse_string s (c :: acc).
Proof.
  intros H1 H2 H3. cbn [parse_string].
  replace (N.eqb c 34) with false by (symmetry; now apply N.eqb_neq).
  replace (N.eqb c 92) with false by (symmetry; now apply N.eqb_neq).
  replace (N.ltb c 32) with false by (symmetry; apply N.ltb_ge; exact H3).
  reflexivity.
Qed.

Lemma parse_string_unit (c : N) (s acc : jsstring) :
  parse_string (quote_unit c ++ s) acc = parse_string s (c :: acc).
Proof.
  unfold quote_unit.
  destruct (N.eqb_spec c 8) as [->|H8]; [reflexivity|].
  destruct (N.eqb_spec c 9) as [->|H9]; [reflexivity|].
  destruct (N.eqb_spec c 10) as [->|H10]; [reflexivity|].
  destruct (N.eqb_spec c 12) as [->|H12]; [reflexivity|].
  destruct (N.eqb_spec c 13) as [->|H13]; [reflexivity|].
  destruct (N.eqb_spec c 34) as [->|H34]; [reflexivity|].
  destruct (N.eqb_spec c 92) as [->|H92]; [reflexivity|].
  destruct (N.ltb_spec c 32) as [Hlt|Hge].
  - apply parse_string_escape. lia.
  - apply parse_string_raw; assumption.
Qed.

(** A quoted string reads back as the string: whatever code units it holds,
    quotes, backslashes, control characters and surrogates that stand alone
    included. *)
Lemma parse_string_quote (n : nat) :
  forall (s rest acc : jsstring),
    (List.length s <= n)%nat ->
    parse_string (quote_units s ++ 34%N :: rest) acc = Some (rev acc ++ s, rest).
Proof.
  induction n as [|n IH]; intros s rest acc Hn.
  - destruct s; [|simpl in Hn; lia].
    cbn [quote_units app parse_string N.eqb Pos.eqb]. now rewrite app_nil_r.
  - destruct s as [|c s].
    { cbn [quote_units app parse_string N.eqb Pos.eqb]. now rewrite app_nil_r. }
    simpl in Hn.
    assert (Hstep : forall t, rev (c :: acc) ++ t = rev acc ++ c :: t).
    { intros t. cbn [rev]. now rewrite <- app_assoc. }
    cbn [quote_units].
    destruct (is_leading_surrogate c) eqn:Hl.
    + unfold is_leading_surrogate in Hl. apply andb_true_iff in Hl.
      destruct Hl as [Hl1 Hl2]. apply N.leb_le in Hl1, Hl2.
      destruct s as [|d s].
      * rewrite parse_string_escape by lia.
        cbn [parse_string N.eqb Pos.eqb]. reflexivity.
      * destruct (is_trailing_surrogate d) eqn:Ht.
        -- unfold is_trailing_surrogate in Ht. apply andb_true_iff in Ht.
           destruct Ht as [Ht1 Ht2]. apply N.leb_le in Ht1, Ht2.
           cbn [app]. rewrite !parse_string_raw by lia.
           rewrite IH by (simpl in Hn; lia).
           cbn [rev]. now rewrite <- !app_assoc.
        -- rewrite <- app_assoc, parse_string_escape by lia.
           rewrite IH by lia. now rewrite Hstep.
    + destruct (is_trailing_surrogate c) eqn:Ht.
      * unfold is_trailing_surrogate in Ht. apply andb_true_iff in Ht.
        destruct Ht as [Ht1 Ht2]. apply N.leb_le in Ht1, Ht2.
        rewrite <- app_assoc, parse_string_escape by lia.
        rewrite IH by lia. now rewrite Hstep.
      * rewrite <- app_assoc, parse_string_unit.
        rewrite IH by lia. now rewrite Hstep.
Qed.

Lemma integral_finite (x : number) : integral x -> is_finite x = true.
Proof.
  intros (n & [H0 Hn] & ->). destruct n as [|n|n]; [reflexivity| |lia].
  destruct (of_Z_exact n (Zdigits2_le_53 n Hn)) as (m & -> & _). reflexivity.
Qed.

Lemma stringify_opens (v : json) :
  plain v -> exists c tl, JSON_stringify v = c :: tl /\ opens c.
Proof.
  intros Hp. destruct v as [|b|x|s|items|members]; cbn [JSON_stringify].
  - eexists _, _. split; [reflexivity|]. repeat split; discriminate.
  - destruct b; eexists _, _; (split; [reflexivity|]); repeat split; discriminate.
  - cbn [plain] in Hp. rewrite (integral_finite x Hp).
    destruct Hp as (n & Hn & ->).
    destruct (parse_number_integer n [] Hn eq_refl) as (_ & c0 & tl & -> & Hd).
    exists c0, tl. split; [reflexivity|].
    unfold is_digit in Hd. apply andb_true_iff in Hd. destruct Hd as [H1 H2].
    apply N.leb_le in H1, H2. unfold opens, is_json_ws.
    repeat split; try lia.
    repeat (apply orb_false_iff; split); apply N.eqb_neq; lia.
  - eexists _, _. split; [reflexivity|]. repeat split; discriminate.
  - eexists _, _. split; [reflexivity|]. repeat split; discriminate.
  - eexists _, _. split; [reflexivity|]. repeat split; discriminate.
Qed.

Lemma skip_ws_opens (c : N) (tl : jsstring) : opens c -> skip_ws (c :: tl) = c :: tl.
Proof. intros (H & _). cbn [skip_ws]. now rewrite H. Qed.

Lemma skip_ws_stringify (v : json) (rest : jsstring) :
  plain v -> skip_ws (JSON_stringify v ++ rest) = JSON_stringify v ++ rest.
Proof.
  intros Hp. destruct (stringify_opens v Hp) as (c & tl & -> & Ho).
  now apply skip_ws_opens.
Qed.

Lemma join_cons (sep p q : jsstring) (l : list jsstring) :
  join sep (p :: q :: l) = p ++ sep ++ join sep (q :: l).
Proof. cbn [join flat_map]. now rewrite <- app_assoc. Qed.

Lemma join_one (sep p : jsstring) : join sep [p] = p.
Proof. cbn [join flat_map]. apply app_nil_r. Qed.

Lemma parse_elements_step (f : nat) (s : jsstring) (acc : list json) :
  parse_elements (S f) s acc
  = elements_step (fun s' => parse_value f s')
                  (fun s' acc' => parse_elements f s' acc') s acc.
Proof. reflexivity. Qed.

Lemma parse_members_step (f : nat) (s : jsstring) (acc : list (jsstring * json)) :
  parse_members (S f) s acc
  = members_step (fun s' => parse_value f s')
                 (fun s' acc' => parse_members f s' acc') s acc.
Proof. reflexivity. Qed.

Lemma parse_value_step (f : nat) (s : jsstring) :
  parse_value (S f) s
  = value_step (fun s' acc => parse_elements f s' acc)
               (fun s' acc => parse_members f s' acc) s.
Proof. reflexivity. Qed.

Section Induction.

Variable n : nat.

(** The values of size at most [n] read back. *)
Hypothesis smaller :
  forall v, (size v <= n)%nat -> plain v ->
    forall rest fuel,
      ender rest = true ->
      (2 * len (JSON_stringify v ++ rest) < fuel)%nat ->
      parse_value fuel (JSON_stringify v ++ rest) = Some (v, rest).

Lemma elements_read_back (items : list json) :
  (fold_right (fun w k => (size w + k)%nat) O items <= n)%nat ->
  fold_right (fun w P => plain w /\ P) True items ->
  items <> [] ->
  forall acc rest fuel,
    (2 * len (join (js ",") (map JSON_stringify items) ++ 93%N :: rest) + 1 < fuel)%nat ->
    parse_elements fuel (join (js ",") (map JSON_stringify items) ++ 93%N :: rest) acc
    = Some (JArr (rev acc ++ items), rest).
Proof.
  induction items as [|v items IH]; intros Hs Hp Hne acc rest fuel Hf; [now elim Hne|].
  cbn [fold_right] in Hs, Hp. destruct Hp as [Hv Hp].
  destruct fuel as [|f]; [lia|].
  rewrite parse_elements_step. unfold elements_step.
  destruct items as [|w items].
  - cbn [map]. rewrite join_one. cbn [map] in Hf. rewrite join_one in Hf.
    rewrite smaller; [|lia|exact Hv|reflexivity|lia].
    cbn [skip_ws is_json_ws N.eqb Pos.eqb orb]. cbn [rev]. reflexivity.
  - cbn [map] in *. rewrite join_cons in *. rewrite <- !app_assoc in *.
    cbn [js map list_ascii_of_string app] in *.
    change (N_of_ascii ",") with 44%N in *.
    rewrite smaller; [|lia|exact Hv|reflexivity|lia].
    cbn [skip_ws is_json_ws N.eqb Pos.eqb orb].
    assert (Hw : plain w) by (cbn [fold_right] in Hp; apply Hp).
    destruct (stringify_opens w Hw) as (c & tl & Ew & Ho).
    assert (Hskip : skip_ws (join [44%N] (JSON_stringify w :: map JSON_stringify items)
                             ++ 93%N :: rest)
                    = join [44%N] (JSON_stringify w :: map JSON_stringify items)
                      ++ 93%N :: rest).
    { cbn [join]. rewrite Ew. cbn [app]. now apply skip_ws_opens. }
    rewrite Hskip.
    rewrite length_app in Hf. cbn [List.length] in Hf.
    assert (Hl : (1 <= len (JSON_stringify v))%nat).
    { destruct (stringify_opens v Hv) as (c' & tl' & -> & _). simpl. lia. }
    rewrite (IH ltac:(cbn [fold_right] in *; lia) Hp ltac:(discriminate)
               (v :: acc) rest f).
    + cbn [rev]. now rewrite <- app_assoc.
    + lia.
Qed.

Lemma member_text_eq (k : jsstring) (w : json) (tail : jsstring) :
  (quote k ++ js ":" ++ JSON_stringify w) ++ tail
  = 34%N :: quote_units k ++ 34%N :: 58%N :: JSON_stringify w ++ tail.
Proof.
  unfold quote. cbn [app]. rewrite <- !app_assoc. cbn [app js map list_ascii_of_string].
  reflexivity.
Qed.

Lemma members_read_back (members : list (jsstring * json)) :
  (fold_right (fun m k => let '(_, w) := m in (size w + k)%nat) O members <= n)%nat ->
  fold_right (fun m P => let '(_, w) := m in plain w /\ P) True members ->
  members <> [] ->
  forall acc rest fuel,
    let text :=
      join (js ",")
        (map (fun m => let '(k, w) := m in quote k ++ js ":" ++ JSON_stringify w)
             members) ++ 125%N :: rest in
    (2 * len text + 1 < fuel)%nat ->
    parse_members fuel text acc = Some (JObj (rev acc ++ members), rest).
Proof.
  induction members as [|[k v] members IH]; intros Hs Hp Hne acc rest fuel text Hf;
    [now elim Hne|].
  cbn [fold_right] in Hs, Hp. destruct Hp as [Hv Hp].
  destruct fuel as [|f]; [lia|].
  rewrite parse_members_step. unfold members_step. unfold text in *. clear text.
  assert (Hl : (1 <= len (JSON_stringify v))%nat).
  { destruct (stringify_opens v Hv) as (c' & tl' & -> & _). simpl. lia. }
  destruct members as [|[k' w] members].
  - cbn [map] in *. rewrite join_one in *. rewrite member_text_eq in *.
    cbn [N.eqb Pos.eqb].
    rewrite (parse_string_quote (List.length k)) by lia. cbn [rev app].
    cbn [skip_ws is_json_ws N.eqb Pos.eqb orb].
    rewrite skip_ws_stringify by exact Hv.
    cbn [List.length] in Hf. rewrite length_app in Hf. cbn [List.length] in Hf.
    rewrite smaller; [|lia|exact Hv|reflexivity|lia].
    cbn [skip_ws is_json_ws N.eqb Pos.eqb orb]. reflexivity.
  - cbn [map] in *. rewrite join_cons in *.
    set (J := join (js ",") _) in *.
    rewrite <- (app_assoc (quote k ++ js ":" ++ JSON_stringify v)) in *.
    rewrite (member_text_eq k v) in *.
    cbn [N.eqb Pos.eqb].
    rewrite (parse_string_quote (List.length k)) by lia. cbn [rev app].
    cbn [skip_ws is_json_ws N.eqb Pos.eqb orb].
    rewrite skip_ws_stringify by exact Hv.
    cbn [List.length] in Hf. rewrite length_app in Hf. cbn [List.length] in Hf.
    rewrite length_app in Hf. rewrite <- app_assoc in *.
    cbn [js map list_ascii_of_string app] in *.
    change (N_of_ascii ",") with 44%N in *.
    rewrite smaller; [|lia|exact Hv|reflexivity|rewrite length_app; lia].
    cbn [skip_ws is_json_ws N.eqb Pos.eqb orb].
    assert (Hskip : skip_ws (J ++ 125%N :: rest) = J ++ 125%N :: rest).
    { unfold J. cbn [join]. unfold quote. cbn [app]. reflexivity. }
    rewrite Hskip.
    rewrite (IH ltac:(cbn [fold_right] in *; lia) Hp ltac:(discriminate)
               ((k, v) :: acc) rest f).
    + cbn [rev]. now rewrite <- app_assoc.
    + cbn [List.length] in Hf. lia.
Qed.

End Induction.

Lemma value_step_number elements members (c0 : N) (tl : jsstring) :
  is_digit c0 = true ->
  value_step elements members (c0 :: tl)
  = match parse_number (c0 :: tl) with
    | Some (x, r') => Some (JNum x, r')
    | None => None
    end.
Proof.
  intros Hd. unfold is_digit in Hd. apply andb_true_iff in Hd. destruct Hd as [H1 H2].
  apply N.leb_le in H1, H2. unfold value_step.
  replace (N.eqb c0 34) with false by (symmetry; apply N.eqb_neq; lia).
  replace (N.eqb c0 91) with false by (symmetry; apply N.eqb_neq; lia).
  replace (N.eqb c0 123) with false by (symmetry; apply N.eqb_neq; lia).
  replace (N.eqb c0 110) with false by (symmetry; apply N.eqb_neq; lia).
  replace (N.eqb c0 116) with false by (symmetry; apply N.eqb_neq; lia).
  replace (N.eqb c0 102) with false by (symmetry; apply N.eqb_neq; lia).
  reflexivity.
Qed.

(** What [JSON.stringify] writes for a plain value, [JSON.parse] reads back as
    that value, whatever follows it in an array or an object. *)
Lemma parse_stringify (n : nat) :
  forall v, (size v <= n)%nat -> plain v ->
    forall rest fuel,
      ender rest = true ->
      (2 * len (JSON_stringify v ++ rest) < fuel)%nat ->
      parse_value fuel (JSON_stringify v ++ rest) = Some (v, rest).
Proof.
  induction n as [|n IH]; intros v Hs Hp rest fuel He Hf.
  { destruct v; simpl in Hs; lia. }
  destruct fuel as [|f]; [lia|].
  rewrite parse_value_step.
  destruct v as [|b|x|s|items|members].
  - reflexivity.
  - destruct b; reflexivity.
  - cbn [plain] in Hp. cbn [JSON_stringify]. rewrite (integral_finite x Hp).
    destruct Hp as (m & Hm & ->).
    destruct (parse_number_integer m rest Hm He) as (Hparse & c0 & tl & Ec & Hd).
    rewrite Ec in Hparse |- *. cbn [app] in Hparse |- *.
    rewrite value_step_number by exact Hd. now rewrite Hparse.
  - cbn [JSON_stringify]. unfold quote, value_step. rewrite <- !app_assoc.
    cbn [app N.eqb Pos.eqb].
    now rewrite (parse_string_quote (List.length s)) by lia.
  - cbn [JSON_stringify size plain] in *. unfold value_step.
    rewrite <- !app_assoc. cbn [js map list_ascii_of_string app N.eqb Pos.eqb].
    change (N_of_ascii "]") with 93%N.
    destruct items as [|w items].
    + reflexivity.
    + assert (Hw : plain w) by (cbn [fold_right] in Hp; apply Hp).
      destruct (stringify_opens w Hw) as (c & tl & Ew & Ho).
      set (text := join _ _ ++ 93%N :: rest) in *.
      assert (Et : exists tl', text = c :: tl').
      { unfold text. cbn [map join]. rewrite Ew. cbn [app]. now eexists. }
      destruct Et as [tl' Et].
      assert (Hskip : skip_ws text = c :: tl') by (rewrite Et; now apply skip_ws_opens).
      rewrite Hskip.
      replace (N.eqb c 93) with false by (symmetry; apply N.eqb_neq; apply Ho).
      rewrite <- Et. unfold text.
      change [N_of_ascii ","] with (js ",").
      rewrite (elements_read_back n IH (w :: items)); try assumption.
      * reflexivity.
      * lia.
      * discriminate.
      * change (2 * len text + 1 < f)%nat.
        rewrite <- !app_assoc in Hf.
        change (2 * len (91%N :: text) < S f)%nat in Hf.
        cbn [List.length] in Hf. lia.
  - cbn [JSON_stringify size plain] in *. unfold value_step.
    rewrite <- !app_assoc. cbn [js map list_ascii_of_string app N.eqb Pos.eqb].
    change (N_of_ascii "}") with 125%N.
    destruct members as [|[k w] members].
    + reflexivity.
    + set (text := join _ _ ++ 125%N :: rest) in *.
      assert (Et : exists tl', text = 34%N :: tl').
      { unfold text. cbn [map join]. unfold quote. cbn [app]. now eexists. }
      destruct Et as [tl' Et]. rewrite Et.
      cbn [skip_ws is_json_ws N.eqb Pos.eqb orb].
      rewrite <- Et. unfold text.
      change [N_of_ascii ","] with (js ","). change [N_of_ascii ":"] with (js ":").
      rewrite (members_read_back n IH ((k, w) :: members)); try assumption.
      * reflexivity.
      * lia.
      * discriminate.
      * change (2 * len text + 1 < f)%nat.
        rewrite <- !app_assoc in Hf.
        change (2 * len (123%N :: text) < S f)%nat in Hf.
        cbn [List.length] in Hf. lia.
Qed.

(** [JSON.parse(JSON.stringify(v))] is [v] for a plain value. *)
Lemma JSON_parse_stringify (v : json) :
  plain v -> JSON_parse (JSON_stringify v) = Some v.
Proof.
  intros Hp. unfold JSON_parse.
  rewrite <- (app_nil_r (JSON_stringify v)) at 2.
  rewrite skip_ws_stringify by exact Hp.
  rewrite (parse_stringify (size v) v (le_n _) Hp [] _ eq_refl).
  - reflexivity.
  - rewrite app_nil_r. lia.
Qed.

Lemma plain_messages (l : list ChatMessage) :
  fold_right (fun w P => plain w /\ P) True (map message_json l).
Proof. induction l as [|m l IH]; cbn; [exact I|]. repeat split; exact IH. Qed.

Lemma plain_saved (chats : list SavedChat) :
  Forall (fun c => integral (created c)) chats ->
  fold_right (fun w P => plain w /\ P) True (map saved_json chats).
Proof.
  induction 1 as [|c chats Hc _ IH]; cbn [map fold_right]; [exact I|].
  split; [|exact IH]. cbn. repeat split; try exact Hc. apply plain_messages.
Qed.

(** The bodies of the three requests are JSON text that reads back as what was
    meant, whatever the texts hold (quotes, backslashes, line feeds, control
    characters, surrogates that stand alone): the pull request as the model
    name typed and [stream: true]; the chat request as the model selected, the
    whole history followed by the prompt, each message with its role and its
    content, and [stream: true]; the delete request as the model name. *)
Theorem request_bodies_read_back :
  (forall name,
     JSON_parse (JSON_stringify (pull_request name))
     = Some (JObj [(js "name", JStr name); (js "stream", JBool true)]))
  /\ (forall st st' t,
        handleChatSubmit st = (st', Some t) ->
        JSON_parse (JSON_stringify (chat_request t))
        = Some (JObj [(js "model", JStr (selectedModel st));
                      (js "messages",
                       JArr (map message_json
                               (chatHistory st
                                ++ [{| role := user; content := prompt st |}])));
                      (js "stream", JBool true)]))
  /\ (forall name,
        JSON_parse (JSON_stringify (delete_request name))
        = Some (JObj [(js "model", JStr name)])).
Proof.
  splits.
  - intros name. apply JSON_parse_stringify. cbn. auto.
  - intros st st' t H. unfold handleChatSubmit in H.
    destruct (is_empty (prompt st) || isStreaming st || is_empty (selectedModel st)
              || negb (truthy (selectedModelInfo st))); [discriminate|].
    injection H as _ <-.
    set (t := {| request_model := _; request_messages := _; chat_reading := _;
                 assistantContent := _ |}).
    change (JSON_parse (JSON_stringify (chat_request t)) = Some (chat_request t)).
    apply JSON_parse_stringify.
    cbn [chat_request plain fold_right request_model request_messages].
    repeat split. apply plain_messages.
  - intros name. apply JSON_parse_stringify. cbn. auto.
Qed.

(** The pull of the default model, and the first chat request. *)
Lemma request_bodies_read_back_witness :
  JSON_parse (JSON_stringify (pull_request (js "gemma:2b")))
  = Some (JObj [(js "name", JStr (js "gemma:2b")); (js "stream", JBool true)])
  /\ exists st' t,
       handleChatSubmit chat_ready = (st', Some t)
       /\ JSON_parse (JSON_stringify (chat_request t))
          = Some (JObj [(js "model", JStr (js "gemma:2b"));
                        (js "messages",
                         JArr [JObj [(js "role", JStr (js "user"));
                                     (js "content", JStr (js "hi"))]]);
                        (js "stream", JBool true)]).
Proof.
  destruct request_bodies_read_back as (H1 & H2 & _).
  split; [apply H1|].
  eexists. eexists. split; [vm_compute; reflexivity|].
  refine (H2 chat_ready _ _ _). vm_compute. reflexivity.
Defined.

(** The saved chats survive a reload: the text that the persisting effect
    stores is read back on mount as the same entries in the same order, each
    with its id, title, history, model and time, when the times are integral,
    as the readings of [Date.now()] are. An entry that [handleSaveCurrentChat]
    adds at such a time keeps this so. Nothing is restored from an item that is
    absent, empty, or no JSON. *)
Theorem saved_chats_survive_reload (chats : list SavedChat) :
  Forall (fun c => integral (created c)) chats ->
  restored (Some (persisted chats)) = Some (JArr (map saved_json chats))
  /\ (forall p title now_id now_created,
        savedChats p = chats -> integral now_created ->
        Forall (fun c => integral (created c))
               (savedChats (handleSaveCurrentChat title now_id now_created p)))
  /\ restored None = None
  /\ restored (Some []) = None
  /\ (forall text, JSON_parse text = None -> restored (Some text) = None).
Proof.
  intros H. splits.
  - unfold restored, persisted.
    pose proof (JSON_parse_stringify (JArr (map saved_json chats))) as E.
    cbn [JSON_stringify] in *. cbn [js map list_ascii_of_string app] in *.
    apply E. cbn [plain]. now apply plain_saved.
  - intros p title now_id now_created <- Hn. unfold handleSaveCurrentChat.
    destruct (chatHistory (state p)); [exact H|].
    destruct title as [[|u t]|]; try exact H.
    cbn [savedChats set_savedChats]. constructor; [exact Hn|exact H].
  - reflexivity.
  - reflexivity.
  - intros text Ht. unfold restored. destruct text; [reflexivity|exact Ht].
Qed.

Lemma saved_chats_survive_reload_witness :
  let chats := [{| id := js "1700000000000"; title := js "first";
                   history := [{| role := user; content := jsq "say 'hi'" |};
                               {| role := assistant; content := js "hi" ++ [LF] |}];
                   model := js "gemma:2b"; created := of_Z 1700000000000 |}] in
  restored (Some (persisted chats)) = Some (JArr (map saved_json chats)).
Proof.
  cbv zeta.
  refine (proj1 (saved_chats_survive_reload _ _)).
  constructor; [|constructor].
  exists 1700000000000. split; [lia|reflexivity].
Defined.

End StringifyFacts.
